(** * MineCord: the Minecraft server lifecycle manager

    A shallow embedding of [server_manager.py] (class
    [MinecraftServerManager]) and of the [/create] command of
    [discord_bot.py], and the properties of the port allocator, the
    state store, the per-server configuration rewrite and the lifecycle
    operations.

    Conventions.
    - Python [int] is [Z]; [str] is [string], whose characters stand for
      code points below 256; [Optional[T]] is [option T].
    - A Python [dict] that is iterated or serialised is an
      insertion-ordered association list ([PyDict]); a dict that is only
      probed, assigned and deleted by key is a [gmap].
    - [self] and everything it reaches (the [ServerConfig] objects, the
      files under [servers_dir], the child processes and the event-loop
      tasks) form one [World]; methods are computations in the state
      monad [M] over it.
    - A coroutine is cut at its [await] points: every piece between two
      suspensions is one atomic computation, and the event loop is the
      step function [step] that runs one piece at a time.
    - What the world outside the manager decides (the clock, the
      outcome of a download, the exit of a child) is an input of the
      piece that observes it ([Env], [ProcessExit]).

    - The [json] module is transcribed from the standard library
      ([PyJson]): what [json.dump] writes chunk by chunk, and what
      [json.load] reads.

    Left out: logging, the [console_outputs] queues (created and
    deleted, never read), [send_console_command] and [cleanup]; the
    launch command that [start_server] builds is not represented, and
    file operations other than those on the files listed in
    [FileSystem] are taken to succeed. *)

From Stdlib Require Import Ascii.
From stdpp Require Import gmap strings list fin_maps pretty.

Open Scope Z_scope.
Set Warnings "-register-all".

(** ** Insertion-ordered dictionaries *)

Module PyDict.
Section dict.
Context {K V : Type} `{EqDecision K}.

(** [d.get(k)] *)
Fixpoint get (k : K) (d : list (K * V)) : option V :=
  match d with
  | [] => None
  | (k', v) :: d' => if decide (k = k') then Some v else get k d'
  end.

(** [k in d] *)
Definition mem (k : K) (d : list (K * V)) : bool :=
  match get k d with Some _ => true | None => false end.

(** [d[k] = v]: an existing key keeps its position, a new key goes last. *)
Fixpoint set (k : K) (v : V) (d : list (K * V)) : list (K * V) :=
  match d with
  | [] => [(k, v)]
  | (k', v') :: d' =>
      if decide (k = k') then (k, v) :: d' else (k', v') :: set k v d'
  end.

(** [del d[k]] on a present key; an absent key is reported by the caller. *)
Fixpoint del (k : K) (d : list (K * V)) : list (K * V) :=
  match d with
  | [] => []
  | (k', v') :: d' =>
      if decide (k = k') then d' else (k', v') :: del k d'
  end.

Definition keys (d : list (K * V)) : list K := d.*1.

(** The invariant of every Python dict: a key occurs once. *)
Definition wf (d : list (K * V)) : Prop := NoDup (keys d).

End dict.
End PyDict.

(** ** Data model *)

(** [class ServerStatus(Enum)] and its [.value]. *)
Inductive ServerStatus :=
  STOPPED | STARTING | RUNNING | STOPPING | CRASHED | ERROR.

Definition value (s : ServerStatus) : string :=
  match s with
  | STOPPED => "stopped"
  | STARTING => "starting"
  | RUNNING => "running"
  | STOPPING => "stopping"
  | CRASHED => "crashed"
  | ERROR => "error"
  end.

(** A Python [float] is only produced by [time.time()], stored and
    serialised; it is identified by its [repr], the shortest decimal
    literal that reads back as the same float. *)
Record pyfloat := Float { float_repr : string }.

(** [@dataclass class ServerConfig]. [status] is a [str] field: the code
    compares it with the enumeration's values but stores what it is given. *)
Record ServerConfig := {
  name : string;
  version : string;
  memory : Z;
  port : Z;
  modpack_url : option string;
  server_file_url : option string;
  status : string;
  pid : option Z;
  last_started : option pyfloat;
  restart_count : Z;
  crash_count : Z;
}.

Definition with_status (v : string) (s : ServerConfig) : ServerConfig :=
  {| name := name s; version := version s; memory := memory s; port := port s;
     modpack_url := modpack_url s; server_file_url := server_file_url s;
     status := v; pid := pid s; last_started := last_started s;
     restart_count := restart_count s; crash_count := crash_count s |}.

Definition with_pid (v : option Z) (s : ServerConfig) : ServerConfig :=
  {| name := name s; version := version s; memory := memory s; port := port s;
     modpack_url := modpack_url s; server_file_url := server_file_url s;
     status := status s; pid := v; last_started := last_started s;
     restart_count := restart_count s; crash_count := crash_count s |}.

Definition with_last_started (v : option pyfloat) (s : ServerConfig) : ServerConfig :=
  {| name := name s; version := version s; memory := memory s; port := port s;
     modpack_url := modpack_url s; server_file_url := server_file_url s;
     status := status s; pid := pid s; last_started := v;
     restart_count := restart_count s; crash_count := crash_count s |}.

Definition with_crash_count (v : Z) (s : ServerConfig) : ServerConfig :=
  {| name := name s; version := version s; memory := memory s; port := port s;
     modpack_url := modpack_url s; server_file_url := server_file_url s;
     status := status s; pid := pid s; last_started := last_started s;
     restart_count := restart_count s; crash_count := v |}.

Global Instance ServerConfig_inhabited : Inhabited ServerConfig :=
  populate {| name := EmptyString; version := EmptyString; memory := 0; port := 25565;
              modpack_url := None; server_file_url := None;
              status := value STOPPED; pid := None; last_started := None;
              restart_count := 0; crash_count := 0 |}.

(** References: a [ServerConfig] object, an asyncio subprocess object, an
    event-loop task. *)
Abbreviation loc := nat.
Abbreviation proc := nat.
Abbreviation tid := nat.

(** The values of [config.yaml] that the manager keeps in attributes. *)
Record Config := {
  port_min : Z;
  port_max : Z;
  max_concurrent : Z;
  default_memory : Z;
}.

(** A child process as the manager sees it through its asyncio handle. *)
Inductive signal := SIGTERM | SIGKILL.

Record Process := {
  proc_pid : Z;
  returncode : option Z;
  stderr_data : string;
  signals : list signal;
}.

(** The files under [servers_dir]: [server_states.json], and for every
    server name its directory, [server.properties] and [eula.txt]. *)
Record FileSystem := {
  state_file : option string;
  server_dirs : gset string;
  props_files : gmap string string;
  eula_files : gset string;
}.

(** How a call ends: it returns a value, or an exception leaves it. *)
Inductive outcome (A : Type) :=
| Returns (a : A)
| Raises (exn : string).
Arguments Returns {A} a.
Arguments Raises {A} exn.

(** The public coroutines return a [(bool, message)] tuple. *)
Abbreviation result := (outcome (bool * string)).

(** [stop_server] is awaited by the operator interface, by
    [restart_server] and by [delete_server]. *)
Inductive caller :=
| ByOperator
| ByRestart
| ByDelete (server : loc).

(** A task of the event loop, suspended at one of the [await]s of the
    coroutine it runs, with the local variables that are live there. *)
Inductive task :=
| CreateLockWait (name version : string) (memory : option Z)
                 (modpack_url : option string)
| CreateDownload (name : string) (port : Z) (server : ServerConfig)
| StartSpawn (name : string) (server : loc)
| StartConfirm (name : string) (server : loc) (process : proc)
| StartCommunicate (name : string) (server : loc) (process : proc)
| StopSleep (name : string) (server : loc) (process : proc) (k : caller)
| RestartSettle (name : string)
| MonitorCreated (name : string)
| MonitorSleep (name : string) (server : loc) (process : proc)
| Done (r : option result).

Record World := {
  config : Config;
  servers : list (string * loc);
  processes : gmap string proc;
  monitoring_tasks : gmap string tid;
  allocated_ports : gmap Z string;
  lock : bool;
  heap : list ServerConfig;
  fs : FileSystem;
  procs : list Process;
  tasks : list task;
}.

Definition set_servers (f : list (string * loc) → list (string * loc)) (w : World) : World :=
  {| config := config w; servers := f (servers w); processes := processes w;
     monitoring_tasks := monitoring_tasks w; allocated_ports := allocated_ports w;
     lock := lock w; heap := heap w; fs := fs w; procs := procs w; tasks := tasks w |}.

Definition set_processes (f : gmap string proc → gmap string proc) (w : World) : World :=
  {| config := config w; servers := servers w; processes := f (processes w);
     monitoring_tasks := monitoring_tasks w; allocated_ports := allocated_ports w;
     lock := lock w; heap := heap w; fs := fs w; procs := procs w; tasks := tasks w |}.

Definition set_monitoring_tasks (f : gmap string tid → gmap string tid) (w : World) : World :=
  {| config := config w; servers := servers w; processes := processes w;
     monitoring_tasks := f (monitoring_tasks w); allocated_ports := allocated_ports w;
     lock := lock w; heap := heap w; fs := fs w; procs := procs w; tasks := tasks w |}.

Definition set_allocated_ports (f : gmap Z string → gmap Z string) (w : World) : World :=
  {| config := config w; servers := servers w; processes := processes w;
     monitoring_tasks := monitoring_tasks w; allocated_ports := f (allocated_ports w);
     lock := lock w; heap := heap w; fs := fs w; procs := procs w; tasks := tasks w |}.

Definition set_lock (b : bool) (w : World) : World :=
  {| config := config w; servers := servers w; processes := processes w;
     monitoring_tasks := monitoring_tasks w; allocated_ports := allocated_ports w;
     lock := b; heap := heap w; fs := fs w; procs := procs w; tasks := tasks w |}.

Definition set_heap (f : list ServerConfig → list ServerConfig) (w : World) : World :=
  {| config := config w; servers := servers w; processes := processes w;
     monitoring_tasks := monitoring_tasks w; allocated_ports := allocated_ports w;
     lock := lock w; heap := f (heap w); fs := fs w; procs := procs w; tasks := tasks w |}.

Definition set_fs (f : FileSystem → FileSystem) (w : World) : World :=
  {| config := config w; servers := servers w; processes := processes w;
     monitoring_tasks := monitoring_tasks w; allocated_ports := allocated_ports w;
     lock := lock w; heap := heap w; fs := f (fs w); procs := procs w; tasks := tasks w |}.

Definition set_procs (f : list Process → list Process) (w : World) : World :=
  {| config := config w; servers := servers w; processes := processes w;
     monitoring_tasks := monitoring_tasks w; allocated_ports := allocated_ports w;
     lock := lock w; heap := heap w; fs := fs w; procs := f (procs w); tasks := tasks w |}.

Definition set_tasks (f : list task → list task) (w : World) : World :=
  {| config := config w; servers := servers w; processes := processes w;
     monitoring_tasks := monitoring_tasks w; allocated_ports := allocated_ports w;
     lock := lock w; heap := heap w; fs := fs w; procs := procs w; tasks := f (tasks w) |}.

Definition set_state_file (v : option string) (f : FileSystem) : FileSystem :=
  {| state_file := v; server_dirs := server_dirs f;
     props_files := props_files f; eula_files := eula_files f |}.

Definition set_server_dirs (g : gset string → gset string) (f : FileSystem) : FileSystem :=
  {| state_file := state_file f; server_dirs := g (server_dirs f);
     props_files := props_files f; eula_files := eula_files f |}.

Definition set_props_files (g : gmap string string → gmap string string) (f : FileSystem) : FileSystem :=
  {| state_file := state_file f; server_dirs := server_dirs f;
     props_files := g (props_files f); eula_files := eula_files f |}.

Definition set_eula_files (g : gset string → gset string) (f : FileSystem) : FileSystem :=
  {| state_file := state_file f; server_dirs := server_dirs f;
     props_files := props_files f; eula_files := g (eula_files f) |}.

(** ** The state monad of the manager's methods *)

Definition M (A : Type) : Type := World → A * World.

Definition ret {A} (a : A) : M A := λ w, (a, w).
Definition bind {A B} (c : M A) (k : A → M B) : M B :=
  λ w, let '(a, w') := c w in k a w'.

Declare Scope mgr_scope.
Delimit Scope mgr_scope with M.
Bind Scope mgr_scope with M.
Notation "x ← y ; z" := (bind y (λ x : _, z))
  (at level 20, y at level 100, z at level 200, only parsing) : mgr_scope.
Notation "x ;; z" := (bind x (λ _, z))
  (at level 100, z at level 200, only parsing, right associativity) : mgr_scope.
Open Scope mgr_scope.

Definition gets {A} (f : World → A) : M A := λ w, (f w, w).
Definition modify (f : World → World) : M unit := λ w, (tt, f w).

(** Attribute access through a reference, and assignment to attributes. *)
Definition deref (l : loc) : M ServerConfig := gets (λ w, heap w !!! l).
Definition assign (l : loc) (f : ServerConfig → ServerConfig) : M unit :=
  modify (set_heap (λ h, <[l := f (h !!! l)]> h)).

(** ** Port allocator *)

(** [for port in range(port, port + n): if port not in
    self.allocated_ports: return port], then [return None]. *)
Fixpoint allocate_port_from (n : nat) (port : Z) : M (option Z) :=
  match n with
  | O => ret None
  | S n' =>
      ports ← gets allocated_ports;
      match ports !! port with
      | None => ret (Some port)
      | Some _ => allocate_port_from n' (port + 1)
      end
  end.

Definition allocate_port : M (option Z) :=
  lo ← gets (port_min ∘ config);
  hi ← gets (port_max ∘ config);
  allocate_port_from (Z.to_nat (hi + 1 - lo)) lo.

Definition release_port (port : Z) : M unit :=
  ports ← gets allocated_ports;
  match ports !! port with
  | Some _ => modify (set_allocated_ports (delete port))
  | None => ret tt
  end.

(** ** Text of the per-server configuration file *)

Definition LF : ascii := "010"%char.
Definition CR : ascii := "013"%char.

(** [str.isspace] on a code point below 256. *)
Definition is_space (c : ascii) : bool :=
  let n := N_of_ascii c in
  ((9 <=? n) && (n <=? 13) || (28 <=? n) && (n <=? 32)
   || (n =? 133) || (n =? 160))%N.

(** Reading in text mode translates ["\r\n"] and ["\r"] to ["\n"]. *)
Fixpoint universal_newlines (s : string) : string :=
  match s with
  | EmptyString => EmptyString
  | String c s' =>
      if decide (c = CR) then
        match s' with
        | String c' _ =>
            if decide (c' = LF) then universal_newlines s'
            else String LF (universal_newlines s')
        | EmptyString => String LF EmptyString
        end
      else String c (universal_newlines s')
  end.

(** [for line in f]: the lines of the text, each with its terminator. *)
Fixpoint readlines (s : string) : list string :=
  match s with
  | EmptyString => []
  | String c s' =>
      if decide (c = LF) then String c EmptyString :: readlines s'
      else match readlines s' with
           | [] => [String c EmptyString]
           | l :: ls => String c l :: ls
           end
  end.

Fixpoint lstrip (s : string) : string :=
  match s with
  | EmptyString => EmptyString
  | String c s' => if is_space c then lstrip s' else s
  end.

Fixpoint rstrip (s : string) : string :=
  match s with
  | EmptyString => EmptyString
  | String c s' =>
      match rstrip s' with
      | EmptyString => if is_space c then EmptyString else String c EmptyString
      | r => String c r
      end
  end.

(** [line.strip()] *)
Definition strip (s : string) : string := rstrip (lstrip s).

(** [c in s] *)
Fixpoint contains (c : ascii) (s : string) : bool :=
  match s with
  | EmptyString => false
  | String c' s' => if decide (c = c') then true else contains c s'
  end.

(** [s.startswith(c)] for a one-character prefix. *)
Definition startswith (c : ascii) (s : string) : bool :=
  match s with
  | String c' _ => bool_decide (c = c')
  | EmptyString => false
  end.

(** [s.split(c, 1)]: the text before and after the first [c]; without a
    [c] the whole of [s] and nothing after it. *)
Fixpoint split_once (c : ascii) (s : string) : string * string :=
  match s with
  | EmptyString => (EmptyString, EmptyString)
  | String c' s' =>
      if decide (c = c') then (EmptyString, s')
      else let '(k, v) := split_once c s' in (String c' k, v)
  end.

(** The first loop of [update_server_properties]. *)
Definition read_line (properties : list (string * string)) (line : string)
  : list (string * string) :=
  let line := strip line in
  if contains "=" line && negb (startswith "#" line) then
    let '(key, val) := split_once "=" line in
    PyDict.set key val properties
  else properties.

Definition read_properties (text : string) : list (string * string) :=
  foldl read_line [] (readlines (universal_newlines text)).

(** The second loop: [f.write(f"{key}={val}\n")] for every item. *)
Definition property_line (kv : string * string) : string :=
  kv.1 +:+ "=" +:+ kv.2 +:+ String LF EmptyString.

Definition write_properties (properties : list (string * string)) : string :=
  foldr (λ kv text, property_line kv +:+ text) EmptyString properties.

Definition update_server_properties (name property_name value : string) : M bool :=
  known ← gets (PyDict.mem name ∘ servers);
  if negb known then ret false else
  file ← gets (λ w, props_files (fs w) !! name);
  match file with
  | None => ret false
  | Some text =>
      let properties := read_properties text in
      let properties := PyDict.set property_name value properties in
      modify (set_fs (set_props_files <[name := write_properties properties]>));;
      ret true
  end.

(** ** State store *)

(** The values [json.dump] is given and [json.load] gives back:
    [None], [int], [float], [str], [dict] with [str] keys, [bool] and
    [list]. *)
Inductive json :=
| JNull
| JInt (n : Z)
| JFloat (x : pyfloat)
| JStr (s : string)
| JObj (items : list (string * json))
| JBool (b : bool)
| JArr (elements : list json).

(** The standard [json] module: [json_dump v] is the sequence of chunks
    that [json.dump(v, f, indent=2)] passes to [f.write], and [json_load]
    is [json.load] on the text of a file, [None] when it raises. *)
Class JsonLib := {
  json_dump : json → list string;
  json_load : string → option json;
}.

(** [dataclasses.asdict] *)
Definition opt_json {A} (f : A → json) (o : option A) : json :=
  match o with Some a => f a | None => JNull end.

Definition asdict (server : ServerConfig) : json :=
  JObj [("name", JStr (name server));
        ("version", JStr (version server));
        ("memory", JInt (memory server));
        ("port", JInt (port server));
        ("modpack_url", opt_json JStr (modpack_url server));
        ("server_file_url", opt_json JStr (server_file_url server));
        ("status", JStr (status server));
        ("pid", opt_json JInt (pid server));
        ("last_started", opt_json JFloat (last_started server));
        ("restart_count", JInt (restart_count server));
        ("crash_count", JInt (crash_count server))].

(** [ServerConfig] called with the items of [data] as keyword
    arguments. A keyword that is not a field, or a missing
    [name], [version] or [memory], raises [TypeError]; the other fields
    have defaults. The fields of a descriptor hold values of the types
    that the dataclass annotates. The dataclass itself checks no type:
    a record with a value of another type, which [ServerConfig] would
    take as it is, has no descriptor in this model and is rejected like
    a wrong keyword. *)
Definition field_names : list string :=
  ["name"; "version"; "memory"; "port"; "modpack_url"; "server_file_url";
   "status"; "pid"; "last_started"; "restart_count"; "crash_count"].

Definition as_str (j : json) : option string :=
  match j with JStr s => Some s | _ => None end.
Definition as_int (j : json) : option Z :=
  match j with JInt n => Some n | _ => None end.
Definition as_float (j : json) : option pyfloat :=
  match j with JFloat x => Some x | _ => None end.
Definition as_optional {A} (f : json → option A) (j : json) : option (option A) :=
  match j with JNull => Some None | _ => Some <$> f j end.

Definition kwarg {A} (conv : json → option A) (key : string)
    (dflt : option A) (data : list (string * json)) : option A :=
  match PyDict.get key data with
  | Some j => conv j
  | None => dflt
  end.

Definition ServerConfig_init (data : list (string * json)) : option ServerConfig :=
  if forallb (λ k, bool_decide (k ∈ field_names)) (PyDict.keys data) then
   (name ← kwarg as_str "name" None data;
    version ← kwarg as_str "version" None data;
    memory ← kwarg as_int "memory" None data;
    port ← kwarg as_int "port" (Some 25565) data;
    modpack_url ← kwarg (as_optional as_str) "modpack_url" (Some None) data;
    server_file_url ← kwarg (as_optional as_str) "server_file_url" (Some None) data;
    status ← kwarg as_str "status" (Some (value STOPPED)) data;
    pid ← kwarg (as_optional as_int) "pid" (Some None) data;
    last_started ← kwarg (as_optional as_float) "last_started" (Some None) data;
    restart_count ← kwarg as_int "restart_count" (Some 0) data;
    crash_count ← kwarg as_int "crash_count" (Some 0) data;
    Some {| name := name; version := version; memory := memory; port := port;
            modpack_url := modpack_url; server_file_url := server_file_url;
            status := status; pid := pid; last_started := last_started;
            restart_count := restart_count; crash_count := crash_count |})%stdpp
  else None.

(** The operations [open(state_file, 'w')], [f.write(chunk)] and the
    close at the end of the [with] block, on the content of one file
    ([None] when the file does not exist). *)
Inductive file_op :=
| FOpen
| FWrite (chunk : string)
| FClose.

Definition file_step (f : option string) (op : file_op) : option string :=
  match op with
  | FOpen => Some EmptyString
  | FWrite chunk => Some (default EmptyString f +:+ chunk)
  | FClose => f
  end.

Definition run_file_ops (ops : list file_op) (f : option string) : option string :=
  foldl file_step f ops.

(** What the file holds before the first operation and after each one:
    the contents that another reader, or a crash, can find. *)
Fixpoint observable (ops : list file_op) (f : option string) : list (option string) :=
  match ops with
  | [] => [f]
  | op :: ops' => f :: observable ops' (file_step f op)
  end.

(** A new object on the heap. *)
Definition alloc (server : ServerConfig) : M loc :=
  l ← gets (λ w, length (heap w));
  modify (set_heap (λ h, h ++ [server]));;
  ret l.

Section state_store.
Context `{JsonLib}.

(** [{name: asdict(server) for name, server in self.servers.items()}] *)
Definition states_of (w : World) : json :=
  JObj ((λ '(name, l), (name, asdict (heap w !!! l))) <$> servers w).

Definition save_ops (states : json) : list file_op :=
  FOpen :: (FWrite <$> json_dump states) ++ [FClose].

Definition save_server_states : M unit :=
  states ← gets states_of;
  modify (set_fs (λ f, set_state_file (run_file_ops (save_ops states) (state_file f)) f)).

(** The loop of [load_server_states] over [states.items()]. *)
Fixpoint load_items (items : list (string * json)) : M (outcome unit) :=
  match items with
  | [] => ret (Returns tt)
  | (name, data) :: rest =>
      match data with
      | JObj kwargs =>
          match ServerConfig_init kwargs with
          | Some server =>
              l ← alloc server;
              modify (set_servers (PyDict.set name l));;
              (if decide (status server = value RUNNING)
               then modify (set_allocated_ports <[port server := name]>)
               else ret tt);;
              load_items rest
          | None => ret (Raises "TypeError")
          end
      | _ => ret (Raises "TypeError")
      end
  end.

Definition load_server_states : M (outcome unit) :=
  file ← gets (state_file ∘ fs);
  match file with
  | None => ret (Returns tt)
  | Some text =>
      match json_load text with
      | Some (JObj items) => load_items items
      | Some _ => ret (Raises "AttributeError")
      | None => ret (Raises "JSONDecodeError")
      end
  end.

(** [MinecraftServerManager.__init__]: empty dictionaries, a free lock,
    then [load_server_states]. *)
Definition new_manager (c : Config) (f : FileSystem) : World :=
  {| config := c; servers := []; processes := ∅; monitoring_tasks := ∅;
     allocated_ports := ∅; lock := false; heap := []; fs := f;
     procs := []; tasks := [] |}.

Definition MinecraftServerManager_init (c : Config) (f : FileSystem)
  : outcome unit * World :=
  load_server_states (new_manager c f).

End state_store.

(** ** Lifecycle operations *)

(** What the world outside the manager decides during one piece of a
    coroutine: the clock, the spawning of a child, the outcome of the
    download that [create_server] awaits, and whether
    [process.terminate()] finds the child gone. *)
Record Env := {
  clock : pyfloat;
  spawn : option Z;
  curseforge : bool * string;
  vanilla : option string;
  unpacked : option string;
  terminate_raises : bool;
}.

Global Instance Process_inhabited : Inhabited Process :=
  populate {| proc_pid := 0; returncode := None;
              stderr_data := EmptyString; signals := [] |}.

(** Truth value of an [Optional[str]]: [None] and the empty string are false. *)
Definition truthy (o : option string) : bool :=
  match o with
  | Some s => negb (bool_decide (s = EmptyString))
  | None => false
  end.

(** [memory or self.default_memory] *)
Definition memory_or (memory : option Z) (default_memory : Z) : Z :=
  match memory with
  | Some m => if decide (m = 0) then default_memory else m
  | None => default_memory
  end.

Definition get_running_count : M Z :=
  gets (λ w, Z.of_nat (length
    (filter (λ kl, status (heap w !!! kl.2) = value RUNNING) (servers w)))).

Definition finish (r : result) : M task := ret (Done (Some r)).

Definition create_task (tk : task) : M tid :=
  t ← gets (λ w, length (tasks w));
  modify (set_tasks (λ ts, ts ++ [tk]));;
  ret t.

(** [task.cancel()] on a monitor that sleeps or has not run yet: the
    [CancelledError] ends it at its suspension point. *)
Definition cancel (t : tid) : M unit :=
  modify (set_tasks (λ ts,
    match ts !! t with
    | Some (MonitorCreated _) | Some (MonitorSleep _ _ _) => <[t := Done None]> ts
    | _ => ts
    end)).

Definition send_signal (process : proc) (sig : signal) : M unit :=
  modify (set_procs (λ ps,
    let p := ps !!! process in
    <[process := {| proc_pid := proc_pid p; returncode := returncode p;
                    stderr_data := stderr_data p;
                    signals := signals p ++ [sig] |}]> ps)).

(** [shutil.rmtree(server_dir)] when the directory exists. *)
Definition rmtree (name : string) (f : FileSystem) : FileSystem :=
  {| state_file := state_file f;
     server_dirs := server_dirs f ∖ {[name]};
     props_files := delete name (props_files f);
     eula_files := eula_files f ∖ {[name]} |}.

Section lifecycle.
Context `{JsonLib}.

(** *** [create_server] *)

(** From the precondition checks to the [await] of the download; the
    lock is held. *)
Definition create_server_locked (name version : string) (memory : option Z)
    (modpack_url : option string) : M task :=
  known ← gets (PyDict.mem name ∘ servers);
  if known then
    modify (set_lock false);;
    finish (Returns (false, "Server '" +:+ name +:+ "' already exists"))
  else
  running ← get_running_count;
  limit ← gets (max_concurrent ∘ config);
  if bool_decide (limit ≤ running) then
    modify (set_lock false);;
    finish (Returns (false, "Maximum concurrent servers (" +:+ pretty limit +:+ ") reached"))
  else
  port ← allocate_port;
  match port with
  | None =>
      modify (set_lock false);;
      finish (Returns (false, "No available ports in configured range"))
  | Some port =>
      default_memory ← gets (default_memory ∘ config);
      let mem := memory_or memory default_memory in
      let server :=
        {| name := name; version := version; memory := mem; port := port;
           modpack_url := modpack_url; server_file_url := None;
           status := value STOPPED; pid := None; last_started := None;
           restart_count := 0; crash_count := 0 |} in
      modify (set_fs (set_server_dirs (λ d, {[name]} ∪ d)));;
      ret (CreateDownload name port server)
  end.

(** [async with self.lock]: a held lock suspends the caller. *)
Definition create_server (name version : string) (memory : option Z)
    (modpack_url : option string) : M task :=
  locked ← gets lock;
  if locked then ret (CreateLockWait name version memory modpack_url)
  else modify (set_lock true);;
       create_server_locked name version memory modpack_url.

(** After a successful download. *)
Definition create_server_commit (name : string) (port : Z)
    (server : ServerConfig) : M task :=
  props_exists ← gets (λ w, bool_decide (is_Some (props_files (fs w) !! name)));
  (if props_exists
   then update_server_properties name "server-port" (pretty port);; ret tt
   else ret tt);;
  l ← alloc server;
  modify (set_servers (PyDict.set name l));;
  modify (set_allocated_ports <[port := name]>);;
  save_server_states;;
  modify (set_lock false);;
  finish (Returns (true, "Server '" +:+ name +:+ "' created successfully on port "
                         +:+ pretty port)).

(** The download has ended: [download_curseforge_server] returned its
    [(success, message)], or [download_vanilla_server] returned or raised.
    What the download left in the directory is applied first. *)
Definition create_server_downloaded (e : Env) (name : string) (port : Z)
    (server : ServerConfig) : M task :=
  match unpacked e with
  | Some text => modify (set_fs (set_props_files <[name := text]>))
  | None => ret tt
  end;;
  if truthy (modpack_url server) then
    let '(success, message) := curseforge e in
    if negb success then
      release_port port;;
      modify (set_lock false);;
      finish (Returns (false,
        message +:+ String LF (String LF
          ("Please run the command again with the direct server pack URL: /create "
           +:+ name +:+ " <server_file_url>"))))
    else create_server_commit name port server
  else
    match vanilla e with
    | Some exn =>
        release_port port;;
        modify (set_lock false);;
        finish (Returns (false, "Failed to create server: " +:+ exn))
    | None => create_server_commit name port server
    end.

(** *** [start_server] *)

Definition start_server (name : string) : M task :=
  srv ← gets servers;
  match PyDict.get name srv with
  | None => finish (Returns (false, "Server '" +:+ name +:+ "' does not exist"))
  | Some server =>
      s ← deref server;
      if decide (status s = value RUNNING) then
        finish (Returns (false, "Server '" +:+ name +:+ "' is already running"))
      else
        dirs ← gets (server_dirs ∘ fs);
        if decide (name ∈ dirs) then
          modify (set_fs (set_eula_files (λ d, {[name]} ∪ d)));;
          ret (StartSpawn name server)
        else finish (Raises "FileNotFoundError")
  end.

(** [create_subprocess_shell] has returned the process (or raised). *)
Definition start_server_spawned (e : Env) (name : string) (server : loc) : M task :=
  match spawn e with
  | None => finish (Raises "OSError")
  | Some child =>
      process ← gets (λ w, length (procs w));
      modify (set_procs (λ ps, ps ++
        [{| proc_pid := child; returncode := None;
            stderr_data := EmptyString; signals := [] |}]));;
      modify (set_processes <[name := process]>);;
      assign server (with_pid (Some child));;
      assign server (with_status (value STARTING));;
      assign server (with_last_started (Some (clock e)));;
      save_server_states;;
      t ← create_task (MonitorCreated name);
      modify (set_monitoring_tasks <[name := t]>);;
      ret (StartConfirm name server process)
  end.

(** After [await asyncio.sleep(5)]. *)
Definition start_server_confirm (name : string) (server : loc) (process : proc)
  : M task :=
  p ← gets (λ w, procs w !!! process);
  match returncode p with
  | Some _ => ret (StartCommunicate name server process)
  | None =>
      assign server (with_status (value RUNNING));;
      save_server_states;;
      finish (Returns (true, "Server '" +:+ name +:+ "' started"))
  end.

(** After [await process.communicate()]. *)
Definition start_server_crashed (name : string) (server : loc) (process : proc)
  : M task :=
  p ← gets (λ w, procs w !!! process);
  assign server (with_status (value CRASHED));;
  assign server (λ s, with_crash_count (crash_count s + 1) s);;
  save_server_states;;
  finish (Returns (false, "Server failed to start: " +:+ stderr_data p)).

(** *** [monitor_server] *)

(** One turn of the [while True] loop. [notify_crash] only builds a
    string, which [monitor_server] drops. *)
Definition monitor_poll (name : string) (server : loc) (process : proc) : M task :=
  p ← gets (λ w, procs w !!! process);
  match returncode p with
  | Some _ =>
      assign server (with_status (value CRASHED));;
      assign server (λ s, with_crash_count (crash_count s + 1) s);;
      save_server_states;;
      ret (Done None)
  | None => ret (MonitorSleep name server process)
  end.

Definition monitor_server (name : string) : M task :=
  ps ← gets processes;
  match ps !! name with
  | None => ret (Done None)
  | Some process =>
      srv ← gets servers;
      match PyDict.get name srv with
      | None => ret (Done None)
      | Some server => monitor_poll name server process
      end
  end.

(** *** [delete_server], after the optional stop *)

Definition delete_server_rest (name : string) (server : loc) : M task :=
  modify (set_processes (delete name));;
  mt ← gets monitoring_tasks;
  match mt !! name with
  | Some t => cancel t;; modify (set_monitoring_tasks (delete name))
  | None => ret tt
  end;;
  modify (set_fs (rmtree name));;
  s ← deref server;
  release_port (port s);;
  known ← gets (PyDict.mem name ∘ servers);
  if negb known then finish (Raises "KeyError") else
  modify (set_servers (PyDict.del name));;
  save_server_states;;
  finish (Returns (true, "Server '" +:+ name +:+ "' deleted")).

(** *** [stop_server] *)

(** What the awaiting coroutine does with the result of [stop_server]. *)
Definition stop_returns (k : caller) (name : string) (r : result) : M task :=
  match k with
  | ByOperator => finish r
  | ByRestart =>
      match r with
      | Returns (true, _) => ret (RestartSettle name)
      | Returns (false, msg) => finish (Returns (false, msg))
      | Raises exn => finish (Raises exn)
      end
  | ByDelete server =>
      match r with
      | Returns _ => delete_server_rest name server
      | Raises exn => finish (Raises exn)
      end
  end.

Definition stop_server_finish (name : string) (server : loc) (k : caller) : M task :=
  assign server (with_status (value STOPPED));;
  assign server (with_pid None);;
  save_server_states;;
  stop_returns k name (Returns (true, "Server '" +:+ name +:+ "' stopped")).

Definition stop_server (e : Env) (name : string) (k : caller) : M task :=
  srv ← gets servers;
  match PyDict.get name srv with
  | None =>
      stop_returns k name (Returns (false, "Server '" +:+ name +:+ "' does not exist"))
  | Some server =>
      s ← deref server;
      if decide (status s ≠ value RUNNING) then
        stop_returns k name (Returns (false, "Server '" +:+ name +:+ "' is not running"))
      else
        ps ← gets processes;
        match ps !! name with
        | Some process =>
            if terminate_raises e then
              stop_returns k name (Raises "ProcessLookupError")
            else
              send_signal process SIGTERM;;
              ret (StopSleep name server process k)
        | None => stop_server_finish name server k
        end
  end.

(** After [await asyncio.sleep(1)]: [process.kill()] when the child has
    not exited ([process.wait()] is not awaited), then the bookkeeping. *)
Definition stop_server_slept (name : string) (server : loc) (process : proc)
    (k : caller) : M task :=
  p ← gets (λ w, procs w !!! process);
  match returncode p with
  | None => send_signal process SIGKILL
  | Some _ => ret tt
  end;;
  stop_server_finish name server k.

(** *** [restart_server] and [delete_server] *)

Definition restart_server (e : Env) (name : string) : M task :=
  stop_server e name ByRestart.

Definition delete_server (e : Env) (name : string) : M task :=
  srv ← gets servers;
  match PyDict.get name srv with
  | None => finish (Returns (false, "Server '" +:+ name +:+ "' does not exist"))
  | Some server =>
      s ← deref server;
      if decide (status s = value RUNNING) then stop_server e name (ByDelete server)
      else delete_server_rest name server
  end.

(** ** The event loop *)

Inductive operation :=
| CreateServer (name version : string) (memory : option Z)
               (modpack_url : option string)
| StartServer (name : string)
| StopServer (name : string)
| RestartServer (name : string)
| DeleteServer (name : string).

(** The operator interface calls a coroutine of the manager, the loop
    resumes a suspended task, a child process exits, or the operator
    interface calls the synchronous [update_server_properties]. *)
Inductive event :=
| Invoke (op : operation)
| Wake (t : tid)
| ProcessExit (process : proc) (code : Z) (stderr : string)
| SetProperty (name property_name value : string).

(** A coroutine runs from its call to its first suspension. *)
Definition first_piece (e : Env) (op : operation) : M task :=
  match op with
  | CreateServer name version memory modpack_url =>
      create_server name version memory modpack_url
  | StartServer name => start_server name
  | StopServer name => stop_server e name ByOperator
  | RestartServer name => restart_server e name
  | DeleteServer name => delete_server e name
  end.

(** A suspended task runs to its next suspension. *)
Definition next_piece (e : Env) (tk : task) : option (M task) :=
  match tk with
  | CreateLockWait name version memory modpack_url =>
      Some (create_server name version memory modpack_url)
  | CreateDownload name port server =>
      Some (create_server_downloaded e name port server)
  | StartSpawn name server => Some (start_server_spawned e name server)
  | StartConfirm name server process =>
      Some (start_server_confirm name server process)
  | StartCommunicate name server process =>
      Some (start_server_crashed name server process)
  | StopSleep name server process k =>
      Some (stop_server_slept name server process k)
  | RestartSettle name => Some (start_server name)
  | MonitorCreated name => Some (monitor_server name)
  | MonitorSleep name server process => Some (monitor_poll name server process)
  | Done _ => None
  end.

Definition run_piece (t : tid) (c : M task) : M unit :=
  tk ← c;
  modify (set_tasks (λ ts, <[t := tk]> ts)).

Definition exit_process (code : Z) (stderr : string) (p : Process) : Process :=
  {| proc_pid := proc_pid p; returncode := Some code;
     stderr_data := stderr; signals := signals p |}.

Definition step (e : Env) (ev : event) (w : World) : option World :=
  match ev with
  | Invoke op =>
      let t := length (tasks w) in
      Some (run_piece t (first_piece e op) (set_tasks (λ ts, ts ++ [Done None]) w)).2
  | Wake t =>
      match tasks w !! t with
      | Some tk =>
          match next_piece e tk with
          | Some c => Some (run_piece t c w).2
          | None => None
          end
      | None => None
      end
  | ProcessExit process code stderr =>
      match procs w !! process with
      | Some p =>
          match returncode p with
          | Some _ => None
          | None =>
              Some (set_procs (λ ps, <[process := exit_process code stderr p]> ps) w)
          end
      | None => None
      end
  | SetProperty name property_name value =>
      Some (update_server_properties name property_name value w).2
  end.

(** A schedule: the events in the order the loop handles them. *)
Fixpoint run (sched : list (Env * event)) (w : World) : option World :=
  match sched with
  | [] => Some w
  | (e, ev) :: sched' =>
      match step e ev w with
      | Some w' => run sched' w'
      | None => None
      end
  end.

End lifecycle.

(** ** The [json] module on the values of the state file

    A transcription of what [json.dump(states, f, indent=2)] writes for
    dictionaries with string keys whose leaves are strings, integers,
    floats and [None], chunk by chunk as [_make_iterencode] yields them,
    and of what [json.load] reads. Strings are over the code points
    below 256. *)

Module PyJson.

Definition hex_digit (n : N) : ascii :=
  ascii_of_N (if (n <? 10)%N then 48 + n else 87 + n).

(** [py_encode_basestring_ascii] without the surrounding quotes. *)
Definition escape_char (c : ascii) : string :=
  let n := N_of_ascii c in
  if decide (n = 34%N) then String "\" (String "034" EmptyString)
  else if decide (n = 92%N) then "\\"
  else if decide (n = 10%N) then "\n"
  else if decide (n = 13%N) then "\r"
  else if decide (n = 9%N) then "\t"
  else if decide (n = 8%N) then "\b"
  else if decide (n = 12%N) then "\f"
  else if ((32 <=? n) && (n <=? 126))%N then String c EmptyString
  else "\u00" +:+ String (hex_digit (n / 16)) (String (hex_digit (n mod 16)) EmptyString).

Fixpoint escape (s : string) : string :=
  match s with
  | EmptyString => EmptyString
  | String c s' => escape_char c +:+ escape s'
  end.

Definition encode_str (s : string) : string :=
  String "034" (escape s +:+ String "034" EmptyString).

Fixpoint spaces (n : nat) : string :=
  match n with
  | O => EmptyString
  | S n' => String " " (spaces n')
  end.

(** ['\n' + _indent * level] with [indent=2]. *)
Definition newline_indent (level : nat) : string :=
  String LF (spaces (2 * level)).

(** [floatstr]: [float.__repr__], and the names that [json] gives to
    the floats that are not finite. *)
Definition floatstr (x : pyfloat) : string :=
  if decide (float_repr x = "nan") then "NaN"
  else if decide (float_repr x = "inf") then "Infinity"
  else if decide (float_repr x = "-inf") then "-Infinity"
  else float_repr x.

(** In [_iterencode_list] a value that is not a container is yielded
    in one chunk with what stands before it, the opening bracket or the
    separator; a container is yielded after this in chunks of its own. *)
Definition with_buf (buf : string) (v : json) (chunks : list string)
  : list string :=
  match v, chunks with
  | (JObj _ | JArr _), _ => buf :: chunks
  | _, [chunk] => [buf +:+ chunk]
  | _, _ => buf :: chunks
  end.

(** [_iterencode], [_iterencode_dict] and [_iterencode_list]: the chunks
    in the order they are yielded. *)
Fixpoint iterencode (level : nat) (v : json) : list string :=
  match v with
  | JNull => ["null"]
  | JBool true => ["true"]
  | JBool false => ["false"]
  | JInt n => [pretty n]
  | JFloat x => [floatstr x]
  | JStr s => [encode_str s]
  | JArr [] => ["[]"]
  | JArr (v :: elements) =>
      with_buf ("[" +:+ newline_indent (S level)) v (iterencode (S level) v)
      ++ (fix rest (elements : list json) : list string :=
            match elements with
            | [] => []
            | v :: elements' =>
                with_buf ("," +:+ newline_indent (S level)) v
                  (iterencode (S level) v)
                ++ rest elements'
            end) elements
      ++ [newline_indent level; "]"]
  | JObj [] => ["{}"]
  | JObj ((k, v) :: items) =>
      ["{"; newline_indent (S level)]
      ++ [encode_str k; ": "] ++ iterencode (S level) v
      ++ (fix rest (items : list (string * json)) : list string :=
            match items with
            | [] => []
            | (k, v) :: items' =>
                ["," +:+ newline_indent (S level); encode_str k; ": "]
                ++ iterencode (S level) v ++ rest items'
            end) items
      ++ [newline_indent level; "}"]
  end.

(** The chunks of the items of a dictionary after the first one. *)
Fixpoint iterencode_items (level : nat) (items : list (string * json))
  : list string :=
  match items with
  | [] => []
  | (k, v) :: items' =>
      ["," +:+ newline_indent level; encode_str k; ": "]
      ++ iterencode level v ++ iterencode_items level items'
  end.

(** *** Reading

    [json.load] as the scanner of the [json] module runs it
    ([scanner.py], [decoder.py]). A float is kept as the literal that
    was read, which for a literal in [repr] form is the [repr] of the
    float that Python builds. An escape of a code point above 255 has
    no character in [string]: a text that holds one is not read. *)

(** [WHITESPACE.match]: blanks, tabs and line ends. *)
Fixpoint skip_ws (s : string) : string :=
  match s with
  | String c s' =>
      if bool_decide (c = " "%char ∨ c = LF ∨ c = CR ∨ c = "009"%char)
      then skip_ws s' else s
  | EmptyString => EmptyString
  end.

Definition hex_value (c : ascii) : option N :=
  let n := N_of_ascii c in
  if ((48 <=? n) && (n <=? 57))%N then Some (n - 48)%N
  else if ((97 <=? n) && (n <=? 102))%N then Some (n - 87)%N
  else if ((65 <=? n) && (n <=? 70))%N then Some (n - 55)%N
  else None.

(** [scanstring] in strict mode: the characters of a string literal
    after its opening quote, and the text after its closing quote. A
    control character that is not escaped is an error. *)
Fixpoint scan_string (s : string) : option (string * string) :=
  match s with
  | EmptyString => None
  | String c s' =>
      if decide (c = "034"%char) then Some (EmptyString, s')
      else if decide (c = "\"%char) then
        match s' with
        | String "u" (String a (String b (String x (String y s'')))) =>
            match hex_value a, hex_value b, hex_value x, hex_value y with
            | Some 0%N, Some 0%N, Some h, Some l =>
                match scan_string s'' with
                | Some (r, t) => Some (String (ascii_of_N (16 * h + l)) r, t)
                | None => None
                end
            | _, _, _, _ => None
            end
        | String e s'' =>
            let unescaped :=
              if decide (e = "n"%char) then Some LF
              else if decide (e = "r"%char) then Some CR
              else if decide (e = "t"%char) then Some "009"%char
              else if decide (e = "b"%char) then Some "008"%char
              else if decide (e = "f"%char) then Some "012"%char
              else if decide (e = "034"%char) then Some "034"%char
              else if decide (e = "\"%char) then Some "\"%char
              else if decide (e = "/"%char) then Some "/"%char
              else None in
            match unescaped, scan_string s'' with
            | Some u, Some (r, t) => Some (String u r, t)
            | _, _ => None
            end
        | EmptyString => None
        end
      else if (N_of_ascii c <? 32)%N then None
      else
        match scan_string s' with
        | Some (r, t) => Some (String c r, t)
        | None => None
        end
  end.

Definition is_digit (c : ascii) : bool :=
  let n := N_of_ascii c in ((48 <=? n) && (n <=? 57))%N.

(** The longest prefix of digits and the text after it. *)
Fixpoint scan_digits (s : string) : string * string :=
  match s with
  | String c s' =>
      if is_digit c then let '(ds, t) := scan_digits s' in (String c ds, t)
      else (EmptyString, s)
  | EmptyString => (EmptyString, EmptyString)
  end.

(** [int] on a string of digits. *)
Fixpoint digits_value (acc : Z) (s : string) : option Z :=
  match s with
  | EmptyString => Some acc
  | String c s' =>
      if is_digit c
      then digits_value (10 * acc + (Z.of_N (N_of_ascii c) - 48)) s'
      else None
  end.

(** The groups of [NUMBER_RE]: the integer part, a zero or a digit from
    1 to 9 followed by digits (the sign is read in [match_number]); the
    fraction, a dot and at least one digit; the exponent, [e] or [E], a
    sign or none, and at least one digit. Each one gives what it matches
    and the text after it; a fraction or an exponent that does not
    match is empty. *)
Definition match_integer (s : string) : option (string * string) :=
  match s with
  | String c t =>
      if decide (c = "0"%char) then Some (String c EmptyString, t)
      else if is_digit c
      then let '(ds, t') := scan_digits t in Some (String c ds, t')
      else None
  | EmptyString => None
  end.

Definition match_fraction (s : string) : string * string :=
  match s with
  | String c t =>
      if decide (c = "."%char) then
        match scan_digits t with
        | (EmptyString, _) => (EmptyString, s)
        | (ds, t') => (String c ds, t')
        end
      else (EmptyString, s)
  | EmptyString => (EmptyString, s)
  end.

Definition match_exponent (s : string) : string * string :=
  match s with
  | String c t =>
      if bool_decide (c = "e"%char ∨ c = "E"%char) then
        let '(sign, t1) :=
          match t with
          | String c' t1 =>
              if bool_decide (c' = "+"%char ∨ c' = "-"%char)
              then (String c' EmptyString, t1) else (EmptyString, t)
          | EmptyString => (EmptyString, t)
          end in
        match scan_digits t1 with
        | (EmptyString, _) => (EmptyString, s)
        | (ds, t2) => (String c (sign +:+ ds), t2)
        end
      else (EmptyString, s)
  | EmptyString => (EmptyString, s)
  end.

(** A match without fraction and exponent is an [int], any other match
    a [float]. *)
Definition match_number (s : string) : option (json * string) :=
  let '(negative, t) :=
    match s with
    | String c t => if decide (c = "-"%char) then (true, t) else (false, s)
    | EmptyString => (false, s)
    end in
  match match_integer t with
  | None => None
  | Some (integer, t1) =>
      let '(frac, t2) := match_fraction t1 in
      let '(exp, t3) := match_exponent t2 in
      match frac, exp with
      | EmptyString, EmptyString =>
          match digits_value 0 integer with
          | Some n => Some (JInt (if negative then - n else n), t3)
          | None => None
          end
      | _, _ =>
          Some (JFloat (Float ((if negative then "-" else EmptyString)
                               +:+ integer +:+ frac +:+ exp)), t3)
      end
  end.

(** The loop of [JSONObject], entered after the opening quote of a key.
    The pairs go into a dictionary, so that a repeated key keeps its
    last value. *)
Fixpoint parse_pairs (scan_once : string → option (json * string)) (n : nat)
    (pairs : list (string * json)) (s : string) : option (json * string) :=
  match n with
  | O => None
  | S n' =>
      match scan_string s with
      | Some (key, t) =>
          match skip_ws t with
          | String ":" t1 =>
              match scan_once (skip_ws t1) with
              | Some (value, t2) =>
                  let pairs := PyDict.set key value pairs in
                  match skip_ws t2 with
                  | String "}" t3 => Some (JObj pairs, t3)
                  | String "," t3 =>
                      match skip_ws t3 with
                      | String "034" t4 => parse_pairs scan_once n' pairs t4
                      | _ => None
                      end
                  | _ => None
                  end
              | None => None
              end
          | _ => None
          end
      | None => None
      end
  end.

(** The loop of [JSONArray], entered at the first value or after a
    comma and the white space behind it. *)
Fixpoint parse_elements (scan_once : string → option (json * string))
    (n : nat) (elements : list json) (s : string) : option (json * string) :=
  match n with
  | O => None
  | S n' =>
      match scan_once s with
      | Some (value, t) =>
          let elements := elements ++ [value] in
          match skip_ws t with
          | String "]" t1 => Some (JArr elements, t1)
          | String "," t1 => parse_elements scan_once n' elements (skip_ws t1)
          | _ => None
          end
      | None => None
      end
  end.

(** [s[idx:idx + len(prefix)] == prefix], and the text after it. *)
Fixpoint strip_prefix (prefix s : string) : option string :=
  match prefix, s with
  | EmptyString, _ => Some s
  | String a prefix', String b s' =>
      if decide (a = b) then strip_prefix prefix' s' else None
  | String _ _, EmptyString => None
  end.

(** [scan_once]: the value that starts at the front of [s], and the
    text after it. [fuel] bounds the nesting and the number of pairs
    and elements; the length of the text is enough of it. *)
Fixpoint scan_once (fuel : nat) (s : string) : option (json * string) :=
  match fuel with
  | O => None
  | S fuel' =>
      match s with
      | EmptyString => None
      | String c t =>
          if decide (c = "034"%char) then
            match scan_string t with
            | Some (r, t') => Some (JStr r, t')
            | None => None
            end
          else if decide (c = "{"%char) then
            match skip_ws t with
            | String "}" t' => Some (JObj [], t')
            | String "034" t' => parse_pairs (scan_once fuel') fuel' [] t'
            | _ => None
            end
          else if decide (c = "["%char) then
            match skip_ws t with
            | String "]" t' => Some (JArr [], t')
            | t' => parse_elements (scan_once fuel') fuel' [] t'
            end
          else
            match strip_prefix "null" s, strip_prefix "true" s,
                  strip_prefix "false" s with
            | Some t', _, _ => Some (JNull, t')
            | _, Some t', _ => Some (JBool true, t')
            | _, _, Some t' => Some (JBool false, t')
            | _, _, _ =>
                match match_number s with
                | Some r => Some r
                | None =>
                    match strip_prefix "NaN" s, strip_prefix "Infinity" s,
                          strip_prefix "-Infinity" s with
                    | Some t', _, _ => Some (JFloat (Float "nan"), t')
                    | _, Some t', _ => Some (JFloat (Float "inf"), t')
                    | _, _, Some t' => Some (JFloat (Float "-inf"), t')
                    | _, _, _ => None
                    end
                end
            end
      end
  end.

(** [json.loads]: white space, one value, and nothing but white space
    after it. *)
Definition loads (s : string) : option json :=
  match scan_once (String.length s) (skip_ws s) with
  | Some (v, t) =>
      match skip_ws t with
      | EmptyString => Some v
      | _ => None
      end
  | None => None
  end.

Definition python_json : JsonLib :=
  {| json_dump := iterencode 0; json_load := loads |}.

End PyJson.

(** ** Well-formed keys and values of the configuration file

    A key and a value that [update_server_properties] reads back as it
    wrote them: a key without [=] and line breaks that does not start
    with white space or [#], a value without line breaks that does not
    end with white space. *)

Definition property_name_ok (k : string) : bool :=
  negb (contains "=" k) && negb (contains LF k) && negb (contains CR k)
  && negb (startswith "#" k) && bool_decide (lstrip k = k).

Definition property_value_ok (v : string) : bool :=
  negb (contains LF v) && negb (contains CR v) && bool_decide (rstrip v = v).

Definition entry_ok (kv : string * string) : Prop :=
  property_name_ok kv.1 = true ∧ property_value_ok kv.2 = true.

(** ** The lines of a configuration file

    What a [server.properties] is made of, to say what
    [update_server_properties] does to the text of the file: assignments
    [key=value], comments that start with [#], and other lines without
    [=], each one ended by a line feed. *)
Inductive props_line :=
| Assignment (key value : string)
| Comment (text : string)
| Plain (text : string).

Definition line_text (l : props_line) : string :=
  match l with
  | Assignment k v => k +:+ String "=" v
  | Comment t => String "#" t
  | Plain t => t
  end.

Definition file_text (ls : list props_line) : string :=
  foldr (λ l rest, line_text l +:+ String LF rest) EmptyString ls.

(** An assignment with a well-formed key and value; a comment and
    another line within one line, the latter without [=]. *)
Definition line_ok (l : props_line) : Prop :=
  match l with
  | Assignment k v => entry_ok (k, v)
  | Comment t => contains LF t = false ∧ contains CR t = false
  | Plain t =>
      contains LF t = false ∧ contains CR t = false ∧ contains "=" t = false
  end.

(** How a line stands in a file that another program or an operator
    wrote: blanks before and after it, and a line end that may be a
    carriage return and a line feed; the last line may have no end. *)
Inductive line_end := LineFeed | CrLf | NoEnd.

Record laid_line := Laid {
  laid_indent : string;
  laid_content : props_line;
  laid_padding : string;
  laid_end : line_end
}.

(** White space that does not end a line. *)
Fixpoint blanks (s : string) : bool :=
  match s with
  | EmptyString => true
  | String c s' =>
      is_space c && negb (bool_decide (c = LF ∨ c = CR)) && blanks s'
  end.

Definition end_text (e : line_end) : string :=
  match e with
  | LineFeed => String LF EmptyString
  | CrLf => String CR (String LF EmptyString)
  | NoEnd => EmptyString
  end.

Definition laid_text (l : laid_line) : string :=
  laid_indent l +:+ line_text (laid_content l) +:+ laid_padding l
  +:+ end_text (laid_end l).

Definition laid_file_text (ls : list laid_line) : string :=
  foldr (λ l rest, laid_text l +:+ rest) EmptyString ls.

Definition laid_ok (l : laid_line) : Prop :=
  blanks (laid_indent l) = true ∧ blanks (laid_padding l) = true
  ∧ line_ok (laid_content l).

(** Every line but the last has an end. *)
Fixpoint ends_ok (ls : list laid_line) : Prop :=
  match ls with
  | [] => True
  | l :: ls' =>
      match ls' with
      | [] => True
      | _ => laid_end l ≠ NoEnd ∧ ends_ok ls'
      end
  end.

(** The line without its end, and the line with the end that reading in
    text mode gives it. *)
Definition laid_body (l : laid_line) : string :=
  laid_indent l +:+ line_text (laid_content l) +:+ laid_padding l.

Definition translated (l : laid_line) : laid_line :=
  {| laid_indent := laid_indent l; laid_content := laid_content l;
     laid_padding := laid_padding l;
     laid_end := match laid_end l with CrLf => LineFeed | e => e end |}.

(** The assignments of the lines: a key that is assigned again keeps
    its place and takes the later value. *)
Definition record_line (d : list (string * string)) (l : props_line)
  : list (string * string) :=
  match l with
  | Assignment k v => PyDict.set k v d
  | _ => d
  end.

Definition assignments (ls : list props_line) : list (string * string) :=
  foldl record_line [] ls.

(** One assignment line for each item. *)
Definition assignment_lines (d : list (string * string)) : list props_line :=
  (λ kv, Assignment kv.1 kv.2) <$> d.

(** The reading of the specification for [updateProperty]: between the
    assignments [old] of the file before the call and [new] after it,
    [key] has the value, every other key has kept its value, and the
    keys are in the order they were, a new one last. *)
Definition only_key_rewritten (key value : string)
    (old new : list (string * string)) : Prop :=
  PyDict.get key new = Some value
  ∧ (∀ k, k ≠ key → PyDict.get k new = PyDict.get k old)
  ∧ PyDict.keys new
    = (if PyDict.mem key old then PyDict.keys old else PyDict.keys old ++ [key]).

(** ** Observations on the manager *)

(** The descriptors by value: what [self.servers] maps every name to. *)
Definition fleet (w : World) : list (string * ServerConfig) :=
  (λ kl, (kl.1, heap w !!! kl.2)) <$> servers w.

(** Every reference held in [self.servers] is a live object. *)
Definition closed (w : World) : Prop :=
  Forall (λ kl : string * loc, (kl.2 < length (heap w))%nat) (servers w).

(** The text that a sequence of chunks amounts to. *)
Definition concat_chunks (chunks : list string) : string :=
  foldr String.append EmptyString chunks.

(** A sequence of file operations replaces a file atomically when every
    content that can be found along the way is the old content or the
    final one. *)
Definition atomic_replace (ops : list file_op) (old : option string) : Prop :=
  ∀ s, s ∈ observable ops old → s = old ∨ s = run_file_ops ops old.

(** ** Values that go through the state file

    What the descriptors of a running manager hold: a float is the
    [repr] of a float, a dictionary has every key once. *)

Fixpoint all_digits (s : string) : bool :=
  match s with
  | EmptyString => true
  | String c s' => PyJson.is_digit c && all_digits s'
  end.

(** A zero, or digits that do not start with a zero. *)
Definition integer_part (s : string) : Prop :=
  s = "0" ∨ ∃ c ds, s = String c ds ∧ PyJson.is_digit c = true
                    ∧ c ≠ "0"%char ∧ all_digits ds = true.

(** Nothing, or a dot and digits. *)
Definition fraction_part (s : string) : Prop :=
  s = EmptyString
  ∨ ∃ ds, s = String "." ds ∧ ds ≠ EmptyString ∧ all_digits ds = true.

(** Nothing, or [e], a sign or none, and digits. *)
Definition exponent_part (s : string) : Prop :=
  s = EmptyString
  ∨ ∃ sign ds, s = String "e" (sign +:+ ds)
               ∧ (sign = EmptyString ∨ sign = "+" ∨ sign = "-")
               ∧ ds ≠ EmptyString ∧ all_digits ds = true.

(** The [repr] of a finite float, such as [1700000000.5], [-0.0],
    [1e+16] or [1.5e-07]: a sign or none, an integer part, and a
    fraction or an exponent or both. *)
Definition finite_repr (s : string) : Prop :=
  ∃ (negative : bool) (integer frac exp : string),
    s = (if negative then "-" else EmptyString) +:+ integer +:+ frac +:+ exp
    ∧ integer_part integer ∧ fraction_part frac ∧ exponent_part exp
    ∧ (frac ≠ EmptyString ∨ exp ≠ EmptyString).

(** The [repr] of a float. *)
Definition float_ok (x : pyfloat) : Prop :=
  finite_repr (float_repr x)
  ∨ float_repr x = "nan" ∨ float_repr x = "inf" ∨ float_repr x = "-inf".

(** The values that make up a state file: no list is among them. *)
Fixpoint json_ok (v : json) : Prop :=
  match v with
  | JFloat x => float_ok x
  | JObj items =>
      NoDup items.*1 ∧ foldr (λ kv P, json_ok kv.2 ∧ P) True items
  | JArr _ => False
  | _ => True
  end.

(** The nesting of a value, and not less than the number of items of
    any dictionary in it. *)
Fixpoint depth (v : json) : nat :=
  match v with
  | JObj items =>
      S (foldr (λ kv n, Nat.max (depth kv.2) n) (length items) items)
  | _ => 1
  end.

(** What [json.dump] writes after a value: a comma, a line feed, or
    nothing. *)
Definition delimited (rest : string) : Prop :=
  match rest with
  | EmptyString => True
  | String c _ => c = ","%char ∨ c = LF
  end.

(** The head of the text is not a digit. *)
Definition ends_digits (t : string) : Prop :=
  match t with
  | String c _ => PyJson.is_digit c = false
  | EmptyString => True
  end.

(** The text that [json.dump] writes for a value at a nesting level, and
    for the items of a dictionary after the first. *)
Definition dump_text (level : nat) (v : json) : string :=
  concat_chunks (PyJson.iterencode level v).

Definition dump_items_text (level : nat) (items : list (string * json))
  : string :=
  concat_chunks (PyJson.iterencode_items level items).

(** Every [last_started] of the fleet is the [repr] of a float. *)
Definition floats_ok (w : World) : Prop :=
  Forall (λ ns : string * ServerConfig,
            from_option float_ok True (last_started ns.2)) (fleet w).

(** ** Sample configurations and schedules *)

Module Sample.

Definition cfg : Config :=
  {| port_min := 25565; port_max := 25566;
     max_concurrent := 2; default_memory := 1024 |}.

(** The world outside behaves: children spawn, downloads succeed. *)
Definition env : Env :=
  {| clock := Float "1700000000.5"; spawn := Some 4242;
     curseforge := (true, "Server pack downloaded and extracted");
     vanilla := None; unpacked := None; terminate_raises := false |}.

(** The same, later and with another process id for the child. *)
Definition env2 : Env :=
  {| clock := Float "1700000060.25"; spawn := Some 4243;
     curseforge := (true, "Server pack downloaded and extracted");
     vanilla := None; unpacked := None; terminate_raises := false |}.

(** The vanilla download fails with HTTP 404. *)
Definition env_404 : Env :=
  {| clock := Float "1700000000.5"; spawn := Some 4242;
     curseforge := (false, "Failed to download: HTTP 404");
     vanilla := Some "Failed to download vanilla server: HTTP 404";
     unpacked := None; terminate_raises := false |}.

(** The server pack ships a [server.properties] with the default port. *)
Definition env_pack : Env :=
  {| clock := Float "1700000000.5"; spawn := Some 4242;
     curseforge := (true, "Server pack downloaded and extracted");
     vanilla := None;
     unpacked := Some ("server-port=25565" +:+ String LF
                       ("motd=A Minecraft Server" +:+ String LF EmptyString));
     terminate_raises := false |}.

Definition on (e : Env) (evs : list event) : list (Env * event) :=
  (λ ev, (e, ev)) <$> evs.

(** The world at the end of a schedule, evaluated with [PyJson]. *)
Definition after (sched : list (Env * event)) (w : World) : World :=
  default w (@run PyJson.python_json sched w).

(** A manager that starts on an empty [servers_dir]. *)
Definition fresh : World :=
  new_manager cfg {| state_file := None; server_dirs := ∅;
                     props_files := ∅; eula_files := ∅ |}.

(** [create_server("alpha", "1.20.4")]: the call (task 0) and the end
    of the download. *)
Definition create_alpha : list (Env * event) :=
  on env [Invoke (CreateServer "alpha" "1.20.4" None None); Wake 0].

(** One stopped server on port 25565, as [create_server] leaves it. *)
Definition stopped : World := after create_alpha fresh.

Definition alpha : ServerConfig :=
  {| name := "alpha"; version := "1.20.4"; memory := 1024; port := 25565;
     modpack_url := None; server_file_url := None;
     status := value STOPPED; pid := None; last_started := None;
     restart_count := 0; crash_count := 0 |}.

Definition beta : ServerConfig :=
  {| name := "beta"; version := "modpack"; memory := 4096; port := 25566;
     modpack_url := Some "https://www.curseforge.com/minecraft/modpacks/x";
     server_file_url := None;
     status := value RUNNING; pid := Some 4242;
     last_started := Some (Float "1700000000.5");
     restart_count := 0; crash_count := 3 |}.

(** Two servers, one of them with every optional attribute set. *)
Definition two : World :=
  {| config := cfg; servers := [("alpha", 0%nat); ("beta", 1%nat)];
     processes := ∅; monitoring_tasks := ∅;
     allocated_ports := {[ 25565 := "alpha" ]} ;
     lock := false; heap := [alpha; beta];
     fs := {| state_file := None; server_dirs := {[ "alpha"; "beta" ]};
              props_files := ∅; eula_files := ∅ |};
     procs := []; tasks := [] |}.

(** [start_server("alpha")] up to RUNNING: the call (task 1), the
    spawn of child 0, the first turn of the monitor (task 2), the end
    of the confirmation window. *)
Definition boot : list (Env * event) :=
  on env [Invoke (StartServer "alpha"); Wake 1; Wake 2; Wake 1].

(** The child exits inside the confirmation window: the call (task 1),
    the spawn of child 0, the first turn of the monitor (task 2) while
    the child is alive, the exit, the end of the window, the end of
    [communicate], and the next turn of the monitor. *)
Definition crash_at_boot : list (Env * event) :=
  on env [Invoke (StartServer "alpha"); Wake 1; Wake 2;
          ProcessExit 0 1 "Error: Unable to access jarfile server.jar";
          Wake 1; Wake 1; Wake 2].

(** A requested stop of the running server (task 3); the child exits on
    SIGTERM, [stop_server] resumes, then the monitor takes its turn. *)
Definition stop_then_poll : list (Env * event) :=
  boot ++ on env [Invoke (StopServer "alpha"); ProcessExit 0 (-15) EmptyString;
                  Wake 3; Wake 2].

(** A successful restart of the running server (task 3): stop, settle
    delay, start, spawn of child 1, end of the confirmation window. *)
Definition restart : list (Env * event) :=
  boot ++ on env [Invoke (RestartServer "alpha");
                  ProcessExit 0 (-15) EmptyString; Wake 3; Wake 3]
       ++ on env2 [Wake 3; Wake 3].

(** Two calls of [start_server("alpha")] (tasks 1 and 2), the second
    one while the first is suspended. *)
Definition double_start : list (Env * event) :=
  on env [Invoke (StartServer "alpha"); Invoke (StartServer "alpha"); Wake 1]
  ++ on env2 [Wake 2].

(** [delete_server("alpha")] (task 2) while [create_server("beta", ...)]
    (task 1) awaits its download and holds the lock. *)
Definition delete_during_create : list (Env * event) :=
  on env [Invoke (CreateServer "beta" "1.20.4" None None);
          Invoke (DeleteServer "alpha")].

(** [create_server("beta", ...)] from a server pack: the call (task 1)
    and the end of the download. *)
Definition create_from_pack : list (Env * event) :=
  on env_pack
    [Invoke (CreateServer "beta" "modpack" None
               (Some "https://www.curseforge.com/minecraft/modpacks/x"));
     Wake 1].

(** [create_server("beta", "1.20.4")] (task 1), whose vanilla download
    fails. *)
Definition create_call : event :=
  Invoke (CreateServer "beta" "1.20.4" None None).

Definition create_404 : list (Env * event) :=
  on env [create_call] ++ on env_404 [Wake 1].

(** The descriptor that this call builds. *)
Definition beta_new : ServerConfig :=
  {| name := "beta"; version := "1.20.4"; memory := 1024; port := 25566;
     modpack_url := None; server_file_url := None;
     status := value STOPPED; pid := None; last_started := None;
     restart_count := 0; crash_count := 0 |}.

(** A [server.properties] with a comment, a repeated key and a line
    that is not an assignment. *)
Definition props_text : string :=
  "#Minecraft server properties" +:+ String LF
  ("server-port=25565" +:+ String LF
  ("motd=A Minecraft Server" +:+ String LF
  ("broken line" +:+ String LF
  ("server-port=25570" +:+ String LF EmptyString)))).

Definition configured : World :=
  set_fs (set_props_files <["alpha" := props_text]>) stopped.

End Sample.

(** ** Frames

    [preserving R c]: the computation [c] leaves the world it starts
    from [R]-related to the world it ends in. *)
Definition preserving {A} (R : relation World) (c : M A) : Prop :=
  ∀ w, R w (c w).2.

(** The port allocation table is the same. *)
Definition ports_kept (w w' : World) : Prop :=
  allocated_ports w' = allocated_ports w.

(** Every object is still there, with the [restart_count] it had. *)
Definition restart_counts_kept (w w' : World) : Prop :=
  (length (heap w) ≤ length (heap w'))%nat
  ∧ ∀ l, (l < length (heap w))%nat →
         restart_count (heap w' !!! l) = restart_count (heap w !!! l).

(** The artifact acquisition step of [create_server] fails:
    [download_curseforge_server] returns [(False, message)] for a
    mod-pack reference, or [download_vanilla_server] raises. *)
Definition acquisition_fails (e : Env) (modpack_url : option string) : Prop :=
  if truthy modpack_url then (curseforge e).1 = false
  else is_Some (vanilla e).

(** The reading of the specification for [restart_count]: the object
    [l] has been counted one restart more in [w'] than in [w]. *)
Definition restart_counted (w w' : World) (l : loc) : Prop :=
  restart_count (heap w' !!! l) = restart_count (heap w !!! l) + 1.
(** [c] neither reads nor writes [self.lock]: run with the lock in
    any state, it does the same and leaves the lock in that state. *)
Definition lock_blind {A} (c : M A) : Prop :=
  ∀ b w, c (set_lock b w) = ((c w).1, set_lock b (c w).2).

(** ** [auto_start_on_boot]

    The loop over [self.servers.items()], as far as it runs without a
    suspension: a call of [start_server] that returns at once lets the
    loop go on, an exception leaves the loop, and a call that suspends
    suspends [auto_start_on_boot] there (the result is the task state of
    that call). [enabled] is [config["servers"]["auto_start_on_boot"]]. *)
Fixpoint auto_start_loop (items : list (string * loc)) : M (option task) :=
  match items with
  | [] => ret None
  | (name, server) :: rest =>
      s ← deref server;
      if decide (status s = value RUNNING) then
        tk ← start_server name;
        match tk with
        | Done (Some (Raises _)) => ret (Some tk)
        | Done _ => auto_start_loop rest
        | _ => ret (Some tk)
        end
      else auto_start_loop rest
  end.

Definition auto_start_on_boot (enabled : bool) : M (option task) :=
  if negb enabled then ret None
  else items ← gets servers; auto_start_loop items.

(** ** The [/create] command of the operator interface *)

(** [str.isalnum] on a code point below 256. *)
Definition is_alnum (c : ascii) : bool :=
  let n := N_of_ascii c in
  ((48 <=? n) && (n <=? 57) || (65 <=? n) && (n <=? 90)
   || (97 <=? n) && (n <=? 122)
   || (n =? 170) || (n =? 178) || (n =? 179) || (n =? 181)
   || (n =? 185) || (n =? 186) || (188 <=? n) && (n <=? 190)
   || (192 <=? n) && (n <=? 214) || (216 <=? n) && (n <=? 246)
   || (248 <=? n))%N.

Fixpoint all_alnum (s : string) : bool :=
  match s with
  | EmptyString => true
  | String c s' => is_alnum c && all_alnum s'
  end.

(** [s.isalnum()]: every character is alphanumeric and there is one. *)
Definition isalnum (s : string) : bool :=
  match s with
  | EmptyString => false
  | _ => all_alnum s
  end.

(** [s.startswith(prefix)] *)
Fixpoint has_prefix (prefix s : string) : bool :=
  match prefix, s with
  | EmptyString, _ => true
  | String a prefix', String b s' => bool_decide (a = b) && has_prefix prefix' s'
  | String _ _, EmptyString => false
  end.

(** What [MinecraftBot.create_server] does with its arguments: it
    refuses, or it awaits [server_manager.create_server] with the
    arguments of the operation. [permitted] is [has_required_role]. *)
Inductive create_command :=
| NoPermission
| NotAlphanumeric
| CallManager (op : operation).

Definition bot_create_server (permitted : bool) (name version_or_url : string)
    (memory : option Z) : create_command :=
  if negb permitted then NoPermission
  else if negb (isalnum name) then NotAlphanumeric
  else
    let is_url := has_prefix "http://" version_or_url
                  || has_prefix "https://" version_or_url in
    if is_url
    then CallManager (CreateServer name "modpack" memory (Some version_or_url))
    else CallManager (CreateServer name version_or_url memory None).

(** ** Relations between the worlds before and after a computation *)

Section persistence.
Context `{JsonLib}.

(** The state file holds the serialisation of the descriptors. *)
Definition synced (w : World) : Prop :=
  state_file (fs w) = Some (concat_chunks (json_dump (states_of w))).

(** Neither the descriptors nor the state file have changed. *)
Definition quiet (w w' : World) : Prop :=
  states_of w' = states_of w ∧ state_file (fs w') = state_file (fs w).

(** [c] ends with the state file in step with the descriptors. *)
Definition saving {A} (c : M A) : Prop := ∀ w, synced (c w).2.

(** [c] changes nothing of the descriptors and the state file, or ends
    with the state file in step with the descriptors. *)
Definition persisting {A} (c : M A) : Prop :=
  ∀ w, quiet w (c w).2 ∨ synced (c w).2.

End persistence.

(** What no operation changes in a descriptor, and the one counter it
    only increases. *)
Definition evolves (s s' : ServerConfig) : Prop :=
  name s' = name s ∧ version s' = version s ∧ memory s' = memory s
  ∧ port s' = port s ∧ modpack_url s' = modpack_url s
  ∧ server_file_url s' = server_file_url s
  ∧ crash_count s ≤ crash_count s'.

(** Every object is still there and has evolved. *)
Definition descriptors_evolve (w w' : World) : Prop :=
  (length (heap w) ≤ length (heap w'))%nat
  ∧ ∀ l, (l < length (heap w))%nat → evolves (heap w !!! l) (heap w' !!! l).

(** No port has been claimed. *)
Definition ports_shrink (w w' : World) : Prop :=
  allocated_ports w' ⊆ allocated_ports w.

(** An event that is not a piece of [create_server]. *)
Definition not_create (w : World) (ev : event) : Prop :=
  match ev with
  | Invoke (CreateServer _ _ _ _) => False
  | Wake t =>
      match tasks w !! t with
      | Some (CreateLockWait _ _ _ _) | Some (CreateDownload _ _ _) => False
      | _ => True
      end
  | _ => True
  end.

(** The download that [create_server] awaits succeeds. *)
Definition acquisition_succeeds (e : Env) (url : option string) : Prop :=
  if truthy url then (curseforge e).1 = true else vanilla e = None.

(** The descriptor that [create_server] builds. *)
Definition new_server (name version : string) (memory : option Z)
    (url : option string) (port default_memory : Z) : ServerConfig :=
  {| name := name; version := version;
     memory := memory_or memory default_memory; port := port;
     modpack_url := url; server_file_url := None;
     status := value STOPPED; pid := None; last_started := None;
     restart_count := 0; crash_count := 0 |}.

(** The world after a call that returned [r] at once and did nothing
    else: one more task, finished. *)
Definition returned (r : result) (w : World) : World :=
  set_tasks (λ ts, ts ++ [Done (Some r)]) w.

(** The keyword arguments that [ServerConfig] takes: every keyword is a
    field, and the fields without a default are given. *)
Definition keywords_ok (kwargs : list (string * json)) : bool :=
  forallb (λ k, bool_decide (k ∈ field_names)) (PyDict.keys kwargs)
  && forallb (λ k, bool_decide (k ∈ PyDict.keys kwargs))
       ["name"; "version"; "memory"].

(** A record of the state file on which [ServerConfig] raises
    [TypeError]: a value that is not a dictionary, or a dictionary with
    a keyword too many or too few. *)
Definition malformed (data : json) : Prop :=
  match data with
  | JObj kwargs => keywords_ok kwargs = false
  | _ => True
  end.

(** ** More worlds on which the properties are evaluated *)

Module Episode.

(** The child has been reaped: [process.terminate()] raises. *)
Definition env_reaped : Env :=
  {| clock := Float "1700000120.75"; spawn := Some 4244;
     curseforge := (true, "Server pack downloaded and extracted");
     vanilla := None; unpacked := None; terminate_raises := true |}.

(** The two servers of [Sample.two] under a ceiling of one RUNNING
    server, which [beta] fills. *)
Definition crowded : World :=
  {| config := {| port_min := 25565; port_max := 25566;
                  max_concurrent := 1; default_memory := 1024 |};
     servers := [("alpha", 0%nat); ("beta", 1%nat)];
     processes := ∅; monitoring_tasks := ∅;
     allocated_ports := {[ 25565 := "alpha"; 25566 := "beta" ]};
     lock := false; heap := [Sample.alpha; Sample.beta];
     fs := {| state_file := None; server_dirs := {[ "alpha"; "beta" ]};
              props_files := ∅; eula_files := ∅ |};
     procs := []; tasks := [] |}.

(** [start_server("alpha")] up to its return: the call (task 0), the
    spawn, the end of the confirmation window. *)
Definition start_alpha : list (Env * event) :=
  Sample.on Sample.env [Invoke (StartServer "alpha"); Wake 0; Wake 0].

(** [alpha] is RUNNING, its child is process 0 and tasks 0 to 2 exist. *)
Definition running : World := Sample.after Sample.boot Sample.stopped.

(** [delete_server("alpha")] of the running server (task 3) and the end
    of the sleep of [stop_server]. *)
Definition delete_running : list (Env * event) :=
  Sample.on Sample.env [Invoke (DeleteServer "alpha"); Wake 3].

(** [restart_server("alpha")] of the running server (task 3), the end of
    the sleep of [stop_server], the end of the settle delay. *)
Definition restart_running : list (Env * event) :=
  Sample.on Sample.env [Invoke (RestartServer "alpha"); Wake 3; Wake 3].

(** [start_server("alpha")] of the stopped server (task 1), then the
    spawn. *)
Definition start_call : list (Env * event) :=
  Sample.on Sample.env [Invoke (StartServer "alpha")].

Definition start_spawn : list (Env * event) :=
  Sample.on Sample.env [Invoke (StartServer "alpha"); Wake 1].

(** [stop_server("alpha")] of the running server (task 3), suspended in
    its sleep. *)
Definition stop_call : list (Env * event) :=
  Sample.on Sample.env [Invoke (StopServer "alpha")].

(** [start_server("alpha")] (task 1), the spawn of child 0, the first
    turn of the monitor (task 2), and the exit of the child. *)
Definition exit_at_boot : list (Env * event) :=
  Sample.on Sample.env
    [Invoke (StartServer "alpha"); Wake 1; Wake 2;
     ProcessExit 0 1 "Error: Unable to access jarfile server.jar"].

(** [alpha] with a [server.properties] of two assignments. *)
Definition tidy : World :=
  set_fs (set_props_files
    <["alpha" := file_text [Assignment "server-port" "25565";
                            Assignment "motd" "A Minecraft Server"]]>)
    Sample.stopped.

(** A state file whose second record has lost its [memory]. *)
Definition truncated : FileSystem :=
  {| state_file := Some (concat_chunks (PyJson.iterencode 0
       (JObj [("alpha", asdict Sample.alpha);
              ("beta", JObj [("name", JStr "beta");
                             ("version", JStr "1.20.4")])])));
     server_dirs := ∅; props_files := ∅; eula_files := ∅ |}.

(** [alpha] with a [server.properties] that an editor saved: line ends
    of two characters, an indented assignment, an empty line, and no
    end after the last line. *)
Definition edited : World :=
  set_fs (set_props_files
    <["alpha" := laid_file_text
        [Laid EmptyString (Comment "Minecraft server properties")
           EmptyString CrLf;
         Laid "  " (Assignment "server-port" "25565") " " CrLf;
         Laid EmptyString (Plain EmptyString) EmptyString CrLf;
         Laid EmptyString (Assignment "motd" "A Minecraft Server")
           EmptyString NoEnd]]>)
    Sample.stopped.

(** The state file of [Sample.two]. *)
Definition saved : FileSystem :=
  fs (@save_server_states PyJson.python_json Sample.two).2.

End Episode.

(** * Properties *)

Local Arguments String.append !_ _ : simpl nomatch.

Ltac unfold_monad := unfold bind, ret, gets, modify in *; simpl in *.

(** ** Dictionaries *)

Module PyDictFacts.
Section facts.
Context {K V : Type} `{EqDecision K}.
Implicit Types (k : K) (v : V) (d : list (K * V)).

Lemma mem_true k d : PyDict.mem k d = true ↔ is_Some (PyDict.get k d).
Proof.
  unfold PyDict.mem. destruct (PyDict.get k d); split; intros Hm; eauto.
  - discriminate.
  - by destruct Hm.
Qed.

Lemma mem_false k d : PyDict.mem k d = false ↔ PyDict.get k d = None.
Proof. unfold PyDict.mem. destruct (PyDict.get k d); split; congruence. Qed.

Lemma get_None k d : PyDict.get k d = None ↔ k ∉ PyDict.keys d.
Proof.
  unfold PyDict.keys. induction d as [|[k' v'] d IH]; simpl.
  - split; [intros _; apply not_elem_of_nil | done].
  - rewrite not_elem_of_cons. case_decide as E.
    + split; [done | by intros [? _]].
    + rewrite IH. split; [done | by intros [_ ?]].
Qed.

Lemma get_set_eq k v d : PyDict.get k (PyDict.set k v d) = Some v.
Proof.
  induction d as [|[k' v'] d IH]; simpl.
  - by rewrite decide_True.
  - case_decide; simpl; [by rewrite decide_True | by rewrite decide_False].
Qed.

Lemma get_set_ne k k' v d :
  k ≠ k' → PyDict.get k' (PyDict.set k v d) = PyDict.get k' d.
Proof.
  intros Hne. induction d as [|[k0 v0] d IH]; simpl.
  - by rewrite decide_False.
  - case_decide; simpl; subst.
    + by rewrite !decide_False.
    + by case_decide.
Qed.

Lemma set_absent k v d : k ∉ PyDict.keys d → PyDict.set k v d = d ++ [(k, v)].
Proof.
  unfold PyDict.keys. induction d as [|[k0 v0] d IH]; simpl; [done|].
  intros Hk. apply not_elem_of_cons in Hk as [? ?].
  rewrite decide_False by done. f_equal. by apply IH.
Qed.

Lemma keys_set_present k v d :
  k ∈ PyDict.keys d → PyDict.keys (PyDict.set k v d) = PyDict.keys d.
Proof.
  unfold PyDict.keys. induction d as [|[k0 v0] d IH]; simpl.
  - intros Hk. by apply elem_of_nil in Hk.
  - intros Hk. case_decide; simpl; subst; [done|].
    f_equal. apply IH. by apply elem_of_cons in Hk as [?|?].
Qed.

Lemma keys_set_absent k v d :
  k ∉ PyDict.keys d → PyDict.keys (PyDict.set k v d) = PyDict.keys d ++ [k].
Proof.
  intros Hk. rewrite set_absent by done. unfold PyDict.keys.
  by rewrite fmap_app.
Qed.

Lemma keys_set k v d :
  PyDict.keys (PyDict.set k v d) =
  if PyDict.mem k d then PyDict.keys d else PyDict.keys d ++ [k].
Proof.
  destruct (PyDict.mem k d) eqn:Hm.
  - apply keys_set_present. apply mem_true in Hm as [x Hx].
    destruct (decide (k ∈ PyDict.keys d)) as [|Hout]; [done|].
    apply get_None in Hout. congruence.
  - apply keys_set_absent, get_None, mem_false, Hm.
Qed.

Lemma wf_set k v d : PyDict.wf d → PyDict.wf (PyDict.set k v d).
Proof.
  unfold PyDict.wf. intros Hd.
  destruct (decide (k ∈ PyDict.keys d)) as [Hin|Hout].
  - by rewrite keys_set_present.
  - rewrite keys_set_absent by done.
    apply NoDup_app. split; [done|]. split; [|apply NoDup_singleton].
    intros x Hx Hx'. apply list_elem_of_singleton in Hx'. by subst.
Qed.

End facts.
End PyDictFacts.

(** ** Port allocator *)

Lemma allocate_port_from_frame n p w : (allocate_port_from n p w).2 = w.
Proof.
  revert p. induction n as [|n IH]; intros p; simpl; unfold_monad; [done|].
  destruct (allocated_ports w !! p); [apply IH | done].
Qed.

Lemma allocate_port_from_Some n p w q :
  (allocate_port_from n p w).1 = Some q →
  p ≤ q < p + Z.of_nat n ∧ allocated_ports w !! q = None
  ∧ ∀ r, p ≤ r < q → is_Some (allocated_ports w !! r).
Proof.
  revert p. induction n as [|n IH]; intros p; simpl; unfold_monad; [discriminate|].
  destruct (allocated_ports w !! p) eqn:Hp.
  - intros Hq. destruct (IH _ Hq) as (Hr & Hfree & Hlow).
    split; [lia|]. split; [done|].
    intros r Hr'. destruct (decide (r = p)) as [->|]; [by eexists|].
    apply Hlow. lia.
  - intros [= <-]. split; [lia|]. split; [done|]. intros r ?; lia.
Qed.

Lemma allocate_port_from_None n p w :
  (allocate_port_from n p w).1 = None ↔
  ∀ r, p ≤ r < p + Z.of_nat n → is_Some (allocated_ports w !! r).
Proof.
  revert p. induction n as [|n IH]; intros p; simpl; unfold_monad.
  - split; [intros _ r ?; lia | done].
  - destruct (allocated_ports w !! p) eqn:Hp.
    + rewrite IH. split; intros Hall r Hr.
      * destruct (decide (r = p)) as [->|]; [by eexists|]. apply Hall. lia.
      * apply Hall. lia.
    + split; [done|]. intros Hall.
      destruct (Hall p ltac:(lia)) as [x Hx]. congruence.
Qed.

Lemma allocate_port_frame w : (allocate_port w).2 = w.
Proof. unfold allocate_port. unfold_monad. apply allocate_port_from_frame. Qed.

Lemma allocate_port_Some w p :
  (allocate_port w).1 = Some p →
  port_min (config w) ≤ p ≤ port_max (config w)
  ∧ allocated_ports w !! p = None
  ∧ ∀ q, port_min (config w) ≤ q < p → is_Some (allocated_ports w !! q).
Proof.
  unfold allocate_port. unfold_monad. intros Hp.
  apply allocate_port_from_Some in Hp as (Hr & ? & ?).
  split; [lia|]. done.
Qed.

Lemma allocate_port_None w :
  (allocate_port w).1 = None ↔
  ∀ q, port_min (config w) ≤ q ≤ port_max (config w) →
       is_Some (allocated_ports w !! q).
Proof.
  unfold allocate_port. unfold_monad. rewrite allocate_port_from_None.
  split; intros Hall q Hq; apply Hall; lia.
Qed.

Lemma release_port_ports p w :
  allocated_ports (release_port p w).2 = delete p (allocated_ports w).
Proof.
  unfold release_port. unfold_monad.
  destruct (allocated_ports w !! p) eqn:Hp; simpl; [done|].
  by rewrite delete_id.
Qed.

Lemma release_port_unclaimed p w :
  allocated_ports w !! p = None → release_port p w = (tt, w).
Proof. intros Hp. unfold release_port. unfold_monad. by rewrite Hp. Qed.

Lemma release_port_config p w : config (release_port p w).2 = config w.
Proof.
  unfold release_port. unfold_monad. by destruct (allocated_ports w !! p).
Qed.

(** C5. [allocate_port] returns the lowest port of
    [[port_min, port_max]] that is not in the allocation table, hence
    never a port outside the range, and returns [None] exactly when
    every port of the range is in the table. After [release_port p] for
    a [p] of the range it returns a port again, and [p] itself when
    every lower port is claimed. [release_port] of a port that is not in
    the table changes nothing. *)
Theorem allocate_release_spec (w : World) :
  (∀ p, (allocate_port w).1 = Some p →
        port_min (config w) ≤ p ≤ port_max (config w)
        ∧ allocated_ports w !! p = None
        ∧ ∀ q, port_min (config w) ≤ q < p → is_Some (allocated_ports w !! q))
  ∧ ((allocate_port w).1 = None ↔
     ∀ q, port_min (config w) ≤ q ≤ port_max (config w) →
          is_Some (allocated_ports w !! q))
  ∧ (∀ p, port_min (config w) ≤ p ≤ port_max (config w) →
          ∃ q, (allocate_port (release_port p w).2).1 = Some q ∧ q ≤ p
               ∧ ((∀ r, port_min (config w) ≤ r < p →
                        is_Some (allocated_ports w !! r)) → q = p))
  ∧ (∀ p, allocated_ports w !! p = None → release_port p w = (tt, w)).
Proof.
  split; [exact (allocate_port_Some w)|].
  split; [exact (allocate_port_None w)|].
  split; [|exact (λ p, release_port_unclaimed p w)].
  {
    intros p Hp. set (w' := (release_port p w).2).
    assert (Hfree : allocated_ports w' !! p = None).
    { unfold w'. rewrite release_port_ports. apply lookup_delete_eq. }
    assert (Hcfg : config w' = config w) by apply release_port_config.
    destruct (allocate_port w').1 as [q|] eqn:Hq.
    + exists q. apply allocate_port_Some in Hq as (Hr & Hqfree & Hlow).
      rewrite Hcfg in Hr, Hlow.
      assert (q ≤ p).
      { destruct (decide (q ≤ p)); [done|].
        destruct (Hlow p ltac:(lia)) as [x Hx]. congruence. }
      split; [done|]. split; [done|].
      intros Hall. destruct (decide (q = p)); [done|].
      destruct (Hall q ltac:(lia)) as [x Hx].
      unfold w' in Hqfree. rewrite release_port_ports in Hqfree.
      rewrite lookup_delete_ne in Hqfree by done. congruence.
    + exfalso. rewrite allocate_port_None in Hq.
      destruct (Hq p) as [x Hx]; [by rewrite Hcfg | congruence]. }
Qed.

(** ** Strings *)

Lemma CR_ne_LF : CR ≠ LF.
Proof. done. Qed.
#[local] Hint Resolve CR_ne_LF : core.


Lemma append_nil_r (s : string) : s +:+ EmptyString = s.
Proof. induction s as [|c s IH]; simpl; [done | by f_equal]. Qed.

Lemma append_assoc (a b c : string) : (a +:+ b) +:+ c = a +:+ (b +:+ c).
Proof. induction a as [|x a IH]; simpl; [done | by f_equal]. Qed.

Lemma contains_app c a b : contains c (a +:+ b) = contains c a || contains c b.
Proof.
  induction a as [|x a IH]; simpl; [done|]. by case_decide.
Qed.

Lemma contains_cons_ne c x s : c ≠ x → contains c (String x s) = contains c s.
Proof. intros Hne. simpl. by rewrite decide_False. Qed.

Lemma universal_newlines_id s : contains CR s = false → universal_newlines s = s.
Proof.
  induction s as [|c s IH]; simpl; [done|].
  destruct (decide (CR = c)) as [<-|Hne]; [done|].
  intros Hs. rewrite decide_False by done. by rewrite IH.
Qed.

Lemma universal_newlines_no_CR s : contains CR (universal_newlines s) = false.
Proof.
  induction s as [|c s IH]; simpl; [done|].
  destruct (decide (c = CR)) as [->|Hne].
  - destruct s as [|c' s]; [done|].
    destruct (decide (c' = LF)); [done|].
    by rewrite contains_cons_ne.
  - by rewrite contains_cons_ne.
Qed.

Lemma readlines_line s rest :
  contains LF s = false →
  readlines (s +:+ String LF rest) = (s +:+ String LF EmptyString) :: readlines rest.
Proof.
  induction s as [|c s IH]; simpl.
  - done.
  - destruct (decide (LF = c)) as [<-|Hne]; [done|].
    intros Hs. rewrite decide_False by done. by rewrite IH.
Qed.

(** Every line is a body without line feed, possibly followed by one. *)
Lemma readlines_shape s l :
  l ∈ readlines s →
  ∃ body, contains LF body = false
          ∧ (l = body ∨ l = body +:+ String LF EmptyString)
          ∧ (contains CR s = false → contains CR body = false).
Proof.
  revert l. induction s as [|c s IH]; simpl; intros l Hl.
  - by apply elem_of_nil in Hl.
  - destruct (decide (c = LF)) as [->|Hne].
    + apply elem_of_cons in Hl as [->|Hl].
      * exists EmptyString. split; [done|]. split; [by right | done].
      * destruct (IH _ Hl) as (body & ? & ? & Hcr). exists body.
        split; [done|]. split; [done|]. intros Hs. apply Hcr.
        by destruct (decide (CR = LF)).
    + destruct (readlines s) as [|l0 ls] eqn:Hrl.
      * apply list_elem_of_singleton in Hl as ->.
        exists (String c EmptyString). simpl.
        rewrite decide_False by done. split; [done|]. split; [by left|].
        by destruct (decide (CR = c)).
      * apply elem_of_cons in Hl as [->|Hl].
        -- destruct (IH l0) as (body & Hb & Hshape & Hcr); [left|].
           exists (String c body). simpl. rewrite decide_False by done.
           split; [done|]. split.
           ++ destruct Hshape as [->| ->]; [by left | by right].
           ++ destruct (decide (CR = c)); [done|]. done.
        -- destruct (IH l) as (body & Hb & Hshape & Hcr); [by right|].
           exists body. split; [done|]. split; [done|].
           destruct (decide (CR = c)); [done|]. done.
Qed.

Lemma rstrip_app a b :
  rstrip (a +:+ b) =
  match rstrip b with
  | EmptyString => rstrip a
  | r => a +:+ r
  end.
Proof.
  induction a as [|c a IH]; simpl.
  - by destruct (rstrip b).
  - rewrite IH. destruct (rstrip b) eqn:Hb; [done|].
    by destruct a.
Qed.

Lemma rstrip_idemp s : rstrip (rstrip s) = rstrip s.
Proof.
  induction s as [|c s IH]; simpl; [done|].
  destruct (rstrip s) as [|c' r] eqn:Hr.
  - destruct (is_space c) eqn:Hc; simpl; [done | by rewrite Hc].
  - simpl in *. by rewrite IH.
Qed.

Lemma lstrip_idemp s : lstrip (lstrip s) = lstrip s.
Proof.
  induction s as [|c s IH]; simpl; [done|].
  destruct (is_space c) eqn:Hc; [done|]. simpl. by rewrite Hc.
Qed.

(** A string is unchanged by [lstrip] when it is empty or starts with a
    character that is not white space. *)
Lemma lstrip_stable s :
  lstrip s = s ↔ match s with String c _ => is_space c = false | _ => True end.
Proof.
  destruct s as [|c s]; simpl; [done|].
  destruct (is_space c) eqn:Hc; [|done].
  split; [|done]. intros Hs.
  assert (Hlen : (String.length (lstrip s) ≤ String.length s)%nat).
  { clear. induction s as [|c s IH]; simpl; [done|].
    destruct (is_space c); simpl; lia. }
  rewrite Hs in Hlen. simpl in Hlen. lia.
Qed.

Lemma lstrip_rstrip_stable s : lstrip s = s → lstrip (rstrip s) = rstrip s.
Proof.
  rewrite !lstrip_stable. destruct s as [|c s]; simpl; [done|].
  intros Hc. destruct (rstrip s); [by rewrite Hc | done].
Qed.

Lemma strip_lstrip_stable s : lstrip (strip s) = strip s.
Proof. apply lstrip_rstrip_stable, lstrip_idemp. Qed.

Lemma strip_rstrip_stable s : rstrip (strip s) = strip s.
Proof. apply rstrip_idemp. Qed.

Lemma contains_lstrip c s : contains c (lstrip s) = true → contains c s = true.
Proof.
  induction s as [|x s IH]; simpl; [done|].
  destruct (is_space x); simpl; [|done].
  intros Hs. destruct (decide (c = x)); [done | by apply IH].
Qed.

Lemma contains_rstrip c s : contains c (rstrip s) = true → contains c s = true.
Proof.
  induction s as [|x s IH]; simpl; [done|].
  destruct (rstrip s) as [|y r] eqn:Hr.
  - destruct (is_space x); simpl; [done|]. by destruct (decide (c = x)).
  - simpl in *. by destruct (decide (c = x)).
Qed.

Lemma contains_strip_false c s : contains c s = false → contains c (strip s) = false.
Proof.
  intros Hs. destruct (contains c (strip s)) eqn:Hc; [|done].
  apply contains_rstrip, contains_lstrip in Hc. congruence.
Qed.

Lemma lstrip_app_LF s :
  lstrip (s +:+ String LF EmptyString) =
  match lstrip s with
  | EmptyString => EmptyString
  | r => r +:+ String LF EmptyString
  end.
Proof.
  induction s as [|c s IH]; simpl; [done|].
  destruct (is_space c); [done|]. done.
Qed.

Lemma strip_app_LF s : strip (s +:+ String LF EmptyString) = strip s.
Proof.
  unfold strip. rewrite lstrip_app_LF.
  destruct (lstrip s) as [|c r] eqn:Hl; [done|].
  rewrite <- Hl at 1. rewrite Hl. by rewrite rstrip_app.
Qed.

Lemma split_once_app c k v :
  contains c k = false → split_once c (k +:+ String c v) = (k, v).
Proof.
  induction k as [|x k IH]; simpl.
  - intros _. by rewrite decide_True.
  - destruct (decide (c = x)); [done|]. intros Hk. by rewrite IH.
Qed.

Lemma split_once_spec c s :
  contains c s = true →
  s = (split_once c s).1 +:+ String c (split_once c s).2
  ∧ contains c (split_once c s).1 = false.
Proof.
  induction s as [|x s IH]; simpl; [done|].
  destruct (decide (c = x)) as [->|Hne]; [done|].
  intros Hs. destruct (IH Hs) as [Heq Hk].
  destruct (split_once c s) as [k v]; simpl in *.
  split; [by f_equal|]. by rewrite decide_False.
Qed.

Lemma lstrip_app_stable k t :
  lstrip k = k → lstrip (String "=" t) = String "=" t →
  lstrip (k +:+ String "=" t) = k +:+ String "=" t.
Proof.
  rewrite !lstrip_stable. destruct k; simpl; done.
Qed.

Lemma rstrip_eq_app k v :
  rstrip (k +:+ String "=" v) = k +:+ String "=" (rstrip v).
Proof.
  rewrite rstrip_app. simpl. by destruct (rstrip v).
Qed.

Lemma startswith_app c k t :
  startswith c (k +:+ String "=" t) =
  match k with EmptyString => bool_decide (c = "="%char) | _ => startswith c k end.
Proof. by destruct k. Qed.

(** A well-formed assignment is read back as it was written. *)
Lemma strip_property_line k v :
  entry_ok (k, v) → strip (property_line (k, v)) = k +:+ String "=" v.
Proof.
  intros [Hk Hv]. unfold property_name_ok, property_value_ok in *. simpl in *.
  repeat (apply andb_prop in Hk as [Hk ?]). repeat (apply andb_prop in Hv as [Hv ?]).
  repeat match goal with H : bool_decide _ = true |- _ => apply bool_decide_eq_true in H end.
  unfold property_line. simpl.
  change (k +:+ "=" +:+ v +:+ String LF EmptyString)
    with (k +:+ String "=" (v +:+ String LF EmptyString)).
  replace (k +:+ String "=" (v +:+ String LF EmptyString))
    with ((k +:+ String "=" v) +:+ String LF EmptyString)
    by (by rewrite append_assoc).
  rewrite strip_app_LF. unfold strip.
  rewrite lstrip_app_stable by done. rewrite rstrip_eq_app. congruence.
Qed.

Lemma read_line_written acc k v :
  entry_ok (k, v) → read_line acc (property_line (k, v)) = PyDict.set k v acc.
Proof.
  intros Hok. unfold read_line. rewrite strip_property_line by done.
  destruct Hok as [Hk _]. unfold property_name_ok in Hk. simpl in Hk.
  repeat (apply andb_prop in Hk as [Hk ?]).
  rewrite contains_app. simpl. rewrite orb_true_r. simpl.
  rewrite startswith_app.
  replace (match k with EmptyString => bool_decide ("#"%char = "="%char) | _ => startswith "#" k end)
    with false.
  2:{ destruct k; [done|]. symmetry. by apply negb_true_iff. }
  simpl. rewrite split_once_app; [done|]. by apply negb_true_iff.
Qed.

Lemma Forall_set (P : string * string → Prop) k v d :
  P (k, v) → Forall P d → Forall P (PyDict.set k v d).
Proof.
  intros Hkv. induction 1 as [|[k' v'] d Hx Hd IH]; simpl.
  - by constructor.
  - case_decide; constructor; done.
Qed.

(** What [read_line] keeps of a line of the translated text is
    well-formed. *)
Lemma read_line_ok acc body line :
  contains LF body = false → contains CR body = false →
  line = body ∨ line = body +:+ String LF EmptyString →
  Forall entry_ok acc → Forall entry_ok (read_line acc line).
Proof.
  intros Hlf Hcr Hline Hacc. unfold read_line.
  assert (Hstrip : strip line = strip body).
  { destruct Hline as [->| ->]; [done | apply strip_app_LF]. }
  rewrite Hstrip. set (t := strip body).
  destruct (contains "=" t) eqn:Heq; simpl; [|done].
  destruct (startswith "#" t) eqn:Hhash; simpl; [done|].
  destruct (split_once_spec _ _ Heq) as [Ht Hk].
  destruct (split_once "=" t) as [key val]. simpl in *.
  apply Forall_set; [|done].
  assert (Htlf : contains LF t = false) by by apply contains_strip_false.
  assert (Htcr : contains CR t = false) by by apply contains_strip_false.
  assert (Htl : lstrip t = t) by apply strip_lstrip_stable.
  assert (Htr : rstrip t = t) by apply strip_rstrip_stable.
  rewrite Ht in Htlf, Htcr, Htl, Htr, Hhash.
  rewrite contains_app in Htlf, Htcr.
  apply orb_false_elim in Htlf as [Hklf Hvlf].
  apply orb_false_elim in Htcr as [Hkcr Hvcr].
  simpl in Hvlf, Hvcr.
  destruct (decide (LF = "="%char)) as [?|_]; [done|].
  destruct (decide (CR = "="%char)) as [?|_]; [done|].
  rewrite rstrip_eq_app in Htr. apply (inj _) in Htr. injection Htr as Htr.
  rewrite startswith_app in Hhash.
  split; unfold property_name_ok, property_value_ok; simpl.
  - rewrite Hk, Hklf, Hkcr. simpl.
    apply andb_true_intro. split.
    + destruct key; [done|]. by rewrite Hhash.
    + apply bool_decide_eq_true. apply lstrip_stable.
      apply lstrip_stable in Htl. by destruct key.
  - rewrite Hvlf, Hvcr. simpl. by apply bool_decide_eq_true.
Qed.

Lemma foldl_read_line_ok acc lines :
  (∀ l, l ∈ lines → ∃ body, contains LF body = false ∧ contains CR body = false
                     ∧ (l = body ∨ l = body +:+ String LF EmptyString)) →
  Forall entry_ok acc → Forall entry_ok (foldl read_line acc lines).
Proof.
  revert acc. induction lines as [|l lines IH]; intros acc Hshape Hacc; simpl; [done|].
  apply IH.
  - intros l' Hl'. apply Hshape. by right.
  - destruct (Hshape l) as (body & ? & ? & ?); [by left|].
    by eapply read_line_ok.
Qed.

Lemma read_line_wf acc line : PyDict.wf acc → PyDict.wf (read_line acc line).
Proof.
  intros Hacc. unfold read_line.
  destruct (_ && _); [|done].
  destruct (split_once _ _). by apply PyDictFacts.wf_set.
Qed.

Lemma read_properties_ok text :
  Forall entry_ok (read_properties text) ∧ PyDict.wf (read_properties text).
Proof.
  unfold read_properties. split.
  - apply foldl_read_line_ok; [|constructor].
    intros l Hl. apply readlines_shape in Hl as (body & ? & ? & Hcr).
    exists body. split; [done|]. split; [|done].
    apply Hcr, universal_newlines_no_CR.
  - generalize (readlines (universal_newlines text)).
    assert (Hnil : PyDict.wf (@nil (string * string))) by apply NoDup_nil_2.
    revert Hnil. generalize (@nil (string * string)).
    intros acc Hacc lines. revert acc Hacc.
    induction lines as [|l lines IH]; intros acc Hacc; simpl; [done|].
    by apply IH, read_line_wf.
Qed.

Lemma write_properties_no_CR d :
  Forall entry_ok d → contains CR (write_properties d) = false.
Proof.
  induction 1 as [|[k v] d [Hk Hv] Hd IH]; simpl; [done|].
  unfold property_name_ok, property_value_ok in *. simpl in *.
  repeat (apply andb_prop in Hk as [Hk ?]). repeat (apply andb_prop in Hv as [Hv ?]).
  repeat match goal with H : negb _ = true |- _ => apply negb_true_iff in H end.
  unfold property_line. simpl.
  repeat (rewrite contains_app; simpl).
  repeat match goal with H : contains CR _ = false |- _ => rewrite H end.
  done.
Qed.

Lemma readlines_write_properties d :
  Forall entry_ok d → readlines (write_properties d) = property_line <$> d.
Proof.
  induction 1 as [|[k v] d [Hk Hv] Hd IH]; simpl; [done|].
  unfold property_name_ok, property_value_ok in *. simpl in *.
  repeat (apply andb_prop in Hk as [Hk ?]). repeat (apply andb_prop in Hv as [Hv ?]).
  repeat match goal with H : negb _ = true |- _ => apply negb_true_iff in H end.
  unfold property_line at 1. simpl.
  change (k +:+ "=" +:+ v +:+ String LF EmptyString)
    with (k +:+ String "=" (v +:+ String LF EmptyString)).
  replace ((k +:+ String "=" (v +:+ String LF EmptyString)) +:+ write_properties d)
    with ((k +:+ String "=" v) +:+ String LF (write_properties d)).
  2:{ rewrite !append_assoc. simpl. by rewrite append_assoc. }
  rewrite readlines_line.
  - rewrite IH. f_equal. unfold property_line. simpl.
    rewrite append_assoc. done.
  - rewrite contains_app. simpl.
    repeat match goal with H : contains LF _ = false |- _ => rewrite H end.
    done.
Qed.

Lemma foldl_read_line_written acc d :
  Forall entry_ok d → NoDup (PyDict.keys acc ++ PyDict.keys d) →
  foldl read_line acc (property_line <$> d) = acc ++ d.
Proof.
  intros Hok. revert acc. induction Hok as [|[k v] d Hkv Hd IH]; intros acc Hnd; simpl.
  - by rewrite app_nil_r.
  - rewrite read_line_written by done.
    assert (Hk : k ∉ PyDict.keys acc).
    { apply NoDup_app in Hnd as (_ & Hdisj & _). intros Hin.
      apply (Hdisj _ Hin). left. }
    rewrite PyDictFacts.set_absent by done.
    rewrite IH.
    + by rewrite <- app_assoc.
    + unfold PyDict.keys in *. rewrite fmap_app. simpl.
      by rewrite <- app_assoc.
Qed.

(** Reading a file that [update_server_properties] wrote from
    well-formed assignments gives these assignments back. *)
Lemma read_write_properties d :
  Forall entry_ok d → PyDict.wf d → read_properties (write_properties d) = d.
Proof.
  intros Hok Hwf. unfold read_properties.
  rewrite universal_newlines_id by by apply write_properties_no_CR.
  rewrite readlines_write_properties by done.
  by rewrite foldl_read_line_written.
Qed.

Lemma update_server_properties_unknown name key value w :
  PyDict.mem name (servers w) = false →
  update_server_properties name key value w = (false, w).
Proof. intros Hm. unfold update_server_properties. unfold_monad. by rewrite Hm. Qed.

Lemma update_server_properties_missing name key value w :
  props_files (fs w) !! name = None →
  update_server_properties name key value w = (false, w).
Proof.
  intros Hf. unfold update_server_properties. unfold_monad.
  destruct (PyDict.mem name (servers w)); simpl; [by rewrite Hf | done].
Qed.

Lemma update_server_properties_written name key value w text :
  PyDict.mem name (servers w) = true →
  props_files (fs w) !! name = Some text →
  update_server_properties name key value w =
  (true, set_fs (set_props_files
     <[name := write_properties (PyDict.set key value (read_properties text))]>) w).
Proof.
  intros Hm Hf. unfold update_server_properties. unfold_monad.
  rewrite Hm. simpl. by rewrite Hf.
Qed.

(** *** The text of the file *)

Lemma write_properties_file_text d :
  write_properties d = file_text (assignment_lines d).
Proof.
  unfold write_properties, file_text, assignment_lines.
  induction d as [|[k v] d IH]; simpl; [done|].
  rewrite IH. unfold property_line. simpl.
  rewrite !append_assoc. simpl. by rewrite append_assoc.
Qed.

Lemma line_text_no_LF l : line_ok l → contains LF (line_text l) = false.
Proof.
  destruct l as [k v|t|t]; simpl.
  - intros [Hk Hv]. unfold property_name_ok, property_value_ok in *. simpl in *.
    repeat (apply andb_prop in Hk as [Hk ?]).
    repeat (apply andb_prop in Hv as [Hv ?]).
    repeat match goal with H : negb _ = true |- _ => apply negb_true_iff in H end.
    rewrite contains_app. simpl.
    repeat match goal with H : contains LF _ = false |- _ => rewrite H end.
    done.
  - by intros [Ht _].
  - by intros [Ht _].
Qed.

Lemma line_text_no_CR l : line_ok l → contains CR (line_text l) = false.
Proof.
  destruct l as [k v|t|t]; simpl.
  - intros [Hk Hv]. unfold property_name_ok, property_value_ok in *. simpl in *.
    repeat (apply andb_prop in Hk as [Hk ?]).
    repeat (apply andb_prop in Hv as [Hv ?]).
    repeat match goal with H : negb _ = true |- _ => apply negb_true_iff in H end.
    rewrite contains_app. simpl.
    repeat match goal with H : contains CR _ = false |- _ => rewrite H end.
    done.
  - by intros [_ Ht].
  - by intros (_ & Ht & _).
Qed.

Lemma file_text_no_CR ls :
  Forall line_ok ls → contains CR (file_text ls) = false.
Proof.
  induction 1 as [|l ls Hl Hls IH]; simpl; [done|].
  rewrite contains_app. simpl. by rewrite line_text_no_CR.
Qed.

Lemma readlines_file_text ls :
  Forall line_ok ls →
  readlines (file_text ls) = (λ l, line_text l +:+ String LF EmptyString) <$> ls.
Proof.
  induction 1 as [|l ls Hl Hls IH]; simpl; [done|].
  rewrite readlines_line by by apply line_text_no_LF.
  by rewrite IH.
Qed.

Lemma startswith_rstrip c s :
  is_space c = false →
  startswith c (rstrip (String c s)) = true.
Proof.
  intros Hc. simpl. destruct (rstrip s); [rewrite Hc|]; simpl;
    by apply bool_decide_eq_true.
Qed.

(** What the first loop keeps of a line. *)
Lemma read_line_line acc l :
  line_ok l →
  read_line acc (line_text l +:+ String LF EmptyString) = record_line acc l.
Proof.
  destruct l as [k v|t|t]; cbn [line_text record_line line_ok]; intros Hok.
  - rewrite <- (read_line_written acc k v Hok). f_equal.
    unfold property_line. simpl. by rewrite append_assoc.
  - unfold read_line. rewrite strip_app_LF. unfold strip.
    change (lstrip (String "#" t)) with (String "#" t).
    rewrite startswith_rstrip by done. by rewrite andb_false_r.
  - destruct Hok as (_ & _ & Heq). unfold read_line.
    rewrite strip_app_LF. by rewrite contains_strip_false.
Qed.

(** Reading the text of well-formed lines gives their assignments. *)
Lemma read_properties_file_text ls :
  Forall line_ok ls → read_properties (file_text ls) = assignments ls.
Proof.
  intros Hok. unfold read_properties, assignments.
  rewrite universal_newlines_id by by apply file_text_no_CR.
  rewrite readlines_file_text by done.
  generalize (@nil (string * string)).
  induction Hok as [|l ls Hl Hls IH]; intros acc; simpl; [done|].
  rewrite read_line_line by done. apply IH.
Qed.

Lemma record_line_wf d l : PyDict.wf d → PyDict.wf (record_line d l).
Proof. destruct l; simpl; [apply PyDictFacts.wf_set | done | done]. Qed.

Lemma assignments_wf ls : PyDict.wf (assignments ls).
Proof.
  unfold assignments.
  assert (Hnil : PyDict.wf (@nil (string * string))) by apply NoDup_nil_2.
  revert Hnil. generalize (@nil (string * string)).
  induction ls as [|l ls IH]; intros acc Hacc; simpl; [done|].
  by apply IH, record_line_wf.
Qed.

Lemma assignments_lines kvs :
  NoDup kvs.*1 → assignments (assignment_lines kvs) = kvs.
Proof.
  unfold assignments, assignment_lines.
  cut (∀ acc, NoDup (PyDict.keys acc ++ kvs.*1) →
         foldl record_line acc ((λ kv, Assignment kv.1 kv.2) <$> kvs) = acc ++ kvs).
  { intros Hcut Hnd. by apply (Hcut []). }
  induction kvs as [|[k v] kvs IH]; intros acc Hnd; simpl.
  - by rewrite app_nil_r.
  - assert (Hk : k ∉ PyDict.keys acc).
    { apply NoDup_app in Hnd as (_ & Hdisj & _). intros Hin.
      apply (Hdisj _ Hin). left. }
    rewrite PyDictFacts.set_absent by done. rewrite IH.
    + by rewrite <- app_assoc.
    + unfold PyDict.keys in *. rewrite fmap_app. simpl.
      by rewrite <- app_assoc.
Qed.

Lemma assignment_lines_ok kvs :
  Forall entry_ok kvs → Forall line_ok (assignment_lines kvs).
Proof.
  unfold assignment_lines. induction 1 as [|[k v] kvs Hkv Hkvs IH]; simpl;
    constructor; done.
Qed.

Lemma set_present {V} (before after : list (string * V)) k v0 v :
  k ∉ before.*1 →
  PyDict.set k v (before ++ (k, v0) :: after) = before ++ (k, v) :: after.
Proof.
  induction before as [|[k' v'] before IH]; simpl; intros Hk.
  - by rewrite decide_True.
  - apply not_elem_of_cons in Hk as [Hne Hk].
    rewrite decide_False by done. by rewrite IH.
Qed.

Lemma wf_middle {V} (before after : list (string * V)) k v0 :
  PyDict.wf (before ++ (k, v0) :: after) → k ∉ before.*1.
Proof.
  unfold PyDict.wf, PyDict.keys. rewrite fmap_app. simpl.
  intros Hnd Hin. apply NoDup_app in Hnd as (_ & Hdisj & _).
  apply (Hdisj _ Hin). left.
Qed.

Lemma file_text_app a b : file_text (a ++ b) = file_text a +:+ file_text b.
Proof.
  unfold file_text. induction a as [|l a IH]; simpl; [done|].
  rewrite IH. rewrite !append_assoc. simpl. done.
Qed.

(** *** Lines as they stand in a file *)

Lemma blanks_spec c s :
  blanks (String c s) = true →
  is_space c = true ∧ c ≠ LF ∧ c ≠ CR ∧ blanks s = true.
Proof.
  simpl. intros [[Hc Hn]%andb_prop Hs]%andb_prop.
  apply negb_true_iff, bool_decide_eq_false in Hn.
  split; [done|]. split; [intros ->; apply Hn; by left|].
  split; [intros ->; apply Hn; by right | done].
Qed.

Lemma blanks_contains c s :
  is_space c = false ∨ c = LF ∨ c = CR → blanks s = true → contains c s = false.
Proof.
  intros Hc. induction s as [|x s IH]; [done|].
  intros (Hx & Hlf & Hcr & Hs)%blanks_spec. simpl.
  rewrite decide_False; [by apply IH|].
  intros ->. destruct Hc as [Hc|[->| ->]]; congruence.
Qed.

Lemma lstrip_blanks a s : blanks a = true → lstrip (a +:+ s) = lstrip s.
Proof.
  induction a as [|c a IH]; [done|].
  intros (Hc & _ & _ & Ha)%blanks_spec. simpl. rewrite Hc. by apply IH.
Qed.

Lemma rstrip_blanks_nil b : blanks b = true → rstrip b = EmptyString.
Proof.
  induction b as [|c b IH]; [done|].
  intros (Hc & _ & _ & Hb)%blanks_spec. simpl. rewrite IH by done.
  by rewrite Hc.
Qed.

Lemma rstrip_blanks s b : blanks b = true → rstrip (s +:+ b) = rstrip s.
Proof. intros Hb. by rewrite rstrip_app, rstrip_blanks_nil. Qed.

Lemma lstrip_app_blanks s b :
  blanks b = true →
  lstrip (s +:+ b) = match lstrip s with
                     | EmptyString => EmptyString
                     | r => r +:+ b
                     end.
Proof.
  intros Hb. induction s as [|c s IH]; simpl.
  - rewrite <- (append_nil_r b) at 1. rewrite lstrip_blanks by done. done.
  - destruct (is_space c); [exact IH | done].
Qed.

Lemma strip_blanks a s b :
  blanks a = true → blanks b = true → strip (a +:+ s +:+ b) = strip s.
Proof.
  intros Ha Hb. unfold strip. rewrite lstrip_blanks by done.
  rewrite lstrip_app_blanks by done.
  destruct (lstrip s) as [|c r]; [done|]. by rewrite rstrip_blanks.
Qed.

Lemma read_line_strip acc x y : strip x = strip y → read_line acc x = read_line acc y.
Proof. unfold read_line. by intros ->. Qed.

(** What the first loop keeps of a line as it stands in the file, with
    or without its line feed. *)
Lemma read_line_laid acc l :
  laid_ok l →
  read_line acc (laid_body l) = record_line acc (laid_content l)
  ∧ read_line acc (laid_body l +:+ String LF EmptyString)
    = record_line acc (laid_content l).
Proof.
  intros (Hi & Hp & Hok). unfold laid_body.
  rewrite <- (read_line_line acc _ Hok). split; apply read_line_strip.
  - rewrite strip_app_LF. by apply strip_blanks.
  - rewrite !strip_app_LF. by apply strip_blanks.
Qed.

Lemma laid_body_no_LF l : laid_ok l → contains LF (laid_body l) = false.
Proof.
  intros (Hi & Hp & Hok). unfold laid_body. rewrite !contains_app.
  rewrite line_text_no_LF by done.
  by rewrite !blanks_contains by (done || by right; left).
Qed.

Lemma laid_body_no_CR l : laid_ok l → contains CR (laid_body l) = false.
Proof.
  intros (Hi & Hp & Hok). unfold laid_body. rewrite !contains_app.
  rewrite line_text_no_CR by done.
  by rewrite !blanks_contains by (done || by right; right).
Qed.

Lemma laid_text_body l : laid_text l = laid_body l +:+ end_text (laid_end l).
Proof. unfold laid_text, laid_body. by rewrite !append_assoc. Qed.

Lemma universal_newlines_app a b :
  contains CR a = false →
  universal_newlines (a +:+ b) = a +:+ universal_newlines b.
Proof.
  induction a as [|c a IH]; simpl; [done|].
  destruct (decide (CR = c)) as [<-|Hne]; [done|].
  intros Ha. rewrite decide_False by done. by rewrite IH.
Qed.

Lemma universal_newlines_laid ls :
  Forall laid_ok ls →
  universal_newlines (laid_file_text ls) = laid_file_text (translated <$> ls).
Proof.
  induction 1 as [|l ls Hl Hls IH]; [done|].
  cbn [laid_file_text foldr fmap list_fmap]. fold (laid_file_text ls).
  fold (laid_file_text (translated <$> ls)).
  rewrite !laid_text_body, !append_assoc.
  rewrite universal_newlines_app by by apply laid_body_no_CR.
  change (laid_body (translated l)) with (laid_body l). f_equal.
  destruct l as [a c b []]; simpl.
  - by rewrite IH.
  - by rewrite IH.
  - exact IH.
Qed.

Lemma readlines_no_LF s :
  contains LF s = false →
  readlines s = match s with EmptyString => [] | _ => [s] end.
Proof.
  induction s as [|c s IH]; simpl; [done|].
  destruct (decide (LF = c)) as [<-|Hne]; [done|].
  intros Hs. rewrite decide_False by done. rewrite IH by done.
  by destruct s.
Qed.

Lemma ends_ok_translated ls : ends_ok ls → ends_ok (translated <$> ls).
Proof.
  induction ls as [|l ls IH]; [done|]. simpl.
  destruct ls as [|l' ls]; [done|]. intros [Hl Hls]. split; [|by apply IH].
  by destruct l as [? ? ? []].
Qed.

Lemma laid_ok_translated l : laid_ok l → laid_ok (translated l).
Proof. by destruct l. Qed.

Lemma foldl_read_line_laid ls :
  Forall laid_ok ls → ends_ok ls →
  Forall (λ l, laid_end l ≠ CrLf) ls →
  ∀ acc,
  foldl read_line acc (readlines (laid_file_text ls))
  = foldl record_line acc (laid_content <$> ls).
Proof.
  induction 1 as [|l ls Hl Hls IH]; intros Hends Hcr acc; [done|].
  apply Forall_cons in Hcr as [Hl_cr Hcr].
  cbn [laid_file_text foldr fmap list_fmap foldl].
  fold (laid_file_text ls). rewrite laid_text_body.
  destruct (read_line_laid acc l Hl) as [Hbare Hfed].
  pose proof (laid_body_no_LF l Hl) as Hlf.
  destruct (laid_end l) eqn:Hend; [|done|].
  - simpl. rewrite append_assoc. simpl. rewrite readlines_line by done.
    simpl. rewrite Hfed. apply IH; [|done].
    simpl in Hends. destruct ls; [done | by destruct Hends].
  - destruct ls as [|l' ls]; [|by destruct Hends].
    simpl. rewrite !append_nil_r. rewrite readlines_no_LF by done.
    destruct (laid_body l) eqn:Hbody; simpl.
    + by rewrite <- Hbare.
    + by rewrite Hbare.
Qed.

(** Reading a file of well-formed lines, however they are laid out,
    gives their assignments. *)
Lemma read_properties_laid ls :
  Forall laid_ok ls → ends_ok ls →
  read_properties (laid_file_text ls) = assignments (laid_content <$> ls).
Proof.
  intros Hok Hends. unfold read_properties, assignments.
  rewrite universal_newlines_laid by done.
  rewrite foldl_read_line_laid.
  - f_equal. rewrite <- list_fmap_compose. by apply list_fmap_ext.
  - apply Forall_fmap. eapply Forall_impl; [exact Hok|].
    intros l. apply laid_ok_translated.
  - by apply ends_ok_translated.
  - apply Forall_fmap, Forall_forall. intros l _. by destruct l as [? ? ? []].
Qed.

(** C6. [update_server_properties] fails without writing when the server
    or its [server.properties] does not exist, with [False] in both
    cases. On a file of well-formed lines, however they are indented,
    padded and ended, and for a well-formed key and value, it succeeds
    and the new file is one assignment line for each key of the old
    file, in the order of their first assignment, with the last value
    that the old file gave them, except that [key] has [value]: in its
    place when the old file assigns it, as a new last line when it does
    not. Comments and lines without [=] are not written back. In a file
    of assignments to distinct keys, as the operation itself writes it,
    every other line is therefore what it was. *)
Theorem update_server_properties_spec (name key value : string) (w : World) :
  (PyDict.mem name (servers w) = false →
     update_server_properties name key value w = (false, w))
  ∧ (props_files (fs w) !! name = None →
     update_server_properties name key value w = (false, w))
  ∧ (∀ ls,
       PyDict.mem name (servers w) = true →
       props_files (fs w) !! name = Some (laid_file_text ls) →
       Forall laid_ok ls → ends_ok ls →
       property_name_ok key = true → property_value_ok value = true →
       update_server_properties name key value w
       = (true, set_fs (set_props_files
            <[name := file_text (assignment_lines
                         (PyDict.set key value
                            (assignments (laid_content <$> ls))))]>) w)
       ∧ (∀ before v after,
            assignments (laid_content <$> ls) = before ++ (key, v) :: after →
            PyDict.set key value (assignments (laid_content <$> ls))
            = before ++ (key, value) :: after)
       ∧ (key ∉ (assignments (laid_content <$> ls)).*1 →
            PyDict.set key value (assignments (laid_content <$> ls))
            = assignments (laid_content <$> ls) ++ [(key, value)]))
  ∧ (∀ before v after,
       PyDict.mem name (servers w) = true →
       props_files (fs w) !! name
         = Some (file_text (assignment_lines (before ++ (key, v) :: after))) →
       Forall entry_ok (before ++ (key, v) :: after) →
       NoDup (before ++ (key, v) :: after).*1 →
       property_value_ok value = true →
       update_server_properties name key value w
       = (true, set_fs (set_props_files
            <[name := file_text (assignment_lines
                         (before ++ (key, value) :: after))]>) w))
  ∧ (∀ kvs,
       PyDict.mem name (servers w) = true →
       props_files (fs w) !! name = Some (file_text (assignment_lines kvs)) →
       Forall entry_ok kvs → NoDup kvs.*1 → key ∉ kvs.*1 →
       property_name_ok key = true → property_value_ok value = true →
       update_server_properties name key value w
       = (true, set_fs (set_props_files
            <[name := file_text (assignment_lines kvs)
                      +:+ line_text (Assignment key value)
                      +:+ String LF EmptyString]>) w)).
Proof.
  assert (Hgen : ∀ ls,
    PyDict.mem name (servers w) = true →
    props_files (fs w) !! name = Some (file_text ls) →
    Forall line_ok ls →
    update_server_properties name key value w
    = (true, set_fs (set_props_files
         <[name := file_text (assignment_lines
                      (PyDict.set key value (assignments ls)))]>) w)).
  { intros ls Hm Hf Hok.
    rewrite (update_server_properties_written name key value w _ Hm Hf).
    by rewrite read_properties_file_text, write_properties_file_text. }
  split; [apply update_server_properties_unknown|].
  split; [apply update_server_properties_missing|].
  split; [|split].
  - intros ls Hm Hf Hok Hends Hkey Hvalue. split; [|split].
    + rewrite (update_server_properties_written name key value w _ Hm Hf).
      by rewrite read_properties_laid, write_properties_file_text.
    + intros before v after Heq. rewrite Heq. apply set_present.
      eapply wf_middle. rewrite <- Heq. apply assignments_wf.
    + intros Hk. by apply PyDictFacts.set_absent.
  - intros before v after Hm Hf Hok Hnd Hvalue.
    rewrite (Hgen _ Hm Hf) by by apply assignment_lines_ok.
    rewrite assignments_lines by done.
    rewrite set_present; [done|].
    by eapply wf_middle.
  - intros kvs Hm Hf Hok Hnd Hk Hkey Hvalue.
    rewrite (Hgen _ Hm Hf) by by apply assignment_lines_ok.
    rewrite assignments_lines by done.
    rewrite PyDictFacts.set_absent by done.
    unfold assignment_lines. rewrite fmap_app, file_text_app. done.
Qed.

(** ** State store *)

Lemma concat_chunks_snoc chunks c :
  concat_chunks (chunks ++ [c]) = concat_chunks chunks +:+ c.
Proof.
  unfold concat_chunks. induction chunks as [|x chunks IH]; simpl.
  - apply append_nil_r.
  - by rewrite IH, append_assoc.
Qed.

Lemma run_writes cur chunks :
  foldl file_step (Some cur) (FWrite <$> chunks) =
  Some (cur +:+ concat_chunks chunks).
Proof.
  revert cur. induction chunks as [|c chunks IH]; intros cur; simpl.
  - by rewrite append_nil_r.
  - rewrite IH. by rewrite append_assoc.
Qed.

Section state_store_facts.
Context `{JsonLib}.

Lemma run_save_ops states f :
  run_file_ops (save_ops states) f = Some (concat_chunks (json_dump states)).
Proof.
  unfold run_file_ops, save_ops. simpl. rewrite foldl_app. simpl.
  by rewrite run_writes.
Qed.

Lemma save_server_states_world w :
  save_server_states w =
  (tt, set_fs (set_state_file (Some (concat_chunks (json_dump (states_of w))))) w).
Proof.
  unfold save_server_states, bind, gets, modify, set_fs. cbv beta.
  by rewrite run_save_ops.
Qed.

Lemma concat_chunks_app a b :
  concat_chunks (a ++ b) = concat_chunks a +:+ concat_chunks b.
Proof.
  unfold concat_chunks. induction a as [|x a IH]; simpl; [done|].
  by rewrite IH, append_assoc.
Qed.

Lemma observable_writes cur chunks s :
  s ∈ observable ((FWrite <$> chunks) ++ [FClose]) (Some cur) →
  ∃ n, s = Some (cur +:+ concat_chunks (take n chunks)).
Proof.
  revert cur. induction chunks as [|c chunks IH]; intros cur; simpl.
  - intros Hs. exists 0%nat. simpl. rewrite append_nil_r.
    apply elem_of_cons in Hs as [->|Hs]; [done|].
    by apply list_elem_of_singleton in Hs as ->.
  - intros Hs. apply elem_of_cons in Hs as [->|Hs].
    + exists 0%nat. simpl. by rewrite append_nil_r.
    + destruct (IH _ Hs) as [n ->]. exists (S n). simpl.
      by rewrite append_assoc.
Qed.

(** C1, as the code has it. [save_server_states] rewrites the state file
    in place: [open(state_file, 'w')] empties the file and the chunks of
    the serialisation are appended to it, so that what can be found in
    the file during a save is the old content, the empty file or a
    leading part of the new serialisation; when the save has completed
    the file holds the whole serialisation, and nothing else of the
    manager has changed. *)
Theorem save_server_states_in_place (w : World) :
  let chunks := json_dump (states_of w) in
  save_server_states w =
    (tt, set_fs (set_state_file (Some (concat_chunks chunks))) w)
  ∧ Some EmptyString ∈ observable (save_ops (states_of w)) (state_file (fs w))
  ∧ ∀ s, s ∈ observable (save_ops (states_of w)) (state_file (fs w)) →
         s = state_file (fs w)
         ∨ ∃ written rest, s = Some written
                           ∧ concat_chunks chunks = written +:+ rest.
Proof.
  intros chunks. split; [apply save_server_states_world|]. split.
  - unfold save_ops. simpl. right.
    destruct (FWrite <$> json_dump (states_of w)); simpl; left.
  - unfold save_ops. simpl. intros s Hs.
    apply elem_of_cons in Hs as [->|Hs]; [by left|]. right.
    apply observable_writes in Hs as [n ->].
    exists (concat_chunks (take n chunks)), (concat_chunks (drop n chunks)).
    split; [done|]. by rewrite <- concat_chunks_app, take_drop.
Qed.

Lemma ServerConfig_init_asdict server :
  match asdict server with
  | JObj kwargs => ServerConfig_init kwargs = Some server
  | _ => False
  end.
Proof.
  destruct server as [n v m p mu su st pi ls rc cc].
  destruct mu, su, pi, ls; reflexivity.
Qed.

Lemma states_of_fleet w :
  states_of w = JObj ((λ ns, (ns.1, asdict ns.2)) <$> fleet w).
Proof.
  unfold states_of, fleet. f_equal. rewrite <- list_fmap_compose.
  apply list_fmap_ext. by intros _ [n l] _.
Qed.

Lemma fleet_alloc w name server :
  closed w → name ∉ PyDict.keys (servers w) →
  let w' := set_servers (PyDict.set name (length (heap w)))
              (set_heap (λ h, h ++ [server]) w) in
  fleet w' = fleet w ++ [(name, server)] ∧ closed w'
  ∧ PyDict.keys (servers w') = PyDict.keys (servers w) ++ [name].
Proof.
  intros Hcl Hname w'. unfold fleet, closed, w' in *. simpl.
  rewrite PyDictFacts.set_absent by done.
  split; [|split].
  - rewrite fmap_app. simpl. f_equal.
    + apply Forall_fmap_ext_1. eapply Forall_impl; [exact Hcl|].
      intros [n l] Hl. simpl in *. f_equal.
      by rewrite lookup_total_app_l.
    + f_equal. f_equal. rewrite lookup_total_app_r by done.
      by rewrite Nat.sub_diag.
  - apply Forall_app. split.
    + eapply Forall_impl; [exact Hcl|]. intros [n l] Hl. simpl in *.
      rewrite length_app. simpl. lia.
    + constructor; [|constructor]. simpl. rewrite length_app. simpl. lia.
  - unfold PyDict.keys. by rewrite fmap_app.
Qed.

Lemma load_items_fleet (L : list (string * ServerConfig)) w :
  closed w → NoDup (PyDict.keys (servers w) ++ L.*1) →
  (load_items ((λ ns, (ns.1, asdict ns.2)) <$> L) w).1 = Returns tt
  ∧ fleet (load_items ((λ ns, (ns.1, asdict ns.2)) <$> L) w).2 = fleet w ++ L.
Proof.
  revert w. induction L as [|[n s] L IH]; intros w Hcl Hnd.
  - simpl. unfold_monad. by rewrite app_nil_r.
  - assert (Hn : n ∉ PyDict.keys (servers w)).
    { apply NoDup_app in Hnd as (_ & Hdisj & _). intros Hin.
      apply (Hdisj _ Hin). left. }
    destruct (fleet_alloc w n s Hcl Hn) as (Hfleet & Hcl' & Hkeys).
    cbn [fmap list_fmap load_items fst snd].
    pose proof (ServerConfig_init_asdict s) as Hinit.
    destruct (asdict s) as [| | | |kwargs| |]; try done. rewrite Hinit.
    unfold alloc. unfold bind at 1 2 3 4 5. unfold gets, modify, ret.
    set (w1 := set_servers _ _) in *.
    assert (Hstep : ∀ w2, servers w2 = servers w1 → heap w2 = heap w1 →
      (load_items ((λ ns, (ns.1, asdict ns.2)) <$> L) w2).1 = Returns tt
      ∧ fleet (load_items ((λ ns, (ns.1, asdict ns.2)) <$> L) w2).2
        = fleet w ++ (n, s) :: L).
    { intros w2 Hs Hh. destruct (IH w2) as [Hr Hf].
      - unfold closed. by rewrite Hs, Hh.
      - rewrite Hs, Hkeys. simpl in Hnd. by rewrite <- app_assoc.
      - split; [done|]. rewrite Hf. unfold fleet at 1. rewrite Hs, Hh.
        fold (fleet w1). rewrite Hfleet. by rewrite <- app_assoc. }
    destruct (decide (status s = value RUNNING)); unfold bind; by apply Hstep.
Qed.

Lemma load_server_states_new c f text items :
  state_file f = Some text → json_load text = Some (JObj items) →
  load_server_states (new_manager c f) = load_items items (new_manager c f).
Proof.
  intros Hf Hj. unfold load_server_states, bind, gets. simpl.
  by rewrite Hf, Hj.
Qed.

(** A fleet that is saved and then loaded by a new manager from the
    same files is the fleet that was saved, name by name and attribute
    by attribute, with a [json] module that reads back what it wrote
    for this fleet. *)
Lemma load_after_save (w : World) :
  PyDict.wf (servers w) →
  json_load (concat_chunks (json_dump (states_of w))) = Some (states_of w) →
  let saved := (save_server_states w).2 in
  (MinecraftServerManager_init (config w) (fs saved)).1 = Returns tt
  ∧ fleet (MinecraftServerManager_init (config w) (fs saved)).2 = fleet w.
Proof.
  intros Hwf Hjson saved. unfold saved. rewrite save_server_states_world.
  unfold MinecraftServerManager_init.
  rewrite states_of_fleet in Hjson at 2.
  erewrite load_server_states_new; [|reflexivity|exact Hjson].
  destruct (load_items_fleet (fleet w)
              (new_manager (config w)
                 (fs (set_fs (set_state_file
                    (Some (concat_chunks (json_dump (states_of w))))) w))))
    as [Hr Hf].
  - constructor.
  - simpl. unfold fleet. rewrite <- list_fmap_compose. exact Hwf.
  - split; [exact Hr | exact Hf].
Qed.

End state_store_facts.

(** ** The [json] module reads back what it writes *)

Module PyJsonFacts.
Import PyJson.

Lemma scan_string_escape_char c t :
  scan_string (escape_char c +:+ t)
  = match scan_string t with
    | Some (r, t') => Some (String c r, t')
    | None => None
    end.
Proof.
  destruct c as [[] [] [] [] [] [] [] []];
    match goal with
    | |- context [escape_char ?c] =>
        let e := eval vm_compute in (escape_char c) in
        change (escape_char c) with e
    end; reflexivity.
Qed.

Lemma scan_string_escape s rest :
  scan_string (escape s +:+ String "034" rest) = Some (s, rest).
Proof.
  induction s as [|c s IH]; simpl.
  - done.
  - rewrite append_assoc, scan_string_escape_char. by rewrite IH.
Qed.

Lemma scan_string_encode_str s rest :
  ∃ t, encode_str s +:+ rest = String "034" t ∧ scan_string t = Some (s, rest).
Proof.
  exists (escape s +:+ String "034" rest). split.
  - unfold encode_str. simpl. f_equal. by rewrite append_assoc.
  - apply scan_string_escape.
Qed.

Lemma skip_ws_spaces n t : skip_ws (spaces n +:+ t) = skip_ws t.
Proof. induction n as [|n IH]; simpl; [done|]. exact IH. Qed.

Lemma skip_ws_newline_indent level t :
  skip_ws (newline_indent level +:+ t) = skip_ws t.
Proof. unfold newline_indent. simpl. apply skip_ws_spaces. Qed.

Lemma scan_digits_app ds rest :
  all_digits ds = true →
  match rest with String c _ => is_digit c = false | EmptyString => True end →
  scan_digits (ds +:+ rest) = (ds, rest).
Proof.
  intros Hds Hrest. induction ds as [|c ds IH]; simpl in *.
  - destruct rest as [|c rest]; simpl; [done|]. by rewrite Hrest.
  - apply andb_prop in Hds as [Hc Hds]. rewrite Hc. by rewrite IH.
Qed.

Lemma digits_value_app acc a b :
  digits_value acc (a +:+ b)
  = match digits_value acc a with
    | Some v => digits_value v b
    | None => None
    end.
Proof.
  revert acc. induction a as [|c a IH]; intros acc; simpl; [done|].
  destruct (is_digit c); [apply IH | done].
Qed.

Lemma all_digits_app a b :
  all_digits (a +:+ b) = all_digits a && all_digits b.
Proof.
  induction a as [|c a IH]; simpl; [done|]. by rewrite IH, andb_assoc.
Qed.

Lemma pretty_N_char_digit x :
  (x < 10)%N →
  is_digit (pretty_N_char x) = true
  ∧ Z.of_N (N_of_ascii (pretty_N_char x)) - 48 = Z.of_N x
  ∧ (0 < x → pretty_N_char x ≠ "0"%char)%N.
Proof.
  intros Hx.
  assert (x = 0 ∨ x = 1 ∨ x = 2 ∨ x = 3 ∨ x = 4 ∨ x = 5 ∨ x = 6 ∨ x = 7
          ∨ x = 8 ∨ x = 9)%N as Hcases by lia.
  repeat (destruct Hcases as [->|Hcases]); try subst x;
    (split; [done|]; split; [done|]; intros ?; first [done | lia]).
Qed.

(** The decimal digits of a positive number: the first one is not a
    zero, and they add up to the number. *)
Lemma pretty_N_go_digits x :
  (0 < x)%N →
  ∃ c ds, (∀ s, pretty_N_go x s = String c (ds +:+ s))
          ∧ is_digit c = true ∧ c ≠ "0"%char ∧ all_digits ds = true
          ∧ digits_value 0 (String c ds) = Some (Z.of_N x).
Proof.
  induction (N.lt_wf_0 x) as [x _ IH]. intros Hx.
  destruct (pretty_N_char_digit (x `mod` 10)) as (Hd & Hv & Hnz).
  { by apply N.mod_lt. }
  destruct (decide (x < 10)%N) as [Hsmall|Hbig].
  - exists (pretty_N_char x), EmptyString.
    assert (Hdiv : (x `div` 10 = 0)%N) by by apply N.div_small.
    assert (Hmod : (x `mod` 10 = x)%N) by by apply N.mod_small.
    rewrite Hmod in Hd, Hv, Hnz.
    split.
    { intros s. rewrite pretty_N_go_step by done.
      by rewrite Hdiv, Hmod, pretty_N_go_0. }
    split; [done|]. split; [by apply Hnz|]. split; [done|].
    simpl. rewrite Hd. f_equal. lia.
  - assert (Hdiv : (0 < x `div` 10)%N) by (apply N.div_str_pos; lia).
    destruct (IH (x `div` 10)%N) as (c & ds & Hgo & Hc & Hne & Hds & Hval);
      [by apply N.div_lt | done |].
    exists c, (ds +:+ String (pretty_N_char (x `mod` 10)) EmptyString).
    split.
    { intros s. rewrite pretty_N_go_step by done. rewrite Hgo.
      f_equal. by rewrite append_assoc. }
    split; [done|]. split; [done|]. split.
    { rewrite all_digits_app, Hds. simpl. by rewrite Hd. }
    change (String c (ds +:+ String (pretty_N_char (x `mod` 10)) EmptyString))
      with (String c ds +:+ String (pretty_N_char (x `mod` 10)) EmptyString).
    rewrite digits_value_app, Hval. simpl. rewrite Hd. f_equal.
    rewrite Hv. rewrite (N.div_mod x 10) at 3 by done. lia.
Qed.

Lemma is_digit_ne c x : is_digit c = true → is_digit x = false → c ≠ x.
Proof. by intros Hc Hx ->; congruence. Qed.

Lemma delimited_head rest :
  delimited rest →
  match rest with
  | String c _ =>
      is_digit c = false ∧ c ≠ "."%char ∧ c ≠ "e"%char ∧ c ≠ "E"%char
  | EmptyString => True
  end.
Proof.
  destruct rest as [|c rest]; [done|]. simpl.
  by intros [-> | ->].
Qed.

Lemma match_fraction_none rest :
  delimited rest → match_fraction rest = (EmptyString, rest).
Proof.
  intros Hrest%delimited_head. destruct rest as [|c rest]; [done|].
  destruct Hrest as (_ & Hdot & _). simpl. by rewrite decide_False.
Qed.

Lemma match_exponent_none rest :
  delimited rest → match_exponent rest = (EmptyString, rest).
Proof.
  intros Hrest%delimited_head. destruct rest as [|c rest]; [done|].
  destruct Hrest as (_ & _ & He & HE). simpl.
  rewrite bool_decide_eq_false_2; [done|]. by intros [?|?].
Qed.

Lemma delimited_not_digit rest :
  delimited rest →
  match rest with String c _ => is_digit c = false | EmptyString => True end.
Proof.
  intros Hrest%delimited_head. destruct rest; [done|]. by destruct Hrest.
Qed.

(** A natural number is read back. *)
Lemma match_integer_pretty (x : N) rest :
  delimited rest →
  ∃ ds, pretty x = ds ∧ all_digits ds = true
        ∧ match_integer (ds +:+ rest) = Some (ds, rest)
        ∧ digits_value 0 ds = Some (Z.of_N x)
        ∧ match ds with String c _ => is_digit c = true | EmptyString => False end.
Proof.
  intros Hrest. unfold pretty, pretty_N.
  destruct (decide (x = 0)%N) as [->|Hx].
  - exists "0". by repeat split.
  - destruct (pretty_N_go_digits x) as (c & ds & Hgo & Hc & Hne & Hds & Hval);
      [lia|].
    exists (String c ds). rewrite Hgo, append_nil_r.
    split; [done|]. split; [by simpl; rewrite Hc, Hds|]. split; [|done].
    simpl. rewrite decide_False by done. rewrite Hc.
    by rewrite scan_digits_app by (done || by apply delimited_not_digit).
Qed.

Lemma match_number_pretty (n : Z) rest :
  delimited rest → match_number (pretty n +:+ rest) = Some (JInt n, rest).
Proof.
  intros Hrest.
  assert (Hnat : ∀ x : N,
    match_number (pretty x +:+ rest) = Some (JInt (Z.of_N x), rest)).
  { intros x.
    destruct (match_integer_pretty x rest Hrest) as (ds & -> & Hds & Hm & Hv & Hhd).
    unfold match_number. destruct ds as [|c ds]; [done|]. simpl in Hhd.
    cbn [String.append]. rewrite decide_False by (by intros ->).
    change (String c (ds +:+ rest)) with (String c ds +:+ rest).
    rewrite Hm, match_fraction_none, match_exponent_none by done.
    by rewrite Hv. }
  destruct n as [|p|p].
  - apply (Hnat 0%N).
  - apply (Hnat (Npos p)).
  - change (pretty (Z.neg p)) with ("-" +:+ pretty (Npos p)).
    destruct (match_integer_pretty (Npos p) rest Hrest)
      as (ds & -> & Hds & Hm & Hv & Hhd).
    unfold match_number. cbn [String.append]. rewrite decide_True by done.
    rewrite Hm, match_fraction_none, match_exponent_none by done.
    by rewrite Hv.
Qed.

Lemma match_integer_part i tail :
  integer_part i → ends_digits tail → match_integer (i +:+ tail) = Some (i, tail).
Proof.
  intros [->|(c & ds & -> & Hc & Hne & Hds)] Htail; [done|].
  unfold match_integer. cbn [String.append].
  rewrite decide_False by done. rewrite Hc.
  by rewrite scan_digits_app.
Qed.

Lemma match_fraction_part f tail :
  fraction_part f → ends_digits tail →
  (f = EmptyString → match tail with String c _ => c ≠ "."%char | _ => True end) →
  match_fraction (f +:+ tail) = (f, tail).
Proof.
  intros [->|(ds & -> & Hne & Hds)] Htail Hdot.
  - cbn [String.append]. destruct tail as [|c tail]; [done|].
    unfold match_fraction.
    rewrite decide_False; [done|]. by apply Hdot.
  - unfold match_fraction. cbn [String.append].
    rewrite decide_True by done. rewrite scan_digits_app by done.
    by destruct ds.
Qed.

Lemma match_exponent_part e rest :
  exponent_part e → delimited rest → match_exponent (e +:+ rest) = (e, rest).
Proof.
  intros [->|(sign & ds & -> & Hsign & Hne & Hds)] Hrest.
  - by apply match_exponent_none.
  - pose proof (delimited_not_digit rest Hrest) as Hstop.
    destruct ds as [|d ds]; [done|].
    assert (Hall : all_digits (String d ds) = true) by done.
    simpl in Hds. apply andb_prop in Hds as [Hd Hds].
    unfold match_exponent. cbn [String.append].
    rewrite bool_decide_eq_true_2 by (by left).
    destruct Hsign as [->|[->| ->]]; cbn [String.append].
    + rewrite bool_decide_eq_false_2.
      2:{ intros [->| ->]; discriminate Hd. }
      change (String d (ds +:+ rest)) with (String d ds +:+ rest).
      by rewrite scan_digits_app.
    + rewrite bool_decide_eq_true_2 by (by left).
      change (String d (ds +:+ rest)) with (String d ds +:+ rest).
      by rewrite scan_digits_app.
    + rewrite bool_decide_eq_true_2 by (by right).
      change (String d (ds +:+ rest)) with (String d ds +:+ rest).
      by rewrite scan_digits_app.
Qed.

Lemma match_number_finite s rest :
  finite_repr s → delimited rest →
  match_number (s +:+ rest) = Some (JFloat (Float s), rest).
Proof.
  intros (negative & i & f & e & -> & Hi & Hf & He & Hfe) Hrest.
  pose proof (delimited_head rest Hrest) as Hhead.
  assert (Hstop_e : ends_digits (e +:+ rest)
                    ∧ match e +:+ rest with String c _ => c ≠ "."%char | _ => True end).
  { destruct He as [->|(sign & ds & -> & _)]; simpl.
    - destruct rest as [|c rest]; [done|]. by destruct Hhead as (? & ? & _).
    - done. }
  destruct Hstop_e as [Hstop_e Hdot_e].
  assert (Hstop_f : ends_digits (f +:+ e +:+ rest)).
  { destruct Hf as [->|(ds & -> & _)]; simpl; done. }
  assert (Hnum : ∀ t, t = i +:+ f +:+ e +:+ rest →
    match match_integer t with
    | Some (integer, t1) =>
        let '(frac, t2) := match_fraction t1 in
        let '(exp, t3) := match_exponent t2 in
        match frac, exp with
        | EmptyString, EmptyString =>
            match digits_value 0 integer with
            | Some n => Some (JInt (if negative then - n else n), t3)
            | None => None
            end
        | _, _ =>
            Some (JFloat (Float ((if negative then "-" else EmptyString)
                                 +:+ integer +:+ frac +:+ exp)), t3)
        end
    | None => None
    end = Some (JFloat (Float ((if negative then "-" else EmptyString)
                               +:+ i +:+ f +:+ e)), rest)).
  { intros t ->. rewrite match_integer_part by done.
    rewrite match_fraction_part by (done || by intros ->).
    rewrite match_exponent_part by done.
    destruct f as [|cf f]; [|done]. destruct e as [|ce e]; [|done].
    by destruct Hfe. }
  assert (Hs : ((if negative then "-" else EmptyString) +:+ i +:+ f +:+ e) +:+ rest
               = (if negative then "-" else EmptyString)
                 +:+ (i +:+ f +:+ e +:+ rest))
    by (by rewrite !append_assoc).
  rewrite Hs. unfold match_number. destruct negative; cbn [String.append].
  - rewrite decide_True by done. by apply Hnum.
  - assert (Hhd : ∃ c t, i +:+ f +:+ e +:+ rest = String c t ∧ c ≠ "-"%char).
    { destruct Hi as [->|(c & ds & -> & Hc & _)]; cbn [String.append];
        eexists _, _; (split; [done|]); [done|]. by intros ->. }
    destruct Hhd as (c & t & Heq & Hc).
    rewrite Heq. rewrite decide_False by done.
    rewrite <- Heq. by apply Hnum.
Qed.

Lemma concat_chunks_cons c chunks :
  concat_chunks (c :: chunks) = c +:+ concat_chunks chunks.
Proof. done. Qed.

Lemma concat_chunks_one c : concat_chunks [c] = c.
Proof. unfold concat_chunks. simpl. apply append_nil_r. Qed.

Lemma length_append a b :
  String.length (a +:+ b) = (String.length a + String.length b)%nat.
Proof. induction a as [|c a IH]; simpl; [done | by rewrite IH]. Qed.

(** The dictionary of an object with several items, by its items. *)
Lemma iterencode_object level k v items :
  iterencode level (JObj ((k, v) :: items))
  = ["{"; newline_indent (S level)]
    ++ [encode_str k; ": "] ++ iterencode (S level) v
    ++ iterencode_items (S level) items
    ++ [newline_indent level; "}"].
Proof.
  cbn [iterencode]. do 5 f_equal.
  induction items as [|[k' v'] items IH]; [done|].
  cbn [iterencode_items]. rewrite <- IH. done.
Qed.

Lemma text_object level k v items :
  dump_text level (JObj ((k, v) :: items))
  = String "{" (newline_indent (S level) +:+ encode_str k +:+ ": "
      +:+ dump_text (S level) v +:+ dump_items_text (S level) items
      +:+ newline_indent level +:+ "}").
Proof.
  unfold dump_text, dump_items_text. rewrite iterencode_object.
  rewrite !concat_chunks_app. cbn [concat_chunks foldr app].
  cbn [String.append]. f_equal. rewrite !append_nil_r.
  rewrite ?append_assoc. done.
Qed.

Lemma items_text_cons level k v items :
  dump_items_text level ((k, v) :: items)
  = String "," (newline_indent level +:+ encode_str k +:+ ": "
      +:+ dump_text level v +:+ dump_items_text level items).
Proof.
  unfold dump_text, dump_items_text. cbn [iterencode_items].
  rewrite !concat_chunks_app. cbn [concat_chunks foldr app].
  cbn [String.append]. f_equal. rewrite ?append_assoc. done.
Qed.

(** *** Scalars *)

Lemma scan_once_number fuel c t r :
  is_digit c = true ∨ c = "-"%char →
  match_number (String c t) = Some r →
  scan_once (S fuel) (String c t) = Some r.
Proof.
  intros Hc Hm. cbn [scan_once].
  assert (Hq : c ≠ "034"%char) by (intros ->; by destruct Hc).
  assert (Hb : c ≠ "{"%char) by (intros ->; by destruct Hc).
  assert (Hk : c ≠ "["%char) by (intros ->; by destruct Hc).
  assert (Hn : "n"%char ≠ c) by (intros <-; by destruct Hc).
  assert (Ht : "t"%char ≠ c) by (intros <-; by destruct Hc).
  assert (Hf : "f"%char ≠ c) by (intros <-; by destruct Hc).
  rewrite !decide_False by done.
  cbn [strip_prefix]. rewrite !decide_False by done.
  by rewrite Hm.
Qed.

Lemma pretty_Z_head (n : Z) :
  ∃ c t, pretty n = String c t ∧ (is_digit c = true ∨ c = "-"%char).
Proof.
  assert (Hnat : ∀ x : N, ∃ c t, pretty x = String c t ∧ is_digit c = true).
  { intros x. destruct (match_integer_pretty x EmptyString I)
      as (ds & -> & _ & _ & _ & Hhd).
    destruct ds as [|c t]; [done|]. by exists c, t. }
  destruct n as [|p|p].
  - by exists "0"%char, EmptyString; split; [|left].
  - destruct (Hnat (Npos p)) as (c & t & Hp & Hc). exists c, t.
    split; [exact Hp | by left].
  - exists "-"%char, (pretty (Npos p)). by split; [|right].
Qed.

Lemma finite_repr_head s :
  finite_repr s →
  ∃ c t, s = String c t ∧ (is_digit c = true ∨ c = "-"%char)
         ∧ s ≠ "nan" ∧ s ≠ "inf" ∧ s ≠ "-inf".
Proof.
  intros (negative & i & f & e & -> & Hi & _).
  destruct negative; cbn [String.append].
  - eexists _, _. split; [done|]. split; [by right|].
    repeat split; try done.
    destruct Hi as [->|(c & ds & -> & Hc & _)]; cbn [String.append]; [done|].
    intros [= -> _]. done.
  - destruct Hi as [->|(c & ds & -> & Hc & _)]; cbn [String.append];
      eexists _, _; (split; [done|]); (split; [by left|]);
      repeat split; try done; intros [= -> _]; done.
Qed.

Lemma floatstr_finite x :
  finite_repr (float_repr x) → floatstr x = float_repr x.
Proof.
  intros (c & t & Hx & _ & Hnan & Hinf & Hninf)%finite_repr_head.
  unfold floatstr. by rewrite !decide_False.
Qed.

(** What [json.dump] writes for a scalar is read back, whatever the
    nesting, and does not start with white space. *)
Lemma scan_once_scalar fuel level v rest :
  match v with JObj _ => False | _ => True end →
  json_ok v → delimited rest →
  scan_once (S fuel) (dump_text level v +:+ rest) = Some (v, rest)
  ∧ skip_ws (dump_text level v +:+ rest) = dump_text level v +:+ rest.
Proof.
  intros Hv Hok Hrest. unfold dump_text.
  destruct v as [|n|x|s|items|b|elements];
    [| | | |done|by destruct b|done];
    cbn [iterencode]; rewrite concat_chunks_one.
  - done.
  - destruct (pretty_Z_head n) as (c & t & Hp & Hc).
    pose proof (match_number_pretty n rest Hrest) as Hm.
    rewrite Hp in *. cbn [String.append] in *. split.
    + by apply scan_once_number.
    + cbn [skip_ws]. rewrite bool_decide_eq_false_2; [done|].
      intros [->|[->|[->| ->]]]; by destruct Hc.
  - destruct x as [s]. cbn [json_ok] in Hok.
    destruct Hok as [Hfin|Hs].
    2:{ simpl in Hs. destruct Hs as [->|[->| ->]]; split; reflexivity. }
    rewrite floatstr_finite by done. simpl in *.
    destruct (finite_repr_head s Hfin) as (c & t & -> & Hc & _).
    pose proof (match_number_finite _ rest Hfin Hrest) as Hm.
    cbn [String.append] in *. split.
    + by apply scan_once_number.
    + cbn [skip_ws]. rewrite bool_decide_eq_false_2; [done|].
      intros [->|[->|[->| ->]]]; by destruct Hc.
  - destruct (scan_string_encode_str s rest) as (t & -> & Hscan).
    split; [|done]. cbn [scan_once]. rewrite decide_True by done.
    by rewrite Hscan.
Qed.

Lemma foldl_set_fresh (pairs items : list (string * json)) :
  NoDup (PyDict.keys pairs ++ items.*1) →
  foldl (λ d kv, PyDict.set kv.1 kv.2 d) pairs items = pairs ++ items.
Proof.
  revert pairs. induction items as [|[k v] items IH]; intros pairs Hnd; simpl.
  - by rewrite app_nil_r.
  - assert (Hk : k ∉ PyDict.keys pairs).
    { apply NoDup_app in Hnd as (_ & Hdisj & _). intros Hin.
      apply (Hdisj _ Hin). left. }
    rewrite PyDictFacts.set_absent by done.
    rewrite IH.
    + by rewrite <- app_assoc.
    + unfold PyDict.keys in *. rewrite fmap_app. simpl.
      by rewrite <- app_assoc.
Qed.

Lemma delimited_items_text level items outer rest :
  delimited (dump_items_text level items +:+ newline_indent outer +:+ rest).
Proof.
  destruct items as [|[k v] items].
  - unfold dump_items_text. simpl. by right.
  - rewrite items_text_cons. simpl. by left.
Qed.

Lemma skip_ws_colon t : skip_ws (String ":" t) = String ":" t.
Proof. done. Qed.
Lemma skip_ws_comma t : skip_ws (String "," t) = String "," t.
Proof. done. Qed.
Lemma skip_ws_close t : skip_ws (String "}" t) = String "}" t.
Proof. done. Qed.
Lemma skip_ws_quote t : skip_ws (String "034" t) = String "034" t.
Proof. done. Qed.
Lemma skip_ws_space t : skip_ws (String " " t) = skip_ws t.
Proof. done. Qed.

(** The loop of [JSONObject] on the items that [json.dump] wrote, when
    the values are read back by [scan_once]. *)
Lemma parse_pairs_items (scan : string → option (json * string))
    (level outer : nat) (items : list (string * json)) :
  ∀ (n : nat) (pairs : list (string * json)) (k : string) (v : json)
    (rest : string),
  (∀ kv r, kv ∈ (k, v) :: items → delimited r →
     scan (dump_text level kv.2 +:+ r) = Some (kv.2, r)
     ∧ skip_ws (dump_text level kv.2 +:+ r) = dump_text level kv.2 +:+ r) →
  (length items < n)%nat →
  parse_pairs scan n pairs
    (escape k +:+ String "034" (String ":" (String " "
       (dump_text level v +:+ dump_items_text level items
        +:+ newline_indent outer +:+ String "}" rest))))
  = Some (JObj (foldl (λ d kv, PyDict.set kv.1 kv.2 d) pairs ((k, v) :: items)),
          rest).
Proof.
  induction items as [|[k' v'] items IH]; intros n pairs k v rest Hscan Hn.
  - destruct n as [|n]; [simpl in Hn; lia|].
    cbn [parse_pairs]. rewrite scan_string_escape.
    cbn [String.append]. rewrite skip_ws_colon, skip_ws_space.
    unfold dump_items_text at 1. cbn [iterencode_items concat_chunks foldr String.append].
    destruct (Hscan (k, v) (newline_indent outer +:+ String "}" rest))
      as [Hv Hws]; [left | by right |].
    cbn [fst snd] in Hv, Hws. rewrite Hws, Hv.
    rewrite skip_ws_newline_indent, skip_ws_close. done.
  - destruct n as [|n]; [simpl in Hn; lia|].
    cbn [parse_pairs]. rewrite scan_string_escape.
    cbn [String.append]. rewrite skip_ws_colon, skip_ws_space.
    destruct (Hscan (k, v)
                (dump_items_text level ((k', v') :: items)
                 +:+ newline_indent outer +:+ String "}" rest))
      as [Hv Hws]; [left | apply delimited_items_text |].
    cbn [fst snd] in Hv, Hws. rewrite Hws, Hv.
    rewrite items_text_cons. cbn [String.append].
    rewrite skip_ws_comma. rewrite !append_assoc.
    rewrite skip_ws_newline_indent.
    unfold encode_str at 1. cbn [String.append]. rewrite skip_ws_quote.
    rewrite !append_assoc. cbn [String.append].
    specialize (IH n (PyDict.set k v pairs) k' v' rest).
    rewrite IH; [done| |simpl in Hn; lia].
    intros kv r Hin Hr. apply Hscan; [by right | done].
Qed.

Lemma json_ok_items (items : list (string * json)) :
  foldr (λ kv P, json_ok kv.2 ∧ P) True items →
  ∀ kv, kv ∈ items → json_ok kv.2.
Proof.
  induction items as [|kv0 items IH]; simpl; intros Hok kv Hin.
  - by apply elem_of_nil in Hin.
  - destruct Hok as [H0 Hok].
    apply elem_of_cons in Hin as [->|Hin]; [done | by apply IH].
Qed.

Lemma depth_items (items : list (string * json)) (base : nat) :
  (base ≤ foldr (λ kv n, Nat.max (depth kv.2) n) base items)%nat
  ∧ ∀ kv, kv ∈ items →
      (depth kv.2 ≤ foldr (λ kv n, Nat.max (depth kv.2) n) base items)%nat.
Proof.
  induction items as [|kv0 items [IHb IH]]; simpl.
  - split; [done|]. intros kv Hin. by apply elem_of_nil in Hin.
  - split; [lia|]. intros kv Hin.
    apply elem_of_cons in Hin as [->|Hin]; [lia|].
    specialize (IH kv Hin). lia.
Qed.

(** What [json.dump] writes for a value is read back by [scan_once],
    with fuel for the nesting and the items of the value. *)
Lemma scan_once_text (fuel : nat) :
  ∀ (v : json) (level : nat) (rest : string),
  json_ok v → (depth v ≤ fuel)%nat → delimited rest →
  scan_once fuel (dump_text level v +:+ rest) = Some (v, rest)
  ∧ skip_ws (dump_text level v +:+ rest) = dump_text level v +:+ rest.
Proof.
  induction fuel as [|fuel IH]; intros v level rest Hok Hdepth Hrest.
  { destruct v; simpl in Hdepth; lia. }
  destruct v as [| | | |items| |]; try (by apply scan_once_scalar).
  destruct items as [|[k v] items].
  { split; reflexivity. }
  rewrite text_object. cbn [String.append]. rewrite !append_assoc.
  split; [|done].
  cbn [scan_once]. rewrite decide_False by done. rewrite decide_True by done.
  rewrite skip_ws_newline_indent. unfold encode_str at 1.
  cbn [String.append]. rewrite skip_ws_quote.
  rewrite !append_assoc. cbn [String.append].
  cbn [json_ok] in Hok. destruct Hok as [Hnd Hok].
  cbn [depth] in Hdepth.
  destruct (depth_items ((k, v) :: items) (length ((k, v) :: items)))
    as [Hlen Hmem].
  rewrite parse_pairs_items.
  - by rewrite foldl_set_fresh.
  - intros kv r Hin Hr. apply IH; [|specialize (Hmem kv Hin); lia|done].
    by apply (json_ok_items _ Hok).
  - simpl in Hlen, Hdepth. simpl. lia.
Qed.

Lemma depth_pos v : (1 ≤ depth v)%nat.
Proof. destruct v; simpl; lia. Qed.

Lemma finite_repr_length s : finite_repr s → (1 ≤ String.length s)%nat.
Proof.
  intros (c & t & -> & _)%finite_repr_head. simpl. lia.
Qed.

Lemma items_text_length level (items : list (string * json)) (base : nat) :
  (∀ kv, kv ∈ items → (depth kv.2 ≤ String.length (dump_text level kv.2))%nat) →
  (length items ≤ String.length (dump_items_text level items))%nat
  ∧ (foldr (λ kv n, Nat.max (depth kv.2) n) base items
     ≤ Nat.max base (String.length (dump_items_text level items)))%nat.
Proof.
  induction items as [|[k v] items IH]; intros Hv.
  - simpl. lia.
  - destruct IH as [IHn IHd]; [intros kv Hin; apply Hv; by right|].
    specialize (Hv (k, v) ltac:(left)). simpl in Hv.
    rewrite items_text_cons. cbn [foldr length String.length fst snd].
    rewrite !length_append. change (String.length ": ") with 2%nat. lia.
Qed.

(** The text that was written is long enough to serve as fuel. *)
Lemma depth_le_length (n : nat) :
  ∀ (v : json) (level : nat),
  json_ok v → (depth v ≤ n)%nat →
  (depth v ≤ String.length (dump_text level v))%nat.
Proof.
  induction n as [|n IH]; intros v level Hok Hn.
  { pose proof (depth_pos v). lia. }
  destruct v as [|z|x|s|items|b|elements];
    [| | | | |destruct b; unfold dump_text; simpl; lia|done].
  - unfold dump_text. simpl. lia.
  - unfold dump_text. cbn [iterencode]. rewrite concat_chunks_one.
    destruct (pretty_Z_head z) as (c & t & -> & _). simpl. lia.
  - unfold dump_text. cbn [iterencode]. rewrite concat_chunks_one.
    cbn [json_ok] in Hok. destruct Hok as [Hfin|Hs].
    + rewrite floatstr_finite by done.
      pose proof (finite_repr_length _ Hfin). simpl. lia.
    + destruct x as [r]. simpl in Hs.
      destruct Hs as [->|[->| ->]]; vm_compute; lia.
  - unfold dump_text. cbn [iterencode]. rewrite concat_chunks_one.
    unfold encode_str. simpl. lia.
  - destruct items as [|[k v] items]; [unfold dump_text; simpl; lia|].
    cbn [json_ok] in Hok. destruct Hok as [_ Hok].
    cbn [depth] in Hn.
    destruct (depth_items ((k, v) :: items) (length ((k, v) :: items)))
      as [_ Hmem].
    assert (Hvs : ∀ kv, kv ∈ (k, v) :: items →
              (depth kv.2 ≤ String.length (dump_text (S level) kv.2))%nat).
    { intros kv Hin. apply IH; [by apply (json_ok_items _ Hok)|].
      specialize (Hmem kv Hin). lia. }
    destruct (items_text_length (S level) items (length ((k, v) :: items)))
      as [Hlen Hd]; [intros kv Hin; apply Hvs; by right|].
    specialize (Hvs (k, v) ltac:(left)). simpl in Hvs.
    rewrite text_object. cbn [depth foldr String.length fst snd length] in *.
    rewrite !length_append.
    change (String.length ": ") with 2%nat.
    change (String.length "}") with 1%nat. lia.
Qed.

(** [json.loads] of what [json.dump] wrote for a dictionary is this
    dictionary. *)
Theorem loads_iterencode (items : list (string * json)) :
  json_ok (JObj items) →
  loads (concat_chunks (iterencode 0 (JObj items))) = Some (JObj items).
Proof.
  intros Hok. unfold loads. fold (dump_text 0 (JObj items)).
  destruct (scan_once_text (String.length (dump_text 0 (JObj items)))
              (JObj items) 0 EmptyString Hok) as [Hscan Hws]; [|done|].
  { by eapply depth_le_length. }
  rewrite append_nil_r in Hscan, Hws. by rewrite Hws, Hscan.
Qed.

End PyJsonFacts.

(** ** Save, then load *)

Section round_trip.
Local Existing Instance PyJson.python_json.

Lemma json_ok_asdict (s : ServerConfig) :
  from_option float_ok True (last_started s) → json_ok (asdict s).
Proof.
  intros Hf. unfold asdict. cbn [json_ok]. split.
  - apply (bool_decide_unpack _). vm_compute. exact I.
  - destruct s as [? ? ? ? url file ? p started ? ?]. simpl in *.
    destruct url, file, p, started; simpl; tauto.
Qed.

Lemma json_ok_states (w : World) :
  PyDict.wf (servers w) → floats_ok w → json_ok (states_of w).
Proof.
  unfold PyDict.wf, PyDict.keys, floats_ok, fleet, states_of.
  intros Hwf Hf. cbn [json_ok]. split.
  - rewrite <- list_fmap_compose.
    erewrite list_fmap_ext; [exact Hwf|]. by intros i [n l].
  - induction (servers w) as [|[n l] srv IH]; [done|].
    rewrite fmap_cons in Hf. apply Forall_cons in Hf as [Hl Hf].
    simpl. split; [by apply json_ok_asdict|].
    apply IH; [|done]. simpl in Hwf. by apply NoDup_cons in Hwf as [_ ?].
Qed.

(** What [save_server_states] wrote is read back by [json.load] as the
    dictionary that was saved. *)
Lemma json_load_saved (w : World) :
  PyDict.wf (servers w) → floats_ok w →
  json_load (concat_chunks (json_dump (states_of w))) = Some (states_of w).
Proof.
  intros Hwf Hf. pose proof (json_ok_states w Hwf Hf) as Hok.
  unfold states_of in *. by apply PyJsonFacts.loads_iterencode.
Qed.

(** C8. A fleet that is saved and then loaded by a new manager from the
    same files is the fleet that was saved, name by name and attribute
    by attribute: what [json.dump] writes to the state file, [json.load]
    reads back as the same dictionary, and [ServerConfig] rebuilds each
    descriptor from its [asdict]. The names are the keys of a
    dictionary and every [last_started] is the [repr] of a float. *)
Theorem save_load_roundtrip (w : World) :
  PyDict.wf (servers w) → floats_ok w →
  let saved := (save_server_states w).2 in
  state_file (fs saved)
    = Some (concat_chunks (PyJson.iterencode 0 (states_of w)))
  ∧ PyJson.loads (concat_chunks (PyJson.iterencode 0 (states_of w)))
    = Some (states_of w)
  ∧ (MinecraftServerManager_init (config w) (fs saved)).1 = Returns tt
  ∧ fleet (MinecraftServerManager_init (config w) (fs saved)).2 = fleet w.
Proof.
  intros Hwf Hf saved.
  pose proof (json_load_saved w Hwf Hf) as Hjson.
  split; [unfold saved; by rewrite save_server_states_world|].
  split; [exact Hjson|].
  exact (load_after_save w Hwf Hjson).
Qed.

End round_trip.

(** ** Frame reasoning for computations in [M] *)

Section preserving.
Context (R : relation World) `{!PreOrder R}.

Lemma preserving_ret {A} (a : A) : preserving R (ret a).
Proof. intros w. reflexivity. Qed.

Lemma preserving_gets {A} (f : World → A) : preserving R (gets f).
Proof. intros w. reflexivity. Qed.

Lemma preserving_bind {A B} (c : M A) (k : A → M B) :
  preserving R c → (∀ a, preserving R (k a)) → preserving R (bind c k).
Proof.
  intros Hc Hk w. unfold bind. specialize (Hc w).
  destruct (c w) as [a w1]. simpl in Hc.
  etrans; [exact Hc | apply Hk].
Qed.

Lemma preserving_modify (f : World → World) :
  (∀ w, R w (f w)) → preserving R (modify f).
Proof. intros Hf w. apply Hf. Qed.

End preserving.

(** Walks through a computation: binds, branches, and the leaves that
    the hint database [frame] knows. *)
Ltac frame_step :=
  first
    [ match goal with |- PreOrder _ => apply _ end
    | solve [eauto with frame]
    | apply preserving_ret
    | apply preserving_gets
    | apply preserving_bind; [apply _ | | intros ?]
    | progress cbv beta iota
    | match goal with
      | |- preserving _ (match ?x with _ => _ end) => destruct x
      | |- preserving _ (if ?b then _ else _) => destruct b
      | |- preserving _ (let '(_, _) := ?x in _) => destruct x
      end
    | progress unfold finish, deref, cancel, send_signal, create_task,
        release_port, get_running_count, update_server_properties, alloc ].
Ltac frame := repeat frame_step.

Create HintDb frame discriminated.

Lemma preserving_pure (R : relation World) `{!Reflexive R} {A} (c : M A) :
  (∀ w, (c w).2 = w) → preserving R c.
Proof. intros Hc w. by rewrite Hc. Qed.

(** *** The port table *)

Global Instance ports_kept_preorder : PreOrder ports_kept.
Proof.
  split; [done|]. unfold ports_kept. intros w1 w2 w3 H12 H23. congruence.
Qed.

#[local] Hint Extern 1 (preserving ports_kept (modify _)) =>
  apply preserving_modify; intros ?; reflexivity : frame.

Lemma allocate_port_ports_kept : preserving ports_kept allocate_port.
Proof. apply preserving_pure; [apply _ | apply allocate_port_frame]. Qed.
#[local] Hint Resolve allocate_port_ports_kept : frame.

Lemma get_running_count_ports_kept : preserving ports_kept get_running_count.
Proof. unfold get_running_count. frame. Qed.
#[local] Hint Resolve get_running_count_ports_kept : frame.

Lemma update_server_properties_ports_kept name key value :
  preserving ports_kept (update_server_properties name key value).
Proof. unfold update_server_properties. frame. Qed.
#[local] Hint Resolve update_server_properties_ports_kept : frame.

Lemma alloc_ports_kept server : preserving ports_kept (alloc server).
Proof. unfold alloc. frame. Qed.
#[local] Hint Resolve alloc_ports_kept : frame.

Section ports_facts.
Context `{JsonLib}.

Lemma save_server_states_ports_kept : preserving ports_kept save_server_states.
Proof. unfold save_server_states. frame. Qed.

(** The first piece of [create_server], which calls [allocate_port],
    does not claim the port. *)
Lemma create_server_ports_kept name version memory modpack_url :
  preserving ports_kept (create_server name version memory modpack_url).
Proof. unfold create_server, create_server_locked, finish. frame. Qed.

(** The port is claimed when [create_server] records it, after the
    download. *)
Lemma create_server_commit_ports name port server w :
  allocated_ports (create_server_commit name port server w).2 =
  <[port := name]> (allocated_ports w).
Proof.
  unfold create_server_commit, finish.
  unfold bind at 1. unfold gets at 1.
  set (upd := if bool_decide _ then _ else _).
  assert (Hupd : preserving ports_kept upd).
  { unfold upd. frame. }
  unfold bind at 1. specialize (Hupd w). destruct (upd w) as [[] w1].
  simpl in Hupd. unfold alloc. unfold bind, gets, modify, ret.
  rewrite save_server_states_world. simpl. by rewrite Hupd.
Qed.

(** C10. [allocate_port] is a query: it ends in the world it started
    from, so that a second call without an update of the table in
    between returns the same port, and the port it returns is still
    unclaimed. The caller claims it: the piece of [create_server] that
    calls [allocate_port] leaves the table as it was, and the piece that
    commits the new server inserts the port. *)
Theorem allocate_port_query (w : World) :
  (allocate_port w).2 = w
  ∧ (allocate_port (allocate_port w).2).1 = (allocate_port w).1
  ∧ (∀ p, (allocate_port w).1 = Some p →
          allocated_ports (allocate_port w).2 !! p = None)
  ∧ (∀ name version memory modpack_url,
       allocated_ports (create_server name version memory modpack_url w).2
       = allocated_ports w)
  ∧ (∀ name port server,
       allocated_ports (create_server_commit name port server w).2
       = <[port := name]> (allocated_ports w)).
Proof.
  split; [apply allocate_port_frame|].
  split; [by rewrite allocate_port_frame|].
  split.
  { intros p Hp. rewrite allocate_port_frame.
    by apply allocate_port_Some in Hp as (_ & ? & _). }
  split.
  - intros. apply create_server_ports_kept.
  - intros. apply create_server_commit_ports.
Qed.

End ports_facts.

(** *** The restart counters *)

Global Instance restart_counts_kept_preorder : PreOrder restart_counts_kept.
Proof.
  split.
  - intros w. split; [done | by intros].
  - intros w1 w2 w3 [Hl12 H12] [Hl23 H23]. split; [lia|].
    intros l Hl. rewrite H23 by lia. by apply H12.
Qed.

Lemma restart_counts_kept_heap w w' :
  heap w' = heap w → restart_counts_kept w w'.
Proof. intros Hh. unfold restart_counts_kept. by rewrite Hh. Qed.

Lemma assign_restart_counts_kept l f :
  (∀ s, restart_count (f s) = restart_count s) →
  preserving restart_counts_kept (assign l f).
Proof.
  intros Hf w. unfold assign, modify, restart_counts_kept. simpl.
  rewrite length_insert. split; [done|]. intros l' Hl'.
  destruct (decide (l = l')) as [<-|Hne].
  - rewrite list_lookup_total_insert_eq by done. apply Hf.
  - by rewrite list_lookup_total_insert_ne.
Qed.

Lemma alloc_restart_counts_kept server :
  preserving restart_counts_kept (alloc server).
Proof.
  intros w. unfold alloc, bind, gets, modify, ret, restart_counts_kept. simpl.
  rewrite length_app. split; [lia|]. intros l Hl.
  by rewrite lookup_total_app_l.
Qed.

Lemma allocate_port_restart_counts_kept :
  preserving restart_counts_kept allocate_port.
Proof. apply preserving_pure; [apply _ | apply allocate_port_frame]. Qed.

#[local] Hint Extern 1 (preserving restart_counts_kept (modify _)) =>
  apply preserving_modify; intros ?; apply restart_counts_kept_heap;
  reflexivity : frame.
#[local] Hint Extern 1 (preserving restart_counts_kept (assign _ _)) =>
  apply assign_restart_counts_kept; intros ?; reflexivity : frame.
#[local] Hint Resolve alloc_restart_counts_kept
  allocate_port_restart_counts_kept : frame.

Section restart_facts.
Context `{JsonLib}.

Lemma save_server_states_restart_counts_kept :
  preserving restart_counts_kept save_server_states.
Proof. unfold save_server_states. frame. Qed.
#[local] Hint Resolve save_server_states_restart_counts_kept : frame.

Lemma first_piece_restart_counts_kept e op :
  preserving restart_counts_kept (first_piece e op).
Proof.
  destruct op; unfold first_piece, create_server, create_server_locked,
    start_server, restart_server, delete_server, stop_server,
    stop_server_finish, stop_returns, delete_server_rest; frame.
Qed.

Lemma next_piece_restart_counts_kept e tk c :
  next_piece e tk = Some c → preserving restart_counts_kept c.
Proof.
  destruct tk; intros [= <-];
    unfold create_server, create_server_locked, create_server_downloaded,
      create_server_commit, start_server, start_server_spawned,
      start_server_confirm, start_server_crashed, monitor_server,
      monitor_poll, stop_server_slept, stop_server_finish, stop_returns,
      delete_server_rest; frame.
Qed.

Lemma run_piece_restart_counts_kept t c :
  preserving restart_counts_kept c →
  preserving restart_counts_kept (run_piece t c).
Proof. intros Hc. unfold run_piece. frame. Qed.

Lemma step_restart_counts_kept e ev w w' :
  step e ev w = Some w' → restart_counts_kept w w'.
Proof.
  destruct ev as [op|t|p code err|name key value]; simpl.
  - intros [= <-].
    etrans; [|apply run_piece_restart_counts_kept,
                first_piece_restart_counts_kept].
    by apply restart_counts_kept_heap.
  - destruct (tasks w !! t) as [tk|]; [|done].
    destruct (next_piece e tk) as [c|] eqn:Hc; [|done].
    intros [= <-]. eapply run_piece_restart_counts_kept,
      next_piece_restart_counts_kept, Hc.
  - destruct (procs w !! p) as [pr|]; [|done].
    destruct (returncode pr); [done|]. intros [= <-].
    by apply restart_counts_kept_heap.
  - intros [= <-].
    assert (Hu : preserving restart_counts_kept
                   (update_server_properties name key value)) by frame.
    apply Hu.
Qed.

(** C7, as the code has it. No piece of any operation assigns
    [restart_count]: along every schedule, whatever calls of
    [restart_server] it holds and however they end, every descriptor
    object keeps the [restart_count] it had. *)
Theorem restart_count_unchanged (sched : list (Env * event)) (w w' : World) :
  run sched w = Some w' →
  ∀ l, (l < length (heap w))%nat →
       restart_count (heap w' !!! l) = restart_count (heap w !!! l).
Proof.
  revert w. induction sched as [|[e ev] sched IH]; intros w; simpl.
  - by intros [= <-].
  - destruct (step e ev w) as [w1|] eqn:Hstep; [|done].
    intros Hrun l Hl. apply step_restart_counts_kept in Hstep as [Hlen Hkept].
    rewrite (IH _ Hrun) by lia. by apply Hkept.
Qed.

End restart_facts.

(** ** [create_server] *)

Lemma allocate_port_from_ext n p w w' :
  allocated_ports w = allocated_ports w' →
  (allocate_port_from n p w).1 = (allocate_port_from n p w').1.
Proof.
  intros Hp. revert p. induction n as [|n IH]; intros p; simpl; unfold_monad; [done|].
  rewrite <- Hp. destruct (allocated_ports w !! p); [apply IH | done].
Qed.

Lemma allocate_port_ext w w' :
  config w = config w' → allocated_ports w = allocated_ports w' →
  (allocate_port w).1 = (allocate_port w').1.
Proof.
  intros Hc Hp. unfold allocate_port. unfold_monad. rewrite <- Hc.
  by apply allocate_port_from_ext.
Qed.

Lemma run_piece_eq t c w :
  run_piece t c w = (tt, set_tasks (λ ts, <[t := (c w).1]> ts) (c w).2).
Proof. unfold run_piece, bind, modify. by destruct (c w). Qed.

Section create_facts.
Context `{JsonLib}.

(** When the first piece of [create_server] ends at the download, the
    checks have passed: the lock was free and is now held, the port is
    the one [allocate_port] returns and is not in the table, and only
    the directory of the server has been made. *)
Lemma create_server_download name version memory url w name' port server w' :
  create_server name version memory url w = (CreateDownload name' port server, w') →
  name' = name ∧ modpack_url server = url
  ∧ (allocate_port w).1 = Some port
  ∧ w' = set_fs (set_server_dirs (λ d, {[name]} ∪ d)) (set_lock true w).
Proof.
  unfold create_server, create_server_locked, finish, get_running_count.
  unfold bind, gets, modify, ret. simpl.
  destruct (lock w); [done|].
  destruct (PyDict.mem name (servers w)); [done|].
  destruct (bool_decide _); [done|].
  destruct (allocate_port (set_lock true w)) as [[p|] w0] eqn:Ha; [|done].
  pose proof (allocate_port_frame (set_lock true w)) as Hframe.
  pose proof (allocate_port_ext (set_lock true w) w eq_refl eq_refl) as Hext.
  rewrite Ha in Hframe, Hext. simpl in Hframe, Hext. subst w0.
  intros [= <- <- <- <-]. done.
Qed.

(** The piece that runs after a failed download, in whatever world
    the download has ended: it returns a failure and the lock, leaves
    the descriptors and the objects alone and removes at most the chosen
    port from the table. *)
Lemma create_server_downloaded_fails e name port server w :
  acquisition_fails e (modpack_url server) →
  (∃ msg, (create_server_downloaded e name port server w).1
          = Done (Some (Returns (false, msg))))
  ∧ servers (create_server_downloaded e name port server w).2 = servers w
  ∧ heap (create_server_downloaded e name port server w).2 = heap w
  ∧ allocated_ports (create_server_downloaded e name port server w).2
    = delete port (allocated_ports w)
  ∧ lock (create_server_downloaded e name port server w).2 = false.
Proof.
  unfold acquisition_fails. intros Hfail.
  destruct (create_server_downloaded e name port server w) as [tk w'] eqn:Hd.
  revert Hd. unfold create_server_downloaded, finish, release_port.
  unfold bind, gets, modify, ret.
  destruct (unpacked e); simpl;
    (destruct (truthy (modpack_url server));
     [ destruct (curseforge e) as [ok msg]; simpl in Hfail; subst ok
     | destruct Hfail as [exn ->] ]);
    simpl; destruct (allocated_ports w !! port) eqn:Hport;
    intros [= <- <-]; simpl;
    (split; [by eexists|]); repeat split; by rewrite ?delete_id.
Qed.

(** C3. When the precondition checks of [create_server] have passed
    (the call has reached the download, where its task is suspended
    with the chosen port) and the acquisition of the artifact fails, the
    resumed call returns a failure and the lock; the descriptors, the
    objects and the port table are what they were before the call, and
    the port that was chosen is unclaimed and is what [allocate_port]
    returns next. *)
Theorem create_server_rollback (e e' : Env) (name version : string)
    (memory : option Z) (url : option string)
    (port : Z) (server : ServerConfig) (w w1 w2 : World) :
  step e (Invoke (CreateServer name version memory url)) w = Some w1 →
  tasks w1 !! length (tasks w) = Some (CreateDownload name port server) →
  acquisition_fails e' url →
  step e' (Wake (length (tasks w))) w1 = Some w2 →
  (∃ msg, tasks w2 !! length (tasks w)
          = Some (Done (Some (Returns (false, msg)))))
  ∧ servers w2 = servers w
  ∧ heap w2 = heap w
  ∧ allocated_ports w2 = allocated_ports w
  ∧ allocated_ports w2 !! port = None
  ∧ (allocate_port w2).1 = Some port
  ∧ lock w2 = false.
Proof.
  intros Hstep1 Htask Hfail Hstep2.
  simpl in Hstep1. injection Hstep1 as <-.
  rewrite run_piece_eq in Htask, Hstep2.
  destruct (create_server name version memory url _) as [tk w0] eqn:Hc.
  simpl in Htask, Hstep2.
  assert (Hlen : (length (tasks w) < length (tasks w0))%nat).
  { assert (Hk : tasks w0 = tasks w ++ [Done None]).
    { revert Hc. unfold create_server, create_server_locked, finish,
        get_running_count, bind, gets, modify, ret. simpl.
      repeat (match goal with
              | |- context [if ?b then _ else _] => destruct b
              | |- context [allocate_port ?x] =>
                  let Ha := fresh in
                  pose proof (allocate_port_frame x) as Ha;
                  destruct (allocate_port x) as [[?|] ?]; simpl in Ha; subst
              end; simpl); by intros [= <- <-]. }
    rewrite Hk, length_app. simpl. lia. }
  rewrite list_lookup_insert_eq in Htask by done. injection Htask as ->.
  apply create_server_download in Hc as (_ & Hurl & Halloc & ->).
  rewrite list_lookup_insert_eq in Hstep2 by done. simpl in Hstep2.
  injection Hstep2 as <-.
  assert (Hfree : allocated_ports w !! port = None).
  { pose proof (allocate_port_ext (set_tasks (λ ts, ts ++ [Done None]) w) w
                  eq_refl eq_refl) as Hext.
    rewrite Halloc in Hext. symmetry in Hext.
    by apply allocate_port_Some in Hext as (_ & ? & _). }
  assert (Hagain : ∀ w', config w' = config w →
            allocated_ports w' = allocated_ports w →
            (allocate_port w').1 = Some port).
  { intros w' Hcfg Hports. rewrite <- Halloc. by apply allocate_port_ext. }
  unfold acquisition_fails in Hfail. rewrite <- Hurl in Hfail.
  rewrite run_piece_eq.
  unfold create_server_downloaded, finish, release_port.
  unfold bind, gets, modify, ret.
  destruct (unpacked e'); simpl;
    (destruct (truthy (modpack_url server));
     [ destruct (curseforge e') as [ok msg]; simpl in Hfail; subst ok
     | destruct Hfail as [exn ->] ]);
    simpl; rewrite Hfree; simpl;
    rewrite list_lookup_insert_eq by (rewrite length_insert; done);
    (split; [by eexists|]); repeat (split; [done|]);
    (split; [by apply Hagain | done]).
Qed.

End create_facts.

(** ** What the operations other than [create_server] do with the lock *)

Lemma lock_blind_ret {A} (a : A) : lock_blind (ret a).
Proof. by intros b w. Qed.

Lemma lock_blind_gets {A} (f : World → A) :
  (∀ b w, f (set_lock b w) = f w) → lock_blind (gets f).
Proof. intros Hf b w. unfold gets. simpl. by rewrite Hf. Qed.

Lemma lock_blind_modify (f : World → World) :
  (∀ b w, f (set_lock b w) = set_lock b (f w)) → lock_blind (modify f).
Proof. intros Hf b w. unfold modify. simpl. by rewrite Hf. Qed.

Lemma lock_blind_bind {A B} (c : M A) (k : A → M B) :
  lock_blind c → (∀ a, lock_blind (k a)) → lock_blind (bind c k).
Proof.
  intros Hc Hk b w. unfold bind. rewrite Hc.
  destruct (c w) as [a w1]. simpl. apply Hk.
Qed.

Ltac lock_blind_step :=
  first
    [ apply lock_blind_ret
    | apply lock_blind_gets; intros ? ?; reflexivity
    | apply lock_blind_modify; intros ? ?; reflexivity
    | apply lock_blind_bind; [|intros ?]
    | progress cbv beta iota
    | match goal with
      | |- lock_blind (match ?x with _ => _ end) => destruct x
      | |- lock_blind (if ?b then _ else _) => destruct b
      end
    | progress unfold finish, deref, assign, cancel, send_signal, create_task,
        release_port, update_server_properties, alloc ].
Ltac lock_blind := repeat lock_blind_step.

Section lock_facts.
Context `{JsonLib}.

Lemma save_server_states_lock_blind : lock_blind save_server_states.
Proof. unfold save_server_states. lock_blind. Qed.

Lemma stop_server_lock_blind e name k : lock_blind (stop_server e name k).
Proof.
  pose proof save_server_states_lock_blind.
  unfold stop_server, stop_server_finish, stop_returns, delete_server_rest.
  lock_blind; assumption.
Qed.

(** [start_server], [stop_server], [restart_server] and [delete_server]
    run from their call to their first suspension without a look at
    the lock. *)
Lemma first_piece_lock_blind e op :
  (∀ name version memory url, op ≠ CreateServer name version memory url) →
  lock_blind (first_piece e op).
Proof.
  intros Hop. pose proof save_server_states_lock_blind.
  destruct op as [name version memory url|name|name|name|name]; simpl.
  - by destruct (Hop name version memory url).
  - unfold start_server. lock_blind.
  - apply stop_server_lock_blind.
  - apply stop_server_lock_blind.
  - unfold delete_server, delete_server_rest.
    lock_blind; first [assumption | apply stop_server_lock_blind].
Qed.

(** So do their later pieces, and those of [monitor_server]. *)
Lemma next_piece_lock_blind e tk c :
  next_piece e tk = Some c →
  match tk with
  | CreateLockWait _ _ _ _ | CreateDownload _ _ _ => True
  | _ => lock_blind c
  end.
Proof.
  pose proof save_server_states_lock_blind.
  destruct tk; intros [= <-]; try exact I;
    unfold start_server, start_server_spawned, start_server_confirm,
      start_server_crashed, monitor_server, monitor_poll, stop_server_slept,
      stop_server_finish, stop_returns, delete_server_rest;
    lock_blind; assumption.
Qed.

(** The crash detection of the monitor does not look at the status of
    the descriptor: whatever it is, an exit that the monitor observes
    is counted as a crash. *)
Lemma monitor_poll_counts_exit name server process code w :
  returncode (procs w !!! process) = Some code →
  (server < length (heap w))%nat →
  status (heap (monitor_poll name server process w).2 !!! server)
    = value CRASHED
  ∧ crash_count (heap (monitor_poll name server process w).2 !!! server)
    = crash_count (heap w !!! server) + 1.
Proof.
  intros Hrc Hl.
  destruct (monitor_poll name server process w) as [tk w'] eqn:Hpoll.
  revert Hpoll. unfold monitor_poll, bind, gets, assign, modify, ret.
  rewrite Hrc, save_server_states_world. intros [= <- <-]. simpl.
  by rewrite !list_lookup_total_insert_eq by (rewrite ?length_insert; done).
Qed.

(** The crash branch of [start_server], taken on its own, counts the
    exit once and returns what the child wrote to its error stream. *)
Lemma start_server_crashed_counts name server process w :
  (server < length (heap w))%nat →
  (start_server_crashed name server process w).1
    = Done (Some (Returns (false,
        "Server failed to start: " +:+ stderr_data (procs w !!! process))))
  ∧ status (heap (start_server_crashed name server process w).2 !!! server)
    = value CRASHED
  ∧ crash_count (heap (start_server_crashed name server process w).2 !!! server)
    = crash_count (heap w !!! server) + 1.
Proof.
  intros Hl.
  destruct (start_server_crashed name server process w) as [tk w'] eqn:Hc.
  revert Hc. unfold start_server_crashed, finish, bind, gets, assign, modify, ret.
  rewrite save_server_states_world. intros [= <- <-]. simpl.
  by rewrite !list_lookup_total_insert_eq by (rewrite ?length_insert; done).
Qed.

(** [create_server] commits a name that is not yet in [self.servers]:
    the call of [update_server_properties] in it writes nothing. *)
Lemma create_server_commit_keeps_properties name port server w :
  PyDict.mem name (servers w) = false →
  props_files (fs (create_server_commit name port server w).2)
  = props_files (fs w).
Proof.
  intros Hm. unfold create_server_commit, finish, alloc.
  unfold bind at 1. unfold gets at 1.
  destruct (bool_decide _).
  - unfold bind at 1 2. rewrite update_server_properties_unknown by done.
    unfold bind, gets, modify, ret. by rewrite save_server_states_world.
  - unfold bind, gets, modify, ret. by rewrite save_server_states_world.
Qed.

End lock_facts.

(** ** The operations on sample schedules *)

Section samples.
Import Sample.
Local Existing Instance PyJson.python_json.

(** The sample fleet: what [create_server] has left. *)
Example stopped_sample :
  fleet stopped = [("alpha", alpha)]
  ∧ allocated_ports stopped = {[ 25565 := "alpha" ]}
  ∧ lock stopped = false
  ∧ tasks stopped = [Done (Some (Returns (true,
      "Server 'alpha' created successfully on port 25565")))]
  ∧ state_file (fs stopped) ≫= json_load = Some (states_of stopped).
Proof. repeat split; vm_compute; reflexivity. Qed.

(** The allocator on the sample fleet: port 25565 is taken. *)
Example allocate_port_sample :
  (allocate_port stopped).1 = Some 25566
  ∧ (allocate_port (set_allocated_ports <[25566 := "beta"]> stopped)).1 = None
  ∧ (allocate_port (release_port 25565 stopped).2).1 = Some 25565.
Proof. repeat split; vm_compute; reflexivity. Qed.

(** [update_server_properties] on a file with a comment, a repeated key
    and a line without [=]: the comment and the line are dropped, the
    repeated key keeps its place and its last value, [motd] is replaced
    in place and a new key goes last. *)
Example update_server_properties_sample :
  read_properties props_text
    = [("server-port", "25570"); ("motd", "A Minecraft Server")]
  ∧ update_server_properties "alpha" "motd" "Hello" configured
    = (true, set_fs (set_props_files
         <["alpha" := "server-port=25570" +:+ String LF
                      ("motd=Hello" +:+ String LF EmptyString)]>) configured)
  ∧ read_properties <$>
      props_files (fs (update_server_properties "alpha" "pvp" "false"
                         configured).2) !! "alpha"
    = Some [("server-port", "25570"); ("motd", "A Minecraft Server");
            ("pvp", "false")]
  ∧ update_server_properties "beta" "motd" "Hello" configured
    = (false, configured).
Proof. repeat split; vm_compute; reflexivity. Qed.

(** C1, counterexample. Saving the fleet of [Sample.stopped] over its
    state file passes through the empty file, which is neither the old
    content nor the new one. *)
Lemma save_server_states_not_atomic :
  ¬ atomic_replace (save_ops (states_of stopped)) (state_file (fs stopped)).
Proof.
  intros Hatomic. destruct (Hatomic (Some EmptyString)) as [Heq|Heq].
  - unfold save_ops. simpl. right.
    destruct (FWrite <$> json_dump (states_of stopped)); simpl; left.
  - discriminate Heq.
  - vm_compute in Heq. discriminate Heq.
Qed.

(** C2, at the failing inputs. One child that exits inside the
    confirmation window is counted by the monitor and again by
    [start_server]: [crash_count] goes from 0 to 2. A child that exits
    because [stop_server] terminated it is counted by the monitor as a
    crash: after the stop has returned success the descriptor is CRASHED
    with [crash_count] 1. *)
Theorem crash_count_miscounted :
  (∃ w, run crash_at_boot stopped = Some w
        ∧ tasks w !! 1%nat = Some (Done (Some (Returns (false,
            "Server failed to start: Error: Unable to access jarfile server.jar"))))
        ∧ (λ ns, (status ns.2, crash_count ns.2)) <$> fleet w
          = [("crashed", 2)])
  ∧ (∃ w, run stop_then_poll stopped = Some w
        ∧ tasks w !! 3%nat
          = Some (Done (Some (Returns (true, "Server 'alpha' stopped"))))
        ∧ (λ ns, (status ns.2, crash_count ns.2)) <$> fleet w
          = [("crashed", 1)]).
Proof.
  split; eexists; (split; [vm_compute; reflexivity|]);
    split; vm_compute; reflexivity.
Qed.

(** C4, at the failing input. [create_server("beta", ...)] from a pack
    that ships [server-port=25565] succeeds on port 25566 and persists
    the STOPPED descriptor, but [server.properties] still says 25565:
    [update_server_properties] is called before the name is in
    [self.servers] and returns [False] without writing. *)
Theorem create_server_port_not_applied :
  ∃ w, run create_from_pack stopped = Some w
       ∧ tasks w !! 1%nat = Some (Done (Some (Returns (true,
           "Server 'beta' created successfully on port 25566"))))
       ∧ (λ s, (port s, status s)) <$> PyDict.get "beta" (fleet w)
         = Some (25566, "stopped")
       ∧ state_file (fs w) ≫= json_load = Some (states_of w)
       ∧ read_properties <$> props_files (fs w) !! "beta"
         = Some [("server-port", "25565"); ("motd", "A Minecraft Server")].
Proof.
  eexists. split; [vm_compute; reflexivity|].
  repeat split; vm_compute; reflexivity.
Qed.

(** C7, counterexample. A restart that stops the running server and
    starts a new process returns success and leaves [restart_count]
    at 0. *)
Lemma restart_not_counted :
  ∃ w, run restart stopped = Some w
       ∧ tasks w !! 3%nat
         = Some (Done (Some (Returns (true, "Server 'alpha' started"))))
       ∧ proc_pid <$> procs w = [4242; 4243]
       ∧ ¬ restart_counted stopped w 0.
Proof.
  eexists. split; [vm_compute; reflexivity|].
  split; [vm_compute; reflexivity|]. split; [vm_compute; reflexivity|].
  unfold restart_counted. vm_compute. discriminate.
Qed.

(** C9, at the failing inputs. Two calls of [start_server] for the same
    name are suspended inside the operation at the same time, each with
    a child of its own, and the lock is free. [delete_server] removes a
    descriptor, releases its port and persists the fleet while
    [create_server] holds the lock across its download. *)
Theorem mutations_without_lock :
  (∃ w, run double_start stopped = Some w
        ∧ lock w = false
        ∧ tasks w !! 1%nat = Some (StartConfirm "alpha" 0 0)
        ∧ tasks w !! 2%nat = Some (StartConfirm "alpha" 0 1)
        ∧ (λ p, (proc_pid p, returncode p)) <$> procs w
          = [(4242, None); (4243, None)])
  ∧ (∃ w, run delete_during_create stopped = Some w
        ∧ lock w = true
        ∧ (∃ server, tasks w !! 1%nat = Some (CreateDownload "beta" 25566 server))
        ∧ tasks w !! 2%nat
          = Some (Done (Some (Returns (true, "Server 'alpha' deleted"))))
        ∧ servers w = []
        ∧ allocated_ports w = ∅
        ∧ state_file (fs w) = Some "{}").
Proof.
  split; eexists; (split; [vm_compute; reflexivity|]).
  - repeat split; vm_compute; reflexivity.
  - split; [vm_compute; reflexivity|]. split; [eexists; vm_compute; reflexivity|].
    repeat split; vm_compute; reflexivity.
Qed.

(** The rollback of [create_server] on [Sample.create_404]. *)
Lemma create_server_rollback_witness :
  step env create_call stopped = Some (after (on env [create_call]) stopped)
  ∧ tasks (after (on env [create_call]) stopped) !! length (tasks stopped)
    = Some (CreateDownload "beta" 25566 beta_new)
  ∧ acquisition_fails env_404 None
  ∧ step env_404 (Wake (length (tasks stopped)))
      (after (on env [create_call]) stopped)
    = Some (after create_404 stopped)
  ∧ servers (after create_404 stopped) = servers stopped
  ∧ allocated_ports (after create_404 stopped) = allocated_ports stopped
  ∧ (allocate_port (after create_404 stopped)).1 = Some 25566.
Proof.
  assert (H1 : step env create_call stopped
               = Some (after (on env [create_call]) stopped))
    by (vm_compute; reflexivity).
  assert (H2 : tasks (after (on env [create_call]) stopped)
                 !! length (tasks stopped)
               = Some (CreateDownload "beta" 25566 beta_new))
    by (vm_compute; reflexivity).
  assert (H3 : acquisition_fails env_404 None)
    by (vm_compute; eexists; reflexivity).
  assert (H4 : step env_404 (Wake (length (tasks stopped)))
                 (after (on env [create_call]) stopped)
               = Some (after create_404 stopped))
    by (vm_compute; reflexivity).
  repeat (split; [assumption|]).
  destruct (create_server_rollback env env_404 "beta" "1.20.4" None None
              25566 beta_new stopped _ _ H1 H2 H3 H4)
    as (_ & Hservers & _ & Hports & _ & Halloc & _).
  repeat split; assumption.
Defined.

(** The restart counter along [Sample.restart]. *)
Lemma restart_count_unchanged_witness :
  run restart stopped = Some (after restart stopped)
  ∧ (0 < length (heap stopped))%nat
  ∧ restart_count (heap (after restart stopped) !!! 0%nat)
    = restart_count (heap stopped !!! 0%nat).
Proof.
  assert (H1 : run restart stopped = Some (after restart stopped))
    by (vm_compute; reflexivity).
  assert (H2 : (0 < length (heap stopped))%nat) by (vm_compute; lia).
  split; [exact H1|]. split; [exact H2|].
  exact (restart_count_unchanged restart stopped _ H1 0%nat H2).
Defined.

End samples.

Section file_samples.
Import Sample Episode.
Local Existing Instance PyJson.python_json.

(** C6, counterexample. [/setprop] passes the key [motd=x] on as it is.
    The call succeeds and adds the line [motd=x=y], which assigns
    [motd]: the key that was set is not in the file, and [motd], another
    key, has lost its value. *)
Lemma update_server_properties_clobbers :
  ∃ w,
    props_files (fs tidy) !! "alpha"
      = Some (file_text [Assignment "server-port" "25565";
                         Assignment "motd" "A Minecraft Server"])
    ∧ step env (SetProperty "alpha" "motd=x" "y") tidy = Some w
    ∧ props_files (fs w) !! "alpha"
      = Some (file_text [Assignment "server-port" "25565";
                         Assignment "motd" "A Minecraft Server";
                         Assignment "motd" "x=y"])
    ∧ Forall line_ok [Assignment "server-port" "25565";
                      Assignment "motd" "A Minecraft Server";
                      Assignment "motd" "x=y"]
    ∧ assignments [Assignment "server-port" "25565";
                   Assignment "motd" "A Minecraft Server";
                   Assignment "motd" "x=y"]
      = [("server-port", "25565"); ("motd", "x=y")]
    ∧ ¬ only_key_rewritten "motd=x" "y"
          (assignments [Assignment "server-port" "25565";
                        Assignment "motd" "A Minecraft Server"])
          (assignments [Assignment "server-port" "25565";
                        Assignment "motd" "A Minecraft Server";
                        Assignment "motd" "x=y"]).
Proof.
  eexists. split; [vm_compute; reflexivity|].
  split; [vm_compute; reflexivity|]. split; [vm_compute; reflexivity|].
  split; [repeat constructor|]. split; [vm_compute; reflexivity|].
  intros [Hget _]. vm_compute in Hget. discriminate Hget.
Qed.

(** [motd] set in the file of [Sample.configured], which has a comment,
    a line without [=] and a key that is assigned twice, and in the file
    of [Episode.edited]. *)
Lemma update_server_properties_spec_witness :
  (PyDict.mem "alpha" (servers configured) = true
   ∧ props_files (fs configured) !! "alpha"
     = Some (laid_file_text
         [Laid EmptyString (Comment "Minecraft server properties")
            EmptyString LineFeed;
          Laid EmptyString (Assignment "server-port" "25565")
            EmptyString LineFeed;
          Laid EmptyString (Assignment "motd" "A Minecraft Server")
            EmptyString LineFeed;
          Laid EmptyString (Plain "broken line") EmptyString LineFeed;
          Laid EmptyString (Assignment "server-port" "25570")
            EmptyString LineFeed])
   ∧ property_name_ok "motd" = true ∧ property_value_ok "Hello" = true
   ∧ update_server_properties "alpha" "motd" "Hello" configured
     = (true, set_fs (set_props_files
          <["alpha" := file_text [Assignment "server-port" "25570";
                                  Assignment "motd" "Hello"]]>) configured))
  ∧ (PyDict.mem "alpha" (servers edited) = true
     ∧ props_files (fs edited) !! "alpha"
       = Some (laid_file_text
           [Laid EmptyString (Comment "Minecraft server properties")
              EmptyString CrLf;
            Laid "  " (Assignment "server-port" "25565") " " CrLf;
            Laid EmptyString (Plain EmptyString) EmptyString CrLf;
            Laid EmptyString (Assignment "motd" "A Minecraft Server")
              EmptyString NoEnd])
     ∧ update_server_properties "alpha" "pvp" "false" edited
       = (true, set_fs (set_props_files
            <["alpha" := file_text [Assignment "server-port" "25565";
                                    Assignment "motd" "A Minecraft Server";
                                    Assignment "pvp" "false"]]>) edited)).
Proof.
  assert (H1 : PyDict.mem "alpha" (servers configured) = true)
    by (vm_compute; reflexivity).
  assert (H2 : props_files (fs configured) !! "alpha"
               = Some (laid_file_text
                   [Laid EmptyString (Comment "Minecraft server properties")
                      EmptyString LineFeed;
                    Laid EmptyString (Assignment "server-port" "25565")
                      EmptyString LineFeed;
                    Laid EmptyString (Assignment "motd" "A Minecraft Server")
                      EmptyString LineFeed;
                    Laid EmptyString (Plain "broken line") EmptyString LineFeed;
                    Laid EmptyString (Assignment "server-port" "25570")
                      EmptyString LineFeed]))
    by (vm_compute; reflexivity).
  assert (H3 : Forall laid_ok
                 [Laid EmptyString (Comment "Minecraft server properties")
                    EmptyString LineFeed;
                  Laid EmptyString (Assignment "server-port" "25565")
                    EmptyString LineFeed;
                  Laid EmptyString (Assignment "motd" "A Minecraft Server")
                    EmptyString LineFeed;
                  Laid EmptyString (Plain "broken line") EmptyString LineFeed;
                  Laid EmptyString (Assignment "server-port" "25570")
                    EmptyString LineFeed])
    by (repeat constructor).
  assert (H4 : property_name_ok "motd" = true) by (vm_compute; reflexivity).
  assert (H5 : property_value_ok "Hello" = true) by (vm_compute; reflexivity).
  assert (H6 : PyDict.mem "alpha" (servers edited) = true)
    by (vm_compute; reflexivity).
  assert (H7 : props_files (fs edited) !! "alpha"
               = Some (laid_file_text
                   [Laid EmptyString (Comment "Minecraft server properties")
                      EmptyString CrLf;
                    Laid "  " (Assignment "server-port" "25565") " " CrLf;
                    Laid EmptyString (Plain EmptyString) EmptyString CrLf;
                    Laid EmptyString (Assignment "motd" "A Minecraft Server")
                      EmptyString NoEnd]))
    by (vm_compute; reflexivity).
  assert (H8 : Forall laid_ok
                 [Laid EmptyString (Comment "Minecraft server properties")
                    EmptyString CrLf;
                  Laid "  " (Assignment "server-port" "25565") " " CrLf;
                  Laid EmptyString (Plain EmptyString) EmptyString CrLf;
                  Laid EmptyString (Assignment "motd" "A Minecraft Server")
                    EmptyString NoEnd])
    by (repeat constructor).
  assert (H9 : property_name_ok "pvp" = true) by (vm_compute; reflexivity).
  assert (H10 : property_value_ok "false" = true) by (vm_compute; reflexivity).
  split.
  - repeat (split; [assumption|]).
    exact (proj1 (proj1 (proj2 (proj2
             (update_server_properties_spec "alpha" "motd" "Hello" configured)))
             _ H1 H2 H3 ltac:(by repeat split) H4 H5)).
  - split; [exact H6|]. split; [exact H7|].
    exact (proj1 (proj1 (proj2 (proj2
             (update_server_properties_spec "alpha" "pvp" "false" edited)))
             _ H6 H7 H8 ltac:(by repeat split) H9 H10)).
Defined.

(** The round trip of the two descriptors of [Sample.two]. *)
Lemma save_load_roundtrip_witness :
  PyDict.wf (servers two)
  ∧ floats_ok two
  ∧ fleet (MinecraftServerManager_init (config two)
             (fs (save_server_states two).2)).2
    = fleet two.
Proof.
  assert (H1 : PyDict.wf (servers two))
    by (unfold PyDict.wf; apply (bool_decide_unpack _); vm_compute; exact I).
  assert (H2 : floats_ok two).
  { unfold floats_ok.
    assert (fleet two = [("alpha", alpha); ("beta", beta)]) as -> by reflexivity.
    apply Forall_cons. split; [exact I|].
    apply Forall_cons. split; [|apply Forall_nil_2]. simpl. left.
    exists false, "1700000000", ".5", EmptyString.
    split; [reflexivity|]. split.
    { right. exists "1"%char, "700000000". by repeat split. }
    split; [right; by exists "5"|]. split; [by left|]. by left. }
  split; [exact H1|]. split; [exact H2|].
  exact (proj2 (proj2 (proj2 (save_load_roundtrip two H1 H2)))).
Defined.

End file_samples.

(** * Further properties *)

(** ** Every change of a descriptor is persisted *)

Section persistence_facts.
Context `{JsonLib}.

Global Instance quiet_preorder : PreOrder quiet.
Proof.
  split.
  - by intros w.
  - intros w1 w2 w3 [Hs12 Hf12] [Hs23 Hf23]. split; congruence.
Qed.

Lemma synced_quiet w w' : synced w → quiet w w' → synced w'.
Proof. unfold synced. intros Hs [Hst Hf]. by rewrite Hf, Hst. Qed.

Lemma saving_save : saving save_server_states.
Proof.
  intros w. rewrite save_server_states_world. unfold synced. simpl.
  f_equal.
Qed.

Lemma saving_bind {A B} (c : M A) (k : A → M B) :
  (∀ a, saving (k a)) → saving (bind c k).
Proof. intros Hk w. unfold bind. destruct (c w) as [a w1]. apply Hk. Qed.

Lemma saving_then {A B} (c : M A) (k : A → M B) :
  saving c → (∀ a, persisting (k a)) → saving (bind c k).
Proof.
  intros Hc Hk w. unfold bind. specialize (Hc w).
  destruct (c w) as [a w1]. simpl in Hc.
  destruct (Hk a w1) as [Hq|Hs]; [by eapply synced_quiet | done].
Qed.

Lemma persisting_quiet {A} (c : M A) : preserving quiet c → persisting c.
Proof. intros Hc w. left. apply Hc. Qed.

Lemma persisting_saving {A} (c : M A) : saving c → persisting c.
Proof. intros Hc w. right. apply Hc. Qed.

Lemma persisting_bind {A B} (c : M A) (k : A → M B) :
  preserving quiet c → (∀ a, persisting (k a)) → persisting (bind c k).
Proof.
  intros Hc Hk w. unfold bind. specialize (Hc w).
  destruct (c w) as [a w1]. simpl in Hc.
  destruct (Hk a w1) as [Hq|Hs]; [left; by etrans | by right].
Qed.

End persistence_facts.

#[local] Hint Extern 1 (preserving quiet (modify _)) =>
  apply preserving_modify; intros ?; split; reflexivity : frame.

Lemma allocate_port_quiet `{JsonLib} : preserving quiet allocate_port.
Proof. apply preserving_pure; [apply _ | apply allocate_port_frame]. Qed.
#[local] Hint Resolve allocate_port_quiet : frame.

(** Splits a piece into what it does before a change of a descriptor,
    quietly, and what follows, which has to end after a save. *)
Ltac persist :=
  cbv beta iota;
  lazymatch goal with
  | |- persisting (bind _ _) =>
      first [ apply persisting_bind; [solve [frame] | intros ?; persist]
            | apply persisting_saving; save ]
  | |- persisting (match ?x with _ => _ end) => destruct x; persist
  | |- persisting (if ?b then _ else _) => destruct b; persist
  | |- persisting _ => apply persisting_quiet; solve [frame]
  end
with save :=
  cbv beta iota;
  lazymatch goal with
  | |- saving save_server_states => apply saving_save
  | |- saving (bind save_server_states _) =>
      apply saving_then; [apply saving_save | intros ?; persist]
  | |- saving (bind _ _) => apply saving_bind; intros ?; save
  | |- saving (match ?x with _ => _ end) => destruct x; save
  | |- saving (if ?b then _ else _) => destruct b; save
  end.

Section persistence_steps.
Context `{JsonLib}.

Lemma first_piece_persisting e op : persisting (first_piece e op).
Proof.
  destruct op; unfold first_piece, create_server, create_server_locked,
    start_server, restart_server, delete_server, stop_server,
    stop_server_finish, stop_returns, delete_server_rest; persist.
Qed.

Lemma next_piece_persisting e tk c :
  next_piece e tk = Some c → persisting c.
Proof.
  destruct tk; intros [= <-];
    unfold create_server, create_server_locked, create_server_downloaded,
      create_server_commit, start_server, start_server_spawned,
      start_server_confirm, start_server_crashed, monitor_server,
      monitor_poll, stop_server_slept, stop_server_finish, stop_returns,
      delete_server_rest; persist.
Qed.

Lemma run_piece_persisting t c : persisting c → persisting (run_piece t c).
Proof.
  intros Hc w. rewrite run_piece_eq. simpl.
  destruct (Hc w) as [[Hs Hf]|Hs]; [left | right].
  - by split.
  - exact Hs.
Qed.

(** Whatever the event loop runs, it leaves the descriptors and the
    state file as they were, or it leaves the state file holding the
    serialisation of the descriptors as they now are: no piece of an
    operation suspends or returns with a change that is not saved. *)
Theorem step_persists (e : Env) (ev : event) (w w' : World) :
  step e ev w = Some w' → quiet w w' ∨ synced w'.
Proof.
  destruct ev as [op|t|p code err|name key value]; simpl.
  - intros [= <-].
    destruct (run_piece_persisting (length (tasks w)) _
                (first_piece_persisting e op)
                (set_tasks (λ ts, ts ++ [Done None]) w)) as [Hq|Hs];
      [left | by right].
    etrans; [|exact Hq]. by split.
  - destruct (tasks w !! t) as [tk|]; [|done].
    destruct (next_piece e tk) as [c|] eqn:Hc; [|done].
    intros [= <-]. eapply run_piece_persisting, next_piece_persisting, Hc.
  - destruct (procs w !! p) as [pr|]; [|done].
    destruct (returncode pr); [done|]. intros [= <-]. left. by split.
  - intros [= <-]. left.
    assert (Hu : preserving quiet (update_server_properties name key value))
      by frame.
    apply Hu.
Qed.

(** Along a schedule, a state file that is in step with the descriptors
    stays in step with them. *)
Lemma run_keeps_synced (sched : list (Env * event)) (w w' : World) :
  synced w → run sched w = Some w' → synced w'.
Proof.
  revert w. induction sched as [|[e ev] sched IH]; intros w Hs; simpl.
  - by intros [= <-].
  - destruct (step e ev w) as [w1|] eqn:Hstep; [|done].
    intros Hrun. apply (IH w1); [|done].
    apply step_persists in Hstep as [Hq|Hs1]; [by eapply synced_quiet | done].
Qed.

End persistence_steps.

(** ** What the operations never change *)

Global Instance evolves_preorder : PreOrder evolves.
Proof.
  split.
  - intros s. unfold evolves. by repeat split.
  - intros s1 s2 s3 (?&?&?&?&?&?&?) (?&?&?&?&?&?&?).
    unfold evolves. repeat split; try congruence. lia.
Qed.

Global Instance descriptors_evolve_preorder : PreOrder descriptors_evolve.
Proof.
  split.
  - intros w. split; [done|]. by intros.
  - intros w1 w2 w3 [Hl12 H12] [Hl23 H23]. split; [lia|].
    intros l Hl. etrans; [by apply H12 | apply H23; lia].
Qed.

Lemma descriptors_evolve_heap w w' :
  heap w' = heap w → descriptors_evolve w w'.
Proof. intros Hh. unfold descriptors_evolve. rewrite Hh. split; [done|]. by intros. Qed.

Lemma assign_descriptors_evolve l f :
  (∀ s, evolves s (f s)) → preserving descriptors_evolve (assign l f).
Proof.
  intros Hf w. unfold assign, modify, descriptors_evolve. simpl.
  rewrite length_insert. split; [done|]. intros l' Hl'.
  destruct (decide (l = l')) as [<-|Hne].
  - rewrite list_lookup_total_insert_eq by done. apply Hf.
  - by rewrite list_lookup_total_insert_ne.
Qed.

Lemma alloc_descriptors_evolve server :
  preserving descriptors_evolve (alloc server).
Proof.
  intros w. unfold alloc, bind, gets, modify, ret, descriptors_evolve. simpl.
  rewrite length_app. split; [lia|]. intros l Hl.
  by rewrite lookup_total_app_l.
Qed.

Lemma allocate_port_descriptors_evolve :
  preserving descriptors_evolve allocate_port.
Proof. apply preserving_pure; [apply _ | apply allocate_port_frame]. Qed.

#[local] Hint Extern 1 (preserving descriptors_evolve (modify _)) =>
  apply preserving_modify; intros ?; apply descriptors_evolve_heap;
  reflexivity : frame.
#[local] Hint Extern 1 (preserving descriptors_evolve (assign _ _)) =>
  apply assign_descriptors_evolve; intros ?; unfold evolves; simpl;
  repeat split; lia : frame.
#[local] Hint Resolve alloc_descriptors_evolve
  allocate_port_descriptors_evolve : frame.

Global Instance ports_shrink_preorder : PreOrder ports_shrink.
Proof.
  split.
  - intros w. unfold ports_shrink. reflexivity.
  - intros w1 w2 w3 H12 H23. unfold ports_shrink in *.
    etrans; [exact H23 | exact H12].
Qed.

#[local] Hint Extern 1 (preserving ports_shrink (modify (set_allocated_ports (delete _)))) =>
  apply preserving_modify; intros ?; unfold ports_shrink; simpl;
  apply delete_subseteq : frame.
#[local] Hint Extern 2 (preserving ports_shrink (modify _)) =>
  apply preserving_modify; intros ?; unfold ports_shrink; simpl;
  reflexivity : frame.

Section frames_steps.
Context `{JsonLib}.

Lemma save_server_states_descriptors_evolve :
  preserving descriptors_evolve save_server_states.
Proof. unfold save_server_states. frame. Qed.
#[local] Hint Resolve save_server_states_descriptors_evolve : frame.

Lemma step_descriptors_evolve e ev w w' :
  step e ev w = Some w' → descriptors_evolve w w'.
Proof.
  assert (Hrun : ∀ t c, preserving descriptors_evolve c →
                        preserving descriptors_evolve (run_piece t c)).
  { intros t c Hc. unfold run_piece. frame. }
  destruct ev as [op|t|p code err|name key value]; simpl.
  - intros [= <-].
    etrans; [|apply Hrun]; [by apply descriptors_evolve_heap|].
    destruct op; unfold first_piece, create_server, create_server_locked,
      start_server, restart_server, delete_server, stop_server,
      stop_server_finish, stop_returns, delete_server_rest; frame.
  - destruct (tasks w !! t) as [tk|]; [|done].
    destruct (next_piece e tk) as [c|] eqn:Hc; [|done].
    intros [= <-]. apply Hrun.
    destruct tk; simpl in Hc; try discriminate; injection Hc as <-;
      unfold create_server, create_server_locked, create_server_downloaded,
        create_server_commit, start_server, start_server_spawned,
        start_server_confirm, start_server_crashed, monitor_server,
        monitor_poll, stop_server_slept, stop_server_finish, stop_returns,
        delete_server_rest; frame.
  - destruct (procs w !! p) as [pr|]; [|done].
    destruct (returncode pr); [done|]. intros [= <-].
    by apply descriptors_evolve_heap.
  - intros [= <-].
    assert (Hu : preserving descriptors_evolve
                   (update_server_properties name key value)) by frame.
    apply Hu.
Qed.

(** Along every schedule a descriptor object keeps its name, version,
    memory, port and URLs, and its [crash_count] never decreases. *)
Theorem descriptors_only_evolve (sched : list (Env * event)) (w w' : World) :
  run sched w = Some w' →
  ∀ l, (l < length (heap w))%nat → evolves (heap w !!! l) (heap w' !!! l).
Proof.
  intros Hrun. cut (descriptors_evolve w w'); [by intros [_ ?]|].
  revert w Hrun. induction sched as [|[e ev] sched IH]; intros w; simpl.
  - by intros [= <-].
  - destruct (step e ev w) as [w1|] eqn:Hstep; [|done].
    intros Hrun. etrans; [by eapply step_descriptors_evolve | by apply IH].
Qed.

Lemma save_server_states_ports_shrink :
  preserving ports_shrink save_server_states.
Proof. unfold save_server_states. frame. Qed.
#[local] Hint Resolve save_server_states_ports_shrink : frame.

(** Only [create_server] claims a port: every other piece of an
    operation, and so [start_server] too, leaves the port table as it
    is or removes entries from it. *)
Theorem only_create_claims_ports (e : Env) (ev : event) (w w' : World) :
  not_create w ev → step e ev w = Some w' →
  allocated_ports w' ⊆ allocated_ports w.
Proof.
  assert (Hrun : ∀ t c, preserving ports_shrink c →
                        preserving ports_shrink (run_piece t c)).
  { intros t c Hc. unfold run_piece. frame. }
  destruct ev as [op|t|p code err|name key value]; simpl.
  - intros Hop [= <-]. change (ports_shrink w
      (run_piece (length (tasks w)) (first_piece e op)
         (set_tasks (λ ts, ts ++ [Done None]) w)).2).
    etrans; [|apply Hrun]; [unfold ports_shrink; reflexivity|].
    destruct op; [done|..]; unfold first_piece,
      start_server, restart_server, delete_server, stop_server,
      stop_server_finish, stop_returns, delete_server_rest; frame.
  - destruct (tasks w !! t) as [tk|]; [|done].
    destruct (next_piece e tk) as [c|] eqn:Hc; [|done].
    intros Htk [= <-]. apply Hrun.
    destruct tk; try done; simpl in Hc; injection Hc as <-;
      unfold start_server, start_server_spawned,
        start_server_confirm, start_server_crashed, monitor_server,
        monitor_poll, stop_server_slept, stop_server_finish, stop_returns,
        delete_server_rest; frame.
  - destruct (procs w !! p) as [pr|]; [|done].
    destruct (returncode pr); [done|]. intros _ [= <-]. reflexivity.
  - intros _ [= <-].
    assert (Hu : preserving ports_shrink
                   (update_server_properties name key value)) by frame.
    apply Hu.
Qed.

End frames_steps.

(** ** Calls that are refused *)

Lemma insert_placeholder {A} (l : list A) (x y : A) :
  <[length l := y]> (l ++ [x]) = l ++ [y].
Proof.
  rewrite insert_app_r_alt by done. by rewrite Nat.sub_diag.
Qed.

Section refusals.
Context `{JsonLib}.

(** A first piece that returns at once without a change adds one
    finished task. *)
Lemma invoke_returned e op r w :
  first_piece e op (set_tasks (λ ts, ts ++ [Done None]) w)
    = (Done (Some r), set_tasks (λ ts, ts ++ [Done None]) w) →
  step e (Invoke op) w = Some (returned r w).
Proof.
  intros Hp. simpl. rewrite run_piece_eq, Hp. simpl. f_equal.
  unfold returned, set_tasks. simpl. by rewrite insert_placeholder.
Qed.

(** A name that is not in [self.servers] is refused by [start_server],
    [stop_server], [restart_server] and [delete_server] with the same
    message, and nothing else happens. *)
Theorem unknown_server_refused (e : Env) (op : operation) (name : string)
    (w : World) :
  op ∈ [StartServer name; StopServer name; RestartServer name;
        DeleteServer name] →
  PyDict.get name (servers w) = None →
  step e (Invoke op) w
  = Some (returned (Returns (false, "Server '" +:+ name +:+ "' does not exist")) w).
Proof.
  intros Hop Hget. apply invoke_returned.
  repeat (apply elem_of_cons in Hop as [->|Hop]);
    [..|by apply elem_of_nil in Hop];
    unfold first_piece, start_server, restart_server, delete_server,
      stop_server, stop_returns, finish, bind, gets, ret; simpl;
    by rewrite Hget.
Qed.

(** [stop_server] and [restart_server] refuse a server whose status is
    not RUNNING, [restart_server] with the message of [stop_server] and
    without a start; [start_server] refuses a server whose status is
    RUNNING. Nothing else happens. *)
Theorem status_refused (e : Env) (name : string) (server : loc) (w : World) :
  PyDict.get name (servers w) = Some server →
  (status (heap w !!! server) ≠ value RUNNING →
     ∀ op, op ∈ [StopServer name; RestartServer name] →
     step e (Invoke op) w
     = Some (returned (Returns (false, "Server '" +:+ name +:+ "' is not running")) w))
  ∧ (status (heap w !!! server) = value RUNNING →
     step e (Invoke (StartServer name)) w
     = Some (returned (Returns (false, "Server '" +:+ name +:+ "' is already running")) w)).
Proof.
  intros Hget. split.
  - intros Hst op Hop. apply invoke_returned.
    repeat (apply elem_of_cons in Hop as [->|Hop]);
      [..|by apply elem_of_nil in Hop];
      unfold first_piece, restart_server, stop_server, stop_returns, finish,
        deref, bind, gets, ret; simpl; rewrite Hget;
      by rewrite decide_True.
  - intros Hst. apply invoke_returned.
    unfold first_piece, start_server, finish, deref, bind, gets, ret. simpl.
    rewrite Hget. by rewrite decide_True.
Qed.

(** [create_server] with the lock free: a name that is taken, a count
    of RUNNING servers at the ceiling, and a port range without a free
    port are refused in this order, each with its message; the lock is
    free again and nothing else has happened. With the lock held the
    call waits. *)
Theorem create_server_refused (e : Env) (name version : string)
    (memory : option Z) (url : option string) (w : World) :
  (lock w = false →
   (PyDict.mem name (servers w) = true →
      step e (Invoke (CreateServer name version memory url)) w
      = Some (returned (Returns (false,
          "Server '" +:+ name +:+ "' already exists")) w))
   ∧ (PyDict.mem name (servers w) = false →
      max_concurrent (config w) ≤ (get_running_count w).1 →
      step e (Invoke (CreateServer name version memory url)) w
      = Some (returned (Returns (false,
          "Maximum concurrent servers (" +:+ pretty (max_concurrent (config w))
          +:+ ") reached")) w))
   ∧ (PyDict.mem name (servers w) = false →
      (get_running_count w).1 < max_concurrent (config w) →
      (allocate_port w).1 = None →
      step e (Invoke (CreateServer name version memory url)) w
      = Some (returned (Returns (false,
          "No available ports in configured range")) w)))
  ∧ (lock w = true →
     step e (Invoke (CreateServer name version memory url)) w
     = Some (set_tasks (λ ts, ts ++ [CreateLockWait name version memory url]) w)).
Proof.
  assert (Hunlock : ∀ w0, lock w0 = false → set_lock false (set_lock true w0) = w0).
  { intros [] Hl. simpl in Hl. by subst. }
  split.
  - intros Hlock. split; [|split].
    + intros Hm. apply invoke_returned.
      unfold first_piece, create_server, create_server_locked, finish,
        bind, gets, modify, ret. simpl. rewrite Hlock. simpl. rewrite Hm.
      by rewrite Hunlock.
    + intros Hm Hmax. apply invoke_returned.
      unfold first_piece, create_server, create_server_locked, finish,
        get_running_count, bind, gets, modify, ret in *. simpl in *.
      rewrite Hlock. simpl. rewrite Hm.
      rewrite bool_decide_eq_true_2 by done. by rewrite Hunlock.
    + intros Hm Hmax Hnone. apply invoke_returned.
      unfold first_piece, create_server, create_server_locked, finish,
        get_running_count, bind, gets, modify, ret. simpl.
      rewrite Hlock. simpl. rewrite Hm.
      destruct (bool_decide _) eqn:Hb.
      { apply bool_decide_eq_true in Hb. exfalso. revert Hb Hmax.
        unfold get_running_count, gets. simpl. lia. }
      set (w0 := set_lock true _).
      pose proof (allocate_port_frame w0) as Hframe.
      pose proof (allocate_port_ext w0 w eq_refl eq_refl) as Hext.
      rewrite Hnone in Hext.
      destruct (allocate_port w0) as [p w1]. simpl in *. subst.
      unfold w0. by rewrite Hunlock.
  - intros Hlock. simpl. rewrite run_piece_eq.
    unfold create_server, bind, gets, ret. simpl. rewrite Hlock. simpl.
    f_equal. unfold set_tasks. simpl. by rewrite insert_placeholder.
Qed.

End refusals.

(** ** A successful [create_server] *)

Lemma fleet_ext w w' :
  servers w' = servers w → heap w' = heap w → fleet w' = fleet w.
Proof. intros Hs Hh. unfold fleet. by rewrite Hs, Hh. Qed.

Section create_success.
Context `{JsonLib}.

(** What the first piece of [create_server] has established when it
    ends at the download. *)
Lemma create_server_download_inv name version memory url w name' port server w' :
  create_server name version memory url w = (CreateDownload name' port server, w') →
  name' = name
  ∧ server = new_server name version memory url port (default_memory (config w))
  ∧ PyDict.mem name (servers w) = false
  ∧ (allocate_port w).1 = Some port
  ∧ w' = set_fs (set_server_dirs (λ d, {[name]} ∪ d)) (set_lock true w).
Proof.
  unfold create_server, create_server_locked, finish, get_running_count.
  unfold bind, gets, modify, ret. simpl.
  destruct (lock w); [done|].
  destruct (PyDict.mem name (servers w)); [done|].
  destruct (bool_decide _); [done|].
  destruct (allocate_port (set_lock true w)) as [[p|] w0] eqn:Ha; [|done].
  pose proof (allocate_port_frame (set_lock true w)) as Hframe.
  pose proof (allocate_port_ext (set_lock true w) w eq_refl eq_refl) as Hext.
  rewrite Ha in Hframe, Hext. simpl in Hframe, Hext. subst w0.
  intros [= <- <- <- <-]. done.
Qed.

(** When the checks of [create_server] have passed and the download
    succeeds, the call returns success on the lowest free port: the
    fleet has one descriptor more, STOPPED, with the memory that was
    asked for or the default; the port is claimed for the name, the lock
    is free, the state file holds the new fleet, and the only file of
    the server that may have changed is what the download unpacked. *)
Theorem create_server_succeeds (e e' : Env) (name version : string)
    (memory : option Z) (url : option string)
    (port : Z) (server : ServerConfig) (w w1 w2 : World) :
  closed w →
  step e (Invoke (CreateServer name version memory url)) w = Some w1 →
  tasks w1 !! length (tasks w) = Some (CreateDownload name port server) →
  acquisition_succeeds e' url →
  step e' (Wake (length (tasks w))) w1 = Some w2 →
  tasks w2 !! length (tasks w)
    = Some (Done (Some (Returns (true,
        "Server '" +:+ name +:+ "' created successfully on port "
        +:+ pretty port))))
  ∧ (allocate_port w).1 = Some port
  ∧ fleet w2
    = fleet w ++ [(name, new_server name version memory url port
                           (default_memory (config w)))]
  ∧ allocated_ports w2 = <[port := name]> (allocated_ports w)
  ∧ lock w2 = false
  ∧ synced w2
  ∧ props_files (fs w2)
    = match unpacked e' with
      | Some text => <[name := text]> (props_files (fs w))
      | None => props_files (fs w)
      end.
Proof.
  intros Hclosed Hstep1 Htask Hok Hstep2.
  simpl in Hstep1. injection Hstep1 as <-.
  rewrite run_piece_eq in Htask, Hstep2.
  destruct (create_server name version memory url _) as [tk w0] eqn:Hc.
  simpl in Htask, Hstep2.
  destruct (decide (length (tasks w) < length (tasks w0))%nat) as [Hlen|Hlen].
  2:{ rewrite list_insert_ge in Htask by lia.
      apply lookup_lt_Some in Htask. lia. }
  rewrite list_lookup_insert_eq in Htask by done. injection Htask as ->.
  apply create_server_download_inv in Hc as (_ & -> & Hm & Halloc & ->).
  simpl in Hm.
  rewrite list_lookup_insert_eq in Hstep2 by done. simpl in Hstep2.
  injection Hstep2 as <-.
  assert (Halloc' : (allocate_port w).1 = Some port).
  { rewrite <- Halloc. by apply allocate_port_ext. }
  assert (Hname : name ∉ PyDict.keys (servers w)).
  { by apply PyDictFacts.get_None, PyDictFacts.mem_false. }
  destruct (fleet_alloc w name
              (new_server name version memory url port
                 (default_memory (config w))) Hclosed Hname)
    as (Hfleet & _ & _).
  unfold acquisition_succeeds in Hok.
  set (srv := new_server _ _ _ _ _ _) in *.
  assert (Hcommit : ∀ wu, servers wu = servers w → heap wu = heap w →
            allocated_ports wu = allocated_ports w →
            (create_server_commit name port srv wu).1
              = Done (Some (Returns (true,
                  "Server '" +:+ name +:+ "' created successfully on port "
                  +:+ pretty port)))
            ∧ fleet (create_server_commit name port srv wu).2
              = fleet w ++ [(name, srv)]
            ∧ allocated_ports (create_server_commit name port srv wu).2
              = <[port := name]> (allocated_ports w)
            ∧ lock (create_server_commit name port srv wu).2 = false
            ∧ synced (create_server_commit name port srv wu).2
            ∧ props_files (fs (create_server_commit name port srv wu).2)
              = props_files (fs wu)
            ∧ tasks (create_server_commit name port srv wu).2 = tasks wu).
  { intros wu Hs Hh Hp.
    destruct (create_server_commit name port srv wu) as [tk w3] eqn:Hcm.
    revert Hcm. unfold create_server_commit, finish, alloc.
    unfold bind at 1. unfold gets at 1.
    assert (Hupd : (if bool_decide (is_Some (props_files (fs wu) !! name))
                    then bind (update_server_properties name "server-port"
                                 (pretty port)) (λ _, ret tt)
                    else ret tt) wu = (tt, wu)).
    { destruct (bool_decide _); [|done]. unfold bind.
      rewrite update_server_properties_unknown; [done|]. by rewrite Hs. }
    unfold bind at 1. rewrite Hupd.
    unfold bind, gets, modify, ret. rewrite save_server_states_world.
    intros [= <- <-]. simpl.
    split; [done|]. split.
    { rewrite <- Hfleet. apply fleet_ext; simpl; by rewrite ?Hs, ?Hh. }
    split; [by rewrite Hp|]. split; [done|]. split; [|done].
    unfold synced. simpl. done. }
  set (w1 := set_tasks _ _).
  set (wu := match unpacked e' with
             | Some text => set_fs (set_props_files <[name := text]>) w1
             | None => w1
             end).
  assert (Hdl : create_server_downloaded e' name port srv w1
                = create_server_commit name port srv wu).
  { unfold create_server_downloaded, wu. unfold bind at 1.
    change (modpack_url srv) with url.
    destruct (unpacked e') as [text|]; unfold modify, ret;
      (destruct (truthy url);
       [ destruct (curseforge e') as [ok msg]; simpl in Hok; by subst ok
       | by rewrite Hok ]). }
  rewrite run_piece_eq, Hdl.
  destruct (Hcommit wu) as (Hr & Hf & Hp & Hl & Hs & Hprops & Htasks).
  { unfold wu. by destruct (unpacked e'). }
  { unfold wu. by destruct (unpacked e'). }
  { unfold wu. by destruct (unpacked e'). }
  split.
  { simpl. rewrite Hr. apply list_lookup_insert_eq. rewrite Htasks.
    unfold wu. destruct (unpacked e'); simpl;
      rewrite length_insert, length_app; simpl; lia. }
  split; [exact Halloc'|]. split; [exact Hf|]. split; [exact Hp|].
  split; [exact Hl|]. split; [exact Hs|].
  simpl. rewrite Hprops. unfold wu. by destruct (unpacked e').
Qed.

End create_success.

(** ** [start_server], [stop_server] and [delete_server] when they go through *)

Section lifecycle_facts.
Context `{JsonLib}.

Lemma synced_save w :
  synced (set_fs (set_state_file
            (Some (concat_chunks (json_dump (states_of w))))) w).
Proof. unfold synced. done. Qed.

(** When [create_subprocess_shell] has returned the child, the
    descriptor is STARTING with the process id of the child and the time
    of the clock, this is in the state file, the process is registered
    under the name, a monitor task has been created and registered, and
    [start_server] sleeps through the confirmation window. *)
Theorem start_server_spawns (e : Env) (t : tid) (name : string) (server : loc)
    (child : Z) (w w' : World) :
  tasks w !! t = Some (StartSpawn name server) →
  (server < length (heap w))%nat →
  spawn e = Some child →
  step e (Wake t) w = Some w' →
  tasks w' !! t = Some (StartConfirm name server (length (procs w)))
  ∧ procs w' = procs w ++ [{| proc_pid := child; returncode := None;
                               stderr_data := EmptyString; signals := [] |}]
  ∧ processes w' !! name = Some (length (procs w))
  ∧ monitoring_tasks w' !! name = Some (length (tasks w))
  ∧ tasks w' !! length (tasks w) = Some (MonitorCreated name)
  ∧ status (heap w' !!! server) = value STARTING
  ∧ pid (heap w' !!! server) = Some child
  ∧ last_started (heap w' !!! server) = Some (clock e)
  ∧ (∀ l, l ≠ server → heap w' !!! l = heap w !!! l)
  ∧ servers w' = servers w
  ∧ allocated_ports w' = allocated_ports w
  ∧ synced w'.
Proof.
  intros Htask Hl Hspawn Hstep. pose proof (lookup_lt_Some _ _ _ Htask) as Ht.
  simpl in Hstep. rewrite Htask in Hstep. simpl in Hstep.
  injection Hstep as <-. rewrite run_piece_eq.
  destruct (start_server_spawned e name server w) as [tk w1] eqn:Hs.
  revert Hs. unfold start_server_spawned. rewrite Hspawn.
  unfold create_task, assign, bind, gets, modify, ret.
  rewrite save_server_states_world. intros [= <- <-]. simpl.
  rewrite !list_lookup_total_insert_eq by (rewrite ?length_insert; done).
  split.
  { apply list_lookup_insert_eq. rewrite length_app. simpl. lia. }
  split; [done|]. split; [apply lookup_insert_eq|].
  split; [apply lookup_insert_eq|]. split.
  { rewrite list_lookup_insert_ne by lia.
    rewrite lookup_app_r by done. by rewrite Nat.sub_diag. }
  split; [done|]. split; [done|]. split; [done|]. split.
  { intros l Hne. by rewrite !list_lookup_total_insert_ne. }
  split; [done|]. split; [done|]. apply synced_save.
Qed.

(** At the end of the confirmation window a child that has not exited
    makes the descriptor RUNNING, which goes into the state file, and
    [start_server] returns success; a child that has exited sends
    [start_server] to [communicate] and nothing is changed yet. *)
Theorem start_server_confirms (e : Env) (t : tid) (name : string)
    (server : loc) (process : proc) (w w' : World) :
  tasks w !! t = Some (StartConfirm name server process) →
  (server < length (heap w))%nat →
  step e (Wake t) w = Some w' →
  match returncode (procs w !!! process) with
  | None =>
      tasks w' !! t
        = Some (Done (Some (Returns (true, "Server '" +:+ name +:+ "' started"))))
      ∧ heap w' = <[server := with_status (value RUNNING) (heap w !!! server)]> (heap w)
      ∧ synced w'
  | Some _ =>
      w' = set_tasks (λ ts, <[t := StartCommunicate name server process]> ts) w
  end.
Proof.
  intros Htask Hl Hstep. pose proof (lookup_lt_Some _ _ _ Htask) as Ht.
  simpl in Hstep. rewrite Htask in Hstep. simpl in Hstep.
  injection Hstep as <-. rewrite run_piece_eq.
  unfold start_server_confirm, finish, assign, bind, gets, modify, ret.
  destruct (returncode (procs w !!! process)); [done|].
  rewrite save_server_states_world. simpl.
  split; [by apply list_lookup_insert_eq|]. split; [done|]. apply synced_save.
Qed.

(** When [stop_server] wakes from its sleep it kills a child that has
    not exited, and in either case leaves the descriptor STOPPED without
    a process id, in the state file too, and returns success; no other
    descriptor, and neither the fleet nor the port table, is touched. *)
Theorem stop_server_completes (e : Env) (t : tid) (name : string)
    (server : loc) (process : proc) (w w' : World) :
  tasks w !! t = Some (StopSleep name server process ByOperator) →
  (server < length (heap w))%nat →
  (process < length (procs w))%nat →
  step e (Wake t) w = Some w' →
  tasks w' !! t
    = Some (Done (Some (Returns (true, "Server '" +:+ name +:+ "' stopped"))))
  ∧ status (heap w' !!! server) = value STOPPED
  ∧ pid (heap w' !!! server) = None
  ∧ crash_count (heap w' !!! server) = crash_count (heap w !!! server)
  ∧ (∀ l, l ≠ server → heap w' !!! l = heap w !!! l)
  ∧ signals (procs w' !!! process)
    = signals (procs w !!! process)
      ++ (match returncode (procs w !!! process) with
          | None => [SIGKILL]
          | Some _ => []
          end)
  ∧ servers w' = servers w
  ∧ allocated_ports w' = allocated_ports w
  ∧ synced w'.
Proof.
  intros Htask Hl Hp Hstep. pose proof (lookup_lt_Some _ _ _ Htask) as Ht.
  simpl in Hstep. rewrite Htask in Hstep. simpl in Hstep.
  injection Hstep as <-. rewrite run_piece_eq.
  destruct (stop_server_slept name server process ByOperator w) as [tk w1] eqn:Hs.
  revert Hs.
  unfold stop_server_slept, stop_server_finish, stop_returns, finish,
    send_signal, assign, bind, gets, modify, ret.
  destruct (returncode (procs w !!! process));
    rewrite save_server_states_world; intros [= <- <-]; simpl;
    rewrite ?list_lookup_total_insert_eq by (rewrite ?length_insert; done);
    (split; [by apply list_lookup_insert_eq|]);
    (split; [done|]); (split; [done|]); (split; [done|]);
    (split; [intros l Hne; by rewrite !list_lookup_total_insert_ne|]);
    (split; [by rewrite ?app_nil_r|]);
    (split; [done|]); (split; [done|]); apply synced_save.
Qed.

Lemma delete_server_rest_world (name : string) (server : loc) (w : World) :
  PyDict.mem name (servers w) = true →
  (delete_server_rest name server w).1
    = Done (Some (Returns (true, "Server '" +:+ name +:+ "' deleted")))
  ∧ servers (delete_server_rest name server w).2 = PyDict.del name (servers w)
  ∧ heap (delete_server_rest name server w).2 = heap w
  ∧ allocated_ports (delete_server_rest name server w).2
    = delete (port (heap w !!! server)) (allocated_ports w)
  ∧ processes (delete_server_rest name server w).2 = delete name (processes w)
  ∧ procs (delete_server_rest name server w).2 = procs w
  ∧ length (tasks (delete_server_rest name server w).2) = length (tasks w)
  ∧ (name ∉ server_dirs (fs (delete_server_rest name server w).2))
  ∧ synced (delete_server_rest name server w).2.
Proof.
  intros Hmem.
  destruct (delete_server_rest name server w) as [tk w1] eqn:Hd.
  revert Hd. unfold delete_server_rest, deref, cancel, release_port, finish.
  unfold bind, gets, modify, ret. cbn -[save_server_states].
  destruct (monitoring_tasks w !! name) as [m|] eqn:Hm;
    cbn -[save_server_states];
    destruct (allocated_ports w !! port (heap w !!! server)) eqn:Hport;
    cbn -[save_server_states]; rewrite Hmem; cbn -[save_server_states];
    rewrite save_server_states_world; intros [= <- <-]; cbn.
  all: split; [done|]; split; [done|]; split; [done|].
  all: split; [first [done | by rewrite delete_id]|].
  all: split; [done|]; split; [done|].
  all: split; [repeat case_match; by rewrite ?length_insert|].
  all: split; [intros [_ Hn]%elem_of_difference; by apply Hn, elem_of_singleton
              |apply synced_save].
Qed.

Lemma delete_server_rest_tasks (name : string) (server : loc) (w : World) :
  PyDict.mem name (servers w) = true →
  monitoring_tasks (delete_server_rest name server w).2
    = delete name (monitoring_tasks w)
  ∧ props_files (fs (delete_server_rest name server w).2) !! name = None
  ∧ (∀ m process l,
       monitoring_tasks w !! name = Some m →
       tasks w !! m = Some (MonitorSleep name l process) →
       tasks (delete_server_rest name server w).2 !! m = Some (Done None)).
Proof.
  intros Hmem.
  destruct (delete_server_rest name server w) as [tk w1] eqn:Hd.
  revert Hd. unfold delete_server_rest, deref, cancel, release_port, finish.
  unfold bind, gets, modify, ret. cbn -[save_server_states].
  destruct (monitoring_tasks w !! name) as [m|] eqn:Hm;
    cbn -[save_server_states];
    destruct (allocated_ports w !! port (heap w !!! server)) eqn:Hport;
    cbn -[save_server_states]; rewrite Hmem; cbn -[save_server_states];
    rewrite save_server_states_world; intros [= <- <-]; cbn.
  all: split; [first [done | by rewrite delete_id]|].
  all: split; [apply lookup_delete_eq|].
  all: intros m' process l Hm' Htk; try done.
  all: injection Hm' as <-.
  all: rewrite Htk; apply list_lookup_insert_eq; by eapply lookup_lt_Some.
Qed.

(** [delete_server] of a server whose status is not RUNNING runs in one
    piece: the name leaves the fleet, the port of the descriptor is
    released, the process handle and the monitor registered under the
    name are dropped and a sleeping monitor is cancelled, the directory
    of the server is removed, and the state file holds the remaining
    fleet. *)
Theorem delete_server_deletes (e : Env) (name : string) (server : loc)
    (w w' : World) :
  PyDict.get name (servers w) = Some server →
  status (heap w !!! server) ≠ value RUNNING →
  step e (Invoke (DeleteServer name)) w = Some w' →
  tasks w' !! length (tasks w)
    = Some (Done (Some (Returns (true, "Server '" +:+ name +:+ "' deleted"))))
  ∧ servers w' = PyDict.del name (servers w)
  ∧ heap w' = heap w
  ∧ allocated_ports w' = delete (port (heap w !!! server)) (allocated_ports w)
  ∧ processes w' = delete name (processes w)
  ∧ monitoring_tasks w' = delete name (monitoring_tasks w)
  ∧ (∀ m process l,
       monitoring_tasks w !! name = Some m →
       tasks w !! m = Some (MonitorSleep name l process) →
       tasks w' !! m = Some (Done None))
  ∧ (name ∉ server_dirs (fs w'))
  ∧ props_files (fs w') !! name = None
  ∧ synced w'.
Proof.
  intros Hget Hst Hstep. simpl in Hstep. injection Hstep as <-.
  rewrite run_piece_eq.
  assert (Hmem : PyDict.mem name (servers w) = true).
  { apply PyDictFacts.mem_true. by eexists. }
  set (w0 := set_tasks (λ ts, ts ++ [Done None]) w).
  assert (Hd : delete_server e name w0 = delete_server_rest name server w0).
  { unfold delete_server, deref. unfold bind at 1 2. unfold gets.
    cbn [servers heap set_tasks w0 fst snd]. rewrite Hget.
    by rewrite decide_False by done. }
  rewrite Hd.
  destruct (delete_server_rest_world name server w0 Hmem)
    as (Hr & Hs & Hh & Hports & Hps & _ & Hlen & Hdir & Hsync).
  destruct (delete_server_rest_tasks name server w0 Hmem)
    as (Hmt & Hprops & Hcancel).
  destruct (delete_server_rest name server w0) as [tk w1]. simpl in *.
  subst tk.
  split.
  { apply list_lookup_insert_eq. rewrite Hlen, length_app. simpl. lia. }
  do 5 (split; [done|]).
  split.
  { intros m process l Hm Htk.
    assert (Hlt : (m < length (tasks w))%nat) by by eapply lookup_lt_Some.
    rewrite list_lookup_insert_ne by lia.
    apply (Hcancel m process l Hm). by rewrite lookup_app_l. }
  done.
Qed.

End lifecycle_facts.

(** ** [auto_start_on_boot] *)

Lemma get_elem_of_wf {V} (d : list (string * V)) k v :
  PyDict.wf d → (k, v) ∈ d → PyDict.get k d = Some v.
Proof.
  unfold PyDict.wf, PyDict.keys. induction d as [|[k' v'] d IH]; simpl.
  - intros _ Hin. by apply elem_of_nil in Hin.
  - intros Hnd Hin. apply NoDup_cons in Hnd as [Hk' Hnd].
    apply elem_of_cons in Hin as [[= -> ->]|Hin].
    + by rewrite decide_True.
    + rewrite decide_False; [by apply IH|].
      intros ->. apply Hk'. apply list_elem_of_fmap. by exists (k', v).
Qed.

Lemma auto_start_loop_idle items w :
  (∀ n l, (n, l) ∈ items → PyDict.get n (servers w) = Some l) →
  auto_start_loop items w = (None, w).
Proof.
  induction items as [|[n l] items IH]; intros Hget; [done|].
  assert (IH' : auto_start_loop items w = (None, w)).
  { apply IH. intros n' l' Hin. apply Hget. by right. }
  simpl. unfold deref, bind at 1, gets.
  destruct (decide _) as [Hst|Hst]; [|exact IH'].
  unfold start_server. unfold bind, deref, finish, gets, ret.
  rewrite (Hget n l) by left. by rewrite decide_True.
Qed.

(** [auto_start_on_boot] starts nothing: it calls [start_server] for the
    descriptors whose status is RUNNING, and [start_server] refuses
    exactly those. It returns without a suspension and the world is
    what it was. *)
Theorem auto_start_on_boot_idle (enabled : bool) (w : World) :
  PyDict.wf (servers w) → auto_start_on_boot enabled w = (None, w).
Proof.
  intros Hwf. unfold auto_start_on_boot. destruct enabled; [|done].
  unfold bind, gets. simpl. apply auto_start_loop_idle.
  intros n l Hin. by apply get_elem_of_wf.
Qed.

(** ** [load_server_states] *)

Section load_facts.
Context `{JsonLib}.

Lemma ServerConfig_init_keywords kwargs :
  keywords_ok kwargs = false → ServerConfig_init kwargs = None.
Proof.
  unfold keywords_ok, ServerConfig_init. intros Hk.
  destruct (forallb _ (PyDict.keys kwargs)); [|done].
  simpl in Hk. unfold kwarg.
  destruct (bool_decide ("name" ∈ PyDict.keys kwargs)) eqn:Hname.
  2:{ apply bool_decide_eq_false in Hname.
      rewrite (proj2 (PyDictFacts.get_None _ _) Hname). reflexivity. }
  destruct (PyDict.get "name" kwargs) as [j|]; [|reflexivity].
  destruct (as_str j) as [name|]; [|reflexivity]. cbn [mbind option_bind].
  destruct (bool_decide ("version" ∈ PyDict.keys kwargs)) eqn:Hversion.
  2:{ apply bool_decide_eq_false in Hversion.
      rewrite (proj2 (PyDictFacts.get_None _ _) Hversion). reflexivity. }
  destruct (PyDict.get "version" kwargs) as [j'|]; [|reflexivity].
  destruct (as_str j') as [version|]; [|reflexivity]. cbn [mbind option_bind].
  destruct (bool_decide ("memory" ∈ PyDict.keys kwargs)) eqn:Hmemory; [done|].
  apply bool_decide_eq_false in Hmemory.
  rewrite (proj2 (PyDictFacts.get_None _ _) Hmemory). reflexivity.
Qed.

Lemma load_items_malformed items w n data :
  (n, data) ∈ items → malformed data →
  (load_items items w).1 = Raises "TypeError".
Proof.
  revert w. induction items as [|[n0 d0] items IH]; intros w Hin Hbad.
  - by apply elem_of_nil in Hin.
  - cbn [load_items]. destruct d0 as [| | | |kwargs| |]; try done.
    destruct (ServerConfig_init kwargs) as [server|] eqn:Hinit; [|done].
    apply elem_of_cons in Hin as [[= -> ->]|Hin].
    { simpl in Hbad. apply ServerConfig_init_keywords in Hbad. congruence. }
    unfold alloc. unfold bind at 1 2 3 4 5. unfold gets, modify, ret.
    destruct (decide _); unfold bind; by apply IH.
Qed.

(** One record of the state file that is not a dictionary, or that has
    a keyword that is not a field of [ServerConfig] or lacks [name],
    [version] or [memory], makes the constructor of the manager raise
    [TypeError]: no record is skipped and no default fleet is used. A
    state file that holds a JSON value other than an object makes it
    raise [AttributeError]. *)
Theorem init_raises_on_malformed_state (c : Config) (f : FileSystem)
    (text : string) :
  state_file f = Some text →
  (∀ items n data,
     json_load text = Some (JObj items) → (n, data) ∈ items → malformed data →
     (MinecraftServerManager_init c f).1 = Raises "TypeError")
  ∧ (∀ v, json_load text = Some v →
          match v with JObj _ => False | _ => True end →
          MinecraftServerManager_init c f
          = (Raises "AttributeError", new_manager c f)).
Proof.
  intros Hf. split.
  - intros items n data Hj Hin Hbad. unfold MinecraftServerManager_init.
    erewrite load_server_states_new; [|exact Hf|exact Hj].
    by eapply load_items_malformed.
  - intros v Hj Hv.
    unfold MinecraftServerManager_init, load_server_states, bind, gets. simpl.
    rewrite Hf, Hj. by destruct v.
Qed.

Lemma load_items_ports (L : list (string * ServerConfig)) w :
  (∀ p n, allocated_ports (load_items ((λ ns, (ns.1, asdict ns.2)) <$> L) w).2 !! p
          = Some n →
     allocated_ports w !! p = Some n
     ∨ ∃ s, (n, s) ∈ L ∧ status s = value RUNNING ∧ port s = p)
  ∧ (∀ p, is_Some (allocated_ports w !! p) →
     is_Some (allocated_ports (load_items ((λ ns, (ns.1, asdict ns.2)) <$> L) w).2 !! p))
  ∧ (∀ n s, (n, s) ∈ L → status s = value RUNNING →
     is_Some (allocated_ports (load_items ((λ ns, (ns.1, asdict ns.2)) <$> L) w).2
                !! port s)).
Proof.
  revert w. induction L as [|[n s] L IH]; intros w.
  - simpl. unfold ret. simpl. split; [by left|]. split; [done|].
    intros n s Hin. by apply elem_of_nil in Hin.
  - cbn [fmap list_fmap load_items fst snd].
    pose proof (ServerConfig_init_asdict s) as Hinit.
    destruct (asdict s) as [| | | |kwargs| |]; try done. rewrite Hinit.
    unfold alloc. unfold bind at 1 2 3 4 5. unfold gets, modify, ret.
    destruct (decide _) as [Hst|Hst]; unfold bind;
      match goal with
      | |- context [load_items _ ?w1] =>
          destruct (IH w1) as (Hfrom & Hkeep & Hrun)
      end; simpl in Hfrom, Hkeep.
    + split; [|split].
      * intros p m Hp. destruct (Hfrom p m Hp) as [Hw|(s' & ? & ? & ?)].
        -- destruct (decide (port s = p)) as [<-|Hne].
           ++ rewrite lookup_insert_eq in Hw. injection Hw as <-.
              right. exists s. split; [left|done].
           ++ rewrite lookup_insert_ne in Hw by done. by left.
        -- right. exists s'. split; [by right|done].
      * intros p Hp. apply Hkeep.
        destruct (decide (port s = p)) as [<-|Hne].
        -- rewrite lookup_insert_eq. by eexists.
        -- by rewrite lookup_insert_ne.
      * intros m s' Hin Hs'. apply elem_of_cons in Hin as [[= -> ->]|Hin].
        -- apply Hkeep. rewrite lookup_insert_eq. by eexists.
        -- by eapply Hrun.
    + split; [|split].
      * intros p m Hp. destruct (Hfrom p m Hp) as [Hw|(s' & ? & ? & ?)].
        -- by left.
        -- right. exists s'. split; [by right|done].
      * intros p Hp. by apply Hkeep.
      * intros m s' Hin Hs'. apply elem_of_cons in Hin as [[= -> ->]|Hin].
        -- done.
        -- by eapply Hrun.
Qed.

(** A manager that is constructed over the state file of a fleet has
    this fleet, and its port table holds the ports of the descriptors
    whose status is RUNNING, each under the name of such a descriptor,
    and no other port: the port of a descriptor with another status is
    free for [allocate_port]. *)
Theorem init_claims_running_ports (c : Config) (f : FileSystem) (text : string)
    (L : list (string * ServerConfig)) :
  state_file f = Some text →
  json_load text = Some (JObj ((λ ns, (ns.1, asdict ns.2)) <$> L)) →
  NoDup L.*1 →
  (MinecraftServerManager_init c f).1 = Returns tt
  ∧ fleet (MinecraftServerManager_init c f).2 = L
  ∧ (∀ p n, allocated_ports (MinecraftServerManager_init c f).2 !! p = Some n →
            ∃ s, (n, s) ∈ L ∧ status s = value RUNNING ∧ port s = p)
  ∧ (∀ n s, (n, s) ∈ L → status s = value RUNNING →
            is_Some (allocated_ports (MinecraftServerManager_init c f).2 !! port s)).
Proof.
  intros Hf Hj Hnd. unfold MinecraftServerManager_init.
  erewrite load_server_states_new; [|exact Hf|exact Hj].
  destruct (load_items_fleet L (new_manager c f)) as [Hr Hfl];
    [constructor | done |].
  destruct (load_items_ports L (new_manager c f)) as (Hfrom & _ & Hrun).
  split; [done|]. split; [done|]. split; [|done].
  intros p n Hp. by destruct (Hfrom p n Hp) as [Hw|?].
Qed.

End load_facts.

(** ** [update_server_properties], twice *)

Lemma set_same {V} (d : list (string * V)) k v :
  PyDict.get k d = Some v → PyDict.set k v d = d.
Proof.
  induction d as [|[k' v'] d IH]; simpl; [done|].
  case_decide as Hk.
  - intros [= ->]. by subst.
  - intros Hg. f_equal. by apply IH.
Qed.

(** Setting a well-formed key to a well-formed value a second time
    changes nothing: the file after the second call is the file after
    the first. *)
Theorem update_server_properties_idempotent (name key value : string) (w : World) :
  property_name_ok key = true → property_value_ok value = true →
  update_server_properties name key value
    (update_server_properties name key value w).2
  = update_server_properties name key value w.
Proof.
  intros Hkey Hvalue.
  destruct (PyDict.mem name (servers w)) eqn:Hm.
  2:{ rewrite (update_server_properties_unknown name key value w Hm).
      by apply update_server_properties_unknown. }
  destruct (props_files (fs w) !! name) as [text|] eqn:Hf.
  2:{ rewrite (update_server_properties_missing name key value w Hf).
      by apply update_server_properties_missing. }
  rewrite (update_server_properties_written name key value w text Hm Hf).
  set (new := PyDict.set key value (read_properties text)).
  erewrite update_server_properties_written;
    [|exact Hm|simpl; apply lookup_insert_eq].
  destruct (read_properties_ok text) as [Hok Hwf].
  rewrite read_write_properties;
    [|by apply Forall_set|by apply PyDictFacts.wf_set].
  rewrite set_same by apply PyDictFacts.get_set_eq.
  f_equal. unfold set_fs, set_props_files. simpl.
  by rewrite insert_insert_eq.
Qed.

(** ** The [/create] command *)

Lemma is_alnum_plain c :
  is_alnum c = true → c ≠ "/"%char ∧ c ≠ "."%char ∧ c ≠ "\"%char
                      ∧ is_space c = false.
Proof.
  destruct c as [[] [] [] [] [] [] [] []]; vm_compute; intros Hc;
    try discriminate Hc; repeat split; discriminate.
Qed.

Lemma all_alnum_plain s :
  all_alnum s = true →
  contains "/" s = false ∧ contains "." s = false ∧ contains "\" s = false.
Proof.
  induction s as [|c s IH]; simpl; [done|].
  intros [Hc Hs]%andb_prop. destruct (IH Hs) as (? & ? & ?).
  destruct (is_alnum_plain c Hc) as (? & ? & ? & _).
  rewrite !decide_False by done. done.
Qed.

Lemma has_prefix_nonempty a p s : has_prefix (String a p) s = true → s ≠ EmptyString.
Proof. by destruct s. Qed.

(** When [/create] reaches the manager, the caller has the required
    role and the name is a non-empty alphanumeric string, hence free of
    path separators and dots, and it is passed on as it is. An argument
    that starts with [http://] or [https://] becomes the mod-pack URL of
    a server of version [modpack], which sends [create_server] to the
    mod-pack download; any other argument is the version of a vanilla
    download. *)
Theorem bot_create_server_calls (permitted : bool) (name version_or_url : string)
    (memory : option Z) (op : operation) :
  bot_create_server permitted name version_or_url memory = CallManager op →
  permitted = true
  ∧ isalnum name = true
  ∧ name ≠ EmptyString
  ∧ contains "/" name = false ∧ contains "." name = false
  ∧ contains "\" name = false
  ∧ ∃ version url,
      op = CreateServer name version memory url
      ∧ truthy url = has_prefix "http://" version_or_url
                     || has_prefix "https://" version_or_url
      ∧ (truthy url = true → version = "modpack" ∧ url = Some version_or_url)
      ∧ (truthy url = false → version = version_or_url ∧ url = None).
Proof.
  unfold bot_create_server. destruct permitted; [|done]. cbn [negb].
  destruct (isalnum name) eqn:Hname; [|done]. cbn [negb].
  assert (Hne : name ≠ EmptyString) by (by destruct name).
  assert (Hplain : all_alnum name = true) by (by destruct name).
  apply all_alnum_plain in Hplain as (? & ? & ?).
  destruct (has_prefix "http://" version_or_url) eqn:Hhttp; cbn [orb].
  - intros [= <-]. repeat (split; [done|]).
    exists "modpack", (Some version_or_url). split; [done|].
    assert (Htruthy : truthy (Some version_or_url) = true).
    { simpl. apply negb_true_iff, bool_decide_eq_false.
      by apply has_prefix_nonempty in Hhttp. }
    rewrite Htruthy. by repeat split.
  - destruct (has_prefix "https://" version_or_url) eqn:Hhttps.
    + intros [= <-]. repeat (split; [done|]).
      exists "modpack", (Some version_or_url). split; [done|].
      assert (Htruthy : truthy (Some version_or_url) = true).
      { simpl. apply negb_true_iff, bool_decide_eq_false.
        by apply has_prefix_nonempty in Hhttps. }
      rewrite Htruthy. by repeat split.
    + intros [= <-]. repeat (split; [done|]).
      exists version_or_url, None. by repeat split.
Qed.

(** ** Calls that go through a stop *)

Section compositions.
Context `{JsonLib}.

(** When [process.terminate()] raises, which it does once the child has
    been reaped, [stop_server] lets the exception through before it
    touches the descriptor: a server that is RUNNING with such a child
    can neither be stopped nor restarted nor deleted, and each of the
    three calls leaves everything as it was. *)
Theorem terminate_error_propagates (e : Env) (op : operation) (name : string)
    (server : loc) (process : proc) (w : World) :
  op ∈ [StopServer name; RestartServer name; DeleteServer name] →
  PyDict.get name (servers w) = Some server →
  status (heap w !!! server) = value RUNNING →
  processes w !! name = Some process →
  terminate_raises e = true →
  step e (Invoke op) w = Some (returned (Raises "ProcessLookupError") w).
Proof.
  intros Hop Hget Hst Hproc Hraise. apply invoke_returned.
  assert (Hstop : ∀ k w0, servers w0 = servers w → heap w0 = heap w →
            processes w0 = processes w →
            stop_server e name k w0 = stop_returns k name (Raises "ProcessLookupError") w0).
  { intros k w0 Hs Hh Hp. unfold stop_server, deref. unfold bind, gets.
    rewrite Hs, Hget, Hh. rewrite decide_False by (by intros []).
    by rewrite Hp, Hproc, Hraise. }
  repeat (apply elem_of_cons in Hop as [->|Hop]);
    [..|by apply elem_of_nil in Hop]; unfold first_piece.
  - by rewrite Hstop.
  - unfold restart_server. by rewrite Hstop.
  - unfold delete_server, deref. unfold bind at 1 2. unfold gets.
    cbn [servers set_tasks heap fst snd]. rewrite Hget.
    rewrite decide_True by done. by rewrite Hstop.
Qed.

Lemma stop_server_slept_world (name : string) (server : loc) (process : proc)
    (k : caller) (w : World) :
  (server < length (heap w))%nat → (process < length (procs w))%nat →
  ∃ w1,
    stop_server_slept name server process k w
      = stop_returns k name (Returns (true, "Server '" +:+ name +:+ "' stopped")) w1
    ∧ servers w1 = servers w
    ∧ heap w1 = <[server := with_pid None (with_status (value STOPPED)
                                             (heap w !!! server))]> (heap w)
    ∧ allocated_ports w1 = allocated_ports w
    ∧ processes w1 = processes w
    ∧ monitoring_tasks w1 = monitoring_tasks w
    ∧ tasks w1 = tasks w
    ∧ lock w1 = lock w
    ∧ config w1 = config w
    ∧ server_dirs (fs w1) = server_dirs (fs w)
    ∧ length (procs w1) = length (procs w)
    ∧ signals (procs w1 !!! process)
      = signals (procs w !!! process)
        ++ (match returncode (procs w !!! process) with
            | None => [SIGKILL]
            | Some _ => []
            end)
    ∧ synced w1.
Proof.
  intros Hl Hp.
  unfold stop_server_slept, stop_server_finish, send_signal, assign.
  unfold bind, gets, modify, ret.
  destruct (returncode (procs w !!! process));
    rewrite save_server_states_world; eexists; (split; [reflexivity|]); simpl;
    rewrite ?list_lookup_total_insert_eq by (rewrite ?length_insert; done);
    rewrite ?list_insert_insert_eq, ?length_insert, ?app_nil_r;
    repeat (split; [done|]); apply synced_save.
Qed.

(** [delete_server] of a server that is RUNNING stops it first: the
    child gets SIGTERM, and SIGKILL one second later when it has not
    exited; then the name leaves the fleet, the port of the descriptor
    is released, the process handle is dropped, the directory is
    removed, and the state file holds the remaining fleet. *)
Theorem delete_server_stops_first (e e' : Env) (name : string) (server : loc)
    (process : proc) (w w' : World) :
  PyDict.get name (servers w) = Some server →
  status (heap w !!! server) = value RUNNING →
  processes w !! name = Some process →
  terminate_raises e = false →
  (server < length (heap w))%nat → (process < length (procs w))%nat →
  run [(e, Invoke (DeleteServer name)); (e', Wake (length (tasks w)))] w = Some w' →
  tasks w' !! length (tasks w)
    = Some (Done (Some (Returns (true, "Server '" +:+ name +:+ "' deleted"))))
  ∧ servers w' = PyDict.del name (servers w)
  ∧ allocated_ports w' = delete (port (heap w !!! server)) (allocated_ports w)
  ∧ processes w' = delete name (processes w)
  ∧ signals (procs w' !!! process)
    = signals (procs w !!! process)
      ++ SIGTERM :: (match returncode (procs w !!! process) with
                     | None => [SIGKILL]
                     | Some _ => []
                     end)
  ∧ (name ∉ server_dirs (fs w'))
  ∧ synced w'.
Proof.
  intros Hget Hst Hproc Hterm Hl Hp.
  assert (Hmem : PyDict.mem name (servers w) = true).
  { apply PyDictFacts.mem_true. by eexists. }
  cbn [run step]. rewrite run_piece_eq.
  assert (Hfirst : first_piece e (DeleteServer name)
                     (set_tasks (λ ts, ts ++ [Done None]) w)
                   = (StopSleep name server process (ByDelete server),
                      (send_signal process SIGTERM
                         (set_tasks (λ ts, ts ++ [Done None]) w)).2)).
  { unfold first_piece, delete_server, stop_server, deref.
    unfold bind, gets, ret. cbn [servers set_tasks heap processes fst snd].
    rewrite Hget. rewrite decide_True by done.
    cbn [servers set_tasks heap processes fst snd]. rewrite Hget.
    rewrite decide_False by (by intros []).
    cbn [servers set_tasks heap processes fst snd]. by rewrite Hproc, Hterm. }
  rewrite Hfirst. cbn [fst snd].
  set (w1 := set_tasks _ (send_signal _ _ _).2).
  assert (Htask : tasks w1 !! length (tasks w)
                  = Some (StopSleep name server process (ByDelete server))).
  { subst w1. simpl. rewrite insert_placeholder.
    by rewrite lookup_app_r, Nat.sub_diag by done. }
  rewrite Htask. cbn [next_piece]. rewrite run_piece_eq.
  destruct (stop_server_slept_world name server process (ByDelete server) w1)
    as (w2 & -> & Hs2 & Hh2 & Hports2 & Hps2 & _ & Ht2 & _ & _ & Hd2 & Hlen2
        & Hsig2 & _).
  { subst w1. simpl. done. }
  { subst w1. simpl. by rewrite length_insert. }
  cbn [stop_returns].
  destruct (delete_server_rest_world name server w2)
    as (Hr & Hs3 & Hh3 & Hports3 & Hps3 & Hprocs3 & Hlen3 & Hdir3 & Hsync3).
  { by rewrite Hs2. }
  intros [= <-]. rewrite Hr. cbn [servers allocated_ports processes procs fs tasks
    set_tasks].
  split.
  { apply list_lookup_insert_eq. rewrite Hlen3, Ht2. subst w1. simpl.
    rewrite length_insert, length_app. simpl. lia. }
  split; [by rewrite Hs3, Hs2|].
  split.
  { rewrite Hports3, Hports2, Hh2. subst w1. simpl.
    by rewrite list_lookup_total_insert_eq. }
  split; [by rewrite Hps3, Hps2|].
  split.
  { rewrite Hprocs3, Hsig2. subst w1. simpl.
    rewrite list_lookup_total_insert_eq by done. simpl.
    by rewrite <- app_assoc. }
  split; [done|].
  unfold synced in *. done.
Qed.

(** [restart_server] of a server that is RUNNING is a stop, the settle
    delay and a start: after the second resumption the descriptor is
    STOPPED without a process id and otherwise what it was, the child
    has been signalled, and the call stands before
    [create_subprocess_shell] with the EULA accepted. *)
Theorem restart_server_stops_then_starts (e e1 e2 : Env) (name : string)
    (server : loc) (process : proc) (w w' : World) :
  PyDict.get name (servers w) = Some server →
  status (heap w !!! server) = value RUNNING →
  processes w !! name = Some process →
  terminate_raises e = false →
  (server < length (heap w))%nat → (process < length (procs w))%nat →
  name ∈ server_dirs (fs w) →
  run [(e, Invoke (RestartServer name)); (e1, Wake (length (tasks w)));
       (e2, Wake (length (tasks w)))] w = Some w' →
  tasks w' !! length (tasks w) = Some (StartSpawn name server)
  ∧ heap w' = <[server := with_pid None (with_status (value STOPPED)
                                            (heap w !!! server))]> (heap w)
  ∧ signals (procs w' !!! process)
    = signals (procs w !!! process)
      ++ SIGTERM :: (match returncode (procs w !!! process) with
                     | None => [SIGKILL]
                     | Some _ => []
                     end)
  ∧ name ∈ eula_files (fs w')
  ∧ servers w' = servers w
  ∧ allocated_ports w' = allocated_ports w.
Proof.
  intros Hget Hst Hproc Hterm Hl Hp Hdir.
  cbn [run step]. rewrite run_piece_eq.
  assert (Hfirst : first_piece e (RestartServer name)
                     (set_tasks (λ ts, ts ++ [Done None]) w)
                   = (StopSleep name server process ByRestart,
                      (send_signal process SIGTERM
                         (set_tasks (λ ts, ts ++ [Done None]) w)).2)).
  { unfold first_piece, restart_server, stop_server, deref.
    unfold bind, gets, ret. cbn [servers set_tasks heap processes fst snd].
    rewrite Hget. rewrite decide_False by (by intros []).
    cbn [servers set_tasks heap processes fst snd]. by rewrite Hproc, Hterm. }
  rewrite Hfirst. cbn [fst snd].
  set (w1 := set_tasks _ (send_signal _ _ _).2).
  assert (Htask : tasks w1 !! length (tasks w)
                  = Some (StopSleep name server process ByRestart)).
  { subst w1. simpl. rewrite insert_placeholder.
    by rewrite lookup_app_r, Nat.sub_diag by done. }
  rewrite Htask. cbn [next_piece]. rewrite run_piece_eq.
  destruct (stop_server_slept_world name server process ByRestart w1)
    as (w2 & -> & Hs2 & Hh2 & Hports2 & _ & _ & Ht2 & _ & _ & Hd2 & Hlen2
        & Hsig2 & _).
  { subst w1. simpl. done. }
  { subst w1. simpl. by rewrite length_insert. }
  cbn [stop_returns ret fst snd].
  set (w3 := set_tasks _ w2).
  assert (Htask3 : tasks w3 !! length (tasks w) = Some (RestartSettle name)).
  { subst w3. destruct w2. simpl in *. rewrite Ht2. subst w1. simpl.
    apply list_lookup_insert_eq. rewrite length_insert, length_app. simpl. lia. }
  rewrite Htask3. cbn [next_piece]. rewrite run_piece_eq.
  assert (Hh1 : heap w1 = heap w) by done.
  assert (Hstart : start_server name w3
                   = (StartSpawn name server,
                      set_fs (set_eula_files (λ d, {[name]} ∪ d)) w3)).
  { unfold start_server, deref. unfold bind, gets, modify, ret.
    replace (servers w3) with (servers w) by (subst w3; destruct w2; simpl in *; by subst).
    rewrite Hget.
    replace (heap w3) with (heap w2) by (subst w3; by destruct w2).
    rewrite Hh2, Hh1. rewrite list_lookup_total_insert_eq by done.
    rewrite decide_False by done.
    assert (Hd3 : (server_dirs ∘ fs) w3 = server_dirs (fs w)).
    { subst w3. destruct w2. simpl in *. by rewrite Hd2. }
    rewrite Hd3. by rewrite decide_True. }
  rewrite Hstart. intros [= <-]. cbn [fst snd].
  subst w3. destruct w2. simpl in *. subst.
  split.
  { apply list_lookup_insert_eq. rewrite !length_insert, length_app. simpl. lia. }
  split; [done|]. split.
  { rewrite Hsig2. rewrite list_lookup_total_insert_eq by done. simpl.
    by rewrite <- app_assoc. }
  split; [|done]. apply elem_of_union_l, elem_of_singleton. done.
Qed.

Lemma running_filter_fresh (srv : list (string * loc)) (h : list ServerConfig)
    (server : loc) (s' : ServerConfig) :
  server ∉ srv.*2 →
  filter (λ kl, status (<[server := s']> h !!! kl.2) = value RUNNING) srv
  = filter (λ kl, status (h !!! kl.2) = value RUNNING) srv.
Proof.
  induction srv as [|[k l] srv IH]; [done|]. simpl.
  intros [Hne Hnot]%not_elem_of_cons.
  rewrite !filter_cons. cbn [snd].
  rewrite list_lookup_total_insert_ne by done.
  specialize (IH Hnot). simpl in IH. by rewrite IH.
Qed.

Lemma running_count_insert (srv : list (string * loc)) (h : list ServerConfig)
    (name : string) (server : loc) (s' : ServerConfig) :
  NoDup srv.*2 → (name, server) ∈ srv → (server < length h)%nat →
  status (h !!! server) ≠ value RUNNING → status s' = value RUNNING →
  length (filter (λ kl, status (<[server := s']> h !!! kl.2) = value RUNNING) srv)
  = S (length (filter (λ kl, status (h !!! kl.2) = value RUNNING) srv)).
Proof.
  intros Hnd Hin Hl Hst Hst'.
  induction srv as [|[k l] srv IH]; [by apply elem_of_nil in Hin|].
  simpl in Hnd. apply NoDup_cons in Hnd as [Hfresh Hnd].
  apply elem_of_cons in Hin as [[= <- <-]|Hin].
  - rewrite filter_cons_True
      by (simpl; by rewrite list_lookup_total_insert_eq).
    rewrite (filter_cons_False (λ kl, status (h !!! kl.2) = value RUNNING))
      by done.
    simpl. by rewrite running_filter_fresh.
  - assert (Hne : server ≠ l).
    { intros ->. apply Hfresh. apply list_elem_of_fmap. by exists (name, l). }
    rewrite !filter_cons. cbn [snd].
    rewrite list_lookup_total_insert_ne by done.
    specialize (IH Hnd Hin). simpl in IH. case_decide; simpl; by rewrite IH.
Qed.

(** [start_server] does not look at [max_concurrent]: when the child
    spawns and lives through the confirmation window, a server that was
    not RUNNING is, and the count of RUNNING servers is one more than it
    was, whatever the ceiling. *)
Theorem start_server_ignores_ceiling (e e1 e2 : Env) (name : string)
    (server : loc) (child : Z) (w w' : World) :
  PyDict.get name (servers w) = Some server →
  status (heap w !!! server) ≠ value RUNNING →
  name ∈ server_dirs (fs w) →
  spawn e1 = Some child →
  closed w → NoDup (servers w).*2 →
  run [(e, Invoke (StartServer name)); (e1, Wake (length (tasks w)));
       (e2, Wake (length (tasks w)))] w = Some w' →
  tasks w' !! length (tasks w)
    = Some (Done (Some (Returns (true, "Server '" +:+ name +:+ "' started"))))
  ∧ status (heap w' !!! server) = value RUNNING
  ∧ (get_running_count w').1 = (get_running_count w).1 + 1.
Proof.
  intros Hget Hst Hdir Hspawn Hclosed Hnd.
  assert (Hin : (name, server) ∈ servers w).
  { clear -Hget. induction (servers w) as [|[k l] srv IH]; [done|].
    simpl in Hget. case_decide; [|right; by apply IH].
    injection Hget as <-. subst. left. }
  assert (Hl : (server < length (heap w))%nat).
  { unfold closed in Hclosed. rewrite Forall_forall in Hclosed.
    exact (Hclosed _ Hin). }
  cbn [run step]. rewrite run_piece_eq.
  assert (Hfirst : first_piece e (StartServer name)
                     (set_tasks (λ ts, ts ++ [Done None]) w)
                   = (StartSpawn name server,
                      set_fs (set_eula_files (λ d, {[name]} ∪ d))
                        (set_tasks (λ ts, ts ++ [Done None]) w))).
  { unfold first_piece, start_server, deref. unfold bind, gets, modify, ret.
    cbn [servers set_tasks heap fs fst snd]. rewrite Hget.
    rewrite decide_False by done. cbn. by rewrite decide_True. }
  rewrite Hfirst. cbn [fst snd].
  set (w1 := set_tasks _ (set_fs _ _)).
  assert (Htask : tasks w1 !! length (tasks w) = Some (StartSpawn name server)).
  { subst w1. simpl. rewrite insert_placeholder.
    by rewrite lookup_app_r, Nat.sub_diag by done. }
  rewrite Htask. cbn [next_piece]. rewrite run_piece_eq.
  destruct (start_server_spawned e1 name server w1) as [tk w2] eqn:Hs.
  revert Hs. unfold start_server_spawned. rewrite Hspawn.
  unfold create_task, assign, bind, gets, modify, ret.
  rewrite save_server_states_world. intros [= <- <-]. cbn [fst snd].
  match goal with
  | |- context [tasks ?w0 !! length (tasks w)] => set (w3 := w0)
  end.
  assert (Htask3 : tasks w3 !! length (tasks w)
                   = Some (StartConfirm name server (length (procs w)))).
  { subst w3 w1. simpl. apply list_lookup_insert_eq.
    rewrite !length_app, length_insert, length_app. simpl. lia. }
  rewrite Htask3. cbn [next_piece]. rewrite run_piece_eq.
  destruct (start_server_confirm name server (length (procs w)) w3)
    as [tk w4] eqn:Hc.
  revert Hc. unfold start_server_confirm, finish, assign, bind, gets, modify, ret.
  assert (Hret : returncode (procs w3 !!! length (procs w)) = None).
  { subst w3 w1. simpl. rewrite list_lookup_total_alt.
    by rewrite lookup_app_r, Nat.sub_diag by done. }
  rewrite Hret. rewrite save_server_states_world.
  intros [= <- <-] [= <-]. cbn [fst snd].
  subst w3 w1. simpl.
  rewrite !list_lookup_total_insert_eq by (rewrite ?length_insert; done).
  split.
  { apply list_lookup_insert_eq.
    rewrite length_insert, !length_app, length_insert, length_app. simpl. lia. }
  split; [done|].
  unfold get_running_count, gets. simpl.
  rewrite !list_insert_insert_eq.
  match goal with
  | |- context [<[server := ?s']> (heap w)] =>
      pose proof (running_count_insert (servers w) (heap w) name server s'
                    Hnd Hin Hl Hst eq_refl) as Hcount
  end.
  simpl in Hcount. rewrite Hcount. lia.
Qed.

End compositions.

(** ** The properties on the sample worlds *)

Section episodes.
Import Sample Episode.
Local Existing Instance PyJson.python_json.

(** The spawn step of [start_server] saves what it changes. *)
Lemma step_persists_witness :
  step env (Wake 1) (after start_call stopped) = Some (after start_spawn stopped)
  ∧ (quiet (after start_call stopped) (after start_spawn stopped)
     ∨ synced (after start_spawn stopped)).
Proof.
  assert (H1 : step env (Wake 1) (after start_call stopped)
               = Some (after start_spawn stopped))
    by (vm_compute; reflexivity).
  split; [exact H1|].
  exact (step_persists env (Wake 1) _ _ H1).
Defined.

(** The descriptor of [alpha] along [Sample.crash_at_boot]. *)
Lemma descriptors_only_evolve_witness :
  run crash_at_boot stopped = Some (after crash_at_boot stopped)
  ∧ (0 < length (heap stopped))%nat
  ∧ evolves (heap stopped !!! 0%nat) (heap (after crash_at_boot stopped) !!! 0%nat).
Proof.
  assert (H1 : run crash_at_boot stopped = Some (after crash_at_boot stopped))
    by (vm_compute; reflexivity).
  assert (H2 : (0 < length (heap stopped))%nat) by (vm_compute; lia).
  split; [exact H1|]. split; [exact H2|].
  exact (descriptors_only_evolve crash_at_boot stopped _ H1 0%nat H2).
Defined.

(** The port table across [delete_server("alpha")]. *)
Lemma only_create_claims_ports_witness :
  not_create stopped (Invoke (DeleteServer "alpha"))
  ∧ step env (Invoke (DeleteServer "alpha")) stopped
    = Some (after (on env [Invoke (DeleteServer "alpha")]) stopped)
  ∧ allocated_ports (after (on env [Invoke (DeleteServer "alpha")]) stopped)
    ⊆ allocated_ports stopped.
Proof.
  assert (H1 : not_create stopped (Invoke (DeleteServer "alpha")))
    by (vm_compute; exact I).
  assert (H2 : step env (Invoke (DeleteServer "alpha")) stopped
               = Some (after (on env [Invoke (DeleteServer "alpha")]) stopped))
    by (vm_compute; reflexivity).
  split; [exact H1|]. split; [exact H2|].
  exact (only_create_claims_ports env _ stopped _ H1 H2).
Defined.

(** [restart_server("gamma")] where there is no such server. *)
Lemma unknown_server_refused_witness :
  RestartServer "gamma" ∈ [StartServer "gamma"; StopServer "gamma";
                           RestartServer "gamma"; DeleteServer "gamma"]
  ∧ PyDict.get "gamma" (servers stopped) = None
  ∧ step env (Invoke (RestartServer "gamma")) stopped
    = Some (returned (Returns (false, "Server 'gamma' does not exist")) stopped).
Proof.
  assert (H1 : RestartServer "gamma" ∈ [StartServer "gamma"; StopServer "gamma";
                                        RestartServer "gamma"; DeleteServer "gamma"])
    by (do 2 right; left).
  assert (H2 : PyDict.get "gamma" (servers stopped) = None)
    by (vm_compute; reflexivity).
  split; [exact H1|]. split; [exact H2|].
  exact (unknown_server_refused env _ "gamma" stopped H1 H2).
Defined.

(** [restart_server] of the stopped server, [start_server] of the
    running one. *)
Lemma status_refused_witness :
  (PyDict.get "alpha" (servers stopped) = Some 0%nat
   ∧ status (heap stopped !!! 0%nat) ≠ value RUNNING
   ∧ step env (Invoke (RestartServer "alpha")) stopped
     = Some (returned (Returns (false, "Server 'alpha' is not running")) stopped))
  ∧ (PyDict.get "alpha" (servers running) = Some 0%nat
     ∧ status (heap running !!! 0%nat) = value RUNNING
     ∧ step env (Invoke (StartServer "alpha")) running
       = Some (returned (Returns (false, "Server 'alpha' is already running"))
                 running)).
Proof.
  assert (H1 : PyDict.get "alpha" (servers stopped) = Some 0%nat)
    by (vm_compute; reflexivity).
  assert (H2 : status (heap stopped !!! 0%nat) ≠ value RUNNING)
    by (vm_compute; discriminate).
  assert (H3 : RestartServer "alpha" ∈ [StopServer "alpha"; RestartServer "alpha"])
    by (right; left).
  assert (H4 : PyDict.get "alpha" (servers running) = Some 0%nat)
    by (vm_compute; reflexivity).
  assert (H5 : status (heap running !!! 0%nat) = value RUNNING)
    by (vm_compute; reflexivity).
  split.
  - split; [exact H1|]. split; [exact H2|].
    exact (proj1 (status_refused env "alpha" 0%nat stopped H1) H2 _ H3).
  - split; [exact H4|]. split; [exact H5|].
    exact (proj2 (status_refused env "alpha" 0%nat running H4) H5).
Defined.

(** A second [create_server("alpha", ...)], and one under a ceiling
    that is reached. *)
Lemma create_server_refused_witness :
  (lock stopped = false ∧ PyDict.mem "alpha" (servers stopped) = true
   ∧ step env (Invoke (CreateServer "alpha" "1.20.4" None None)) stopped
     = Some (returned (Returns (false, "Server 'alpha' already exists")) stopped))
  ∧ (lock crowded = false ∧ PyDict.mem "gamma" (servers crowded) = false
     ∧ max_concurrent (config crowded) ≤ (get_running_count crowded).1
     ∧ step env (Invoke (CreateServer "gamma" "1.20.4" None None)) crowded
       = Some (returned (Returns (false, "Maximum concurrent servers (1) reached"))
                 crowded)).
Proof.
  assert (H1 : lock stopped = false) by (vm_compute; reflexivity).
  assert (H2 : PyDict.mem "alpha" (servers stopped) = true)
    by (vm_compute; reflexivity).
  assert (H3 : lock crowded = false) by (vm_compute; reflexivity).
  assert (H4 : PyDict.mem "gamma" (servers crowded) = false)
    by (vm_compute; reflexivity).
  assert (H5 : max_concurrent (config crowded) ≤ (get_running_count crowded).1)
    by (vm_compute; discriminate).
  split.
  - split; [exact H1|]. split; [exact H2|].
    exact (proj1 (proj1 (create_server_refused env "alpha" "1.20.4" None None
                           stopped) H1) H2).
  - split; [exact H3|]. split; [exact H4|]. split; [exact H5|].
    exact (proj1 (proj2 (proj1 (create_server_refused env "gamma" "1.20.4" None
                                  None crowded) H3)) H4 H5).
Defined.

(** [create_server("beta", "1.20.4")] beside [alpha]. *)
Lemma create_server_succeeds_witness :
  closed stopped
  ∧ step env create_call stopped = Some (after (on env [create_call]) stopped)
  ∧ tasks (after (on env [create_call]) stopped) !! length (tasks stopped)
    = Some (CreateDownload "beta" 25566 beta_new)
  ∧ acquisition_succeeds env None
  ∧ step env (Wake (length (tasks stopped))) (after (on env [create_call]) stopped)
    = Some (after (on env [create_call; Wake 1]) stopped)
  ∧ fleet (after (on env [create_call; Wake 1]) stopped)
    = fleet stopped ++ [("beta", beta_new)]
  ∧ allocated_ports (after (on env [create_call; Wake 1]) stopped)
    = <[25566 := "beta"]> (allocated_ports stopped)
  ∧ synced (after (on env [create_call; Wake 1]) stopped).
Proof.
  assert (H0 : closed stopped)
    by (unfold closed; apply (bool_decide_unpack _); vm_compute; exact I).
  assert (H1 : step env create_call stopped
               = Some (after (on env [create_call]) stopped))
    by (vm_compute; reflexivity).
  assert (H2 : tasks (after (on env [create_call]) stopped)
                 !! length (tasks stopped)
               = Some (CreateDownload "beta" 25566 beta_new))
    by (vm_compute; reflexivity).
  assert (H3 : acquisition_succeeds env None) by (vm_compute; reflexivity).
  assert (H4 : step env (Wake (length (tasks stopped)))
                 (after (on env [create_call]) stopped)
               = Some (after (on env [create_call; Wake 1]) stopped))
    by (vm_compute; reflexivity).
  repeat (split; [assumption|]).
  destruct (create_server_succeeds env env "beta" "1.20.4" None None
              25566 beta_new stopped _ _ H0 H1 H2 H3 H4)
    as (_ & _ & Hfleet & Hports & _ & Hsynced & _).
  split; [exact Hfleet|]. split; [exact Hports|]. exact Hsynced.
Defined.

(** The spawn of the child of [alpha]. *)
Lemma start_server_spawns_witness :
  tasks (after start_call stopped) !! 1%nat = Some (StartSpawn "alpha" 0%nat)
  ∧ (0 < length (heap (after start_call stopped)))%nat
  ∧ spawn env = Some 4242
  ∧ step env (Wake 1) (after start_call stopped) = Some (after start_spawn stopped)
  ∧ status (heap (after start_spawn stopped) !!! 0%nat) = value STARTING
  ∧ pid (heap (after start_spawn stopped) !!! 0%nat) = Some 4242
  ∧ synced (after start_spawn stopped).
Proof.
  assert (H1 : tasks (after start_call stopped) !! 1%nat
               = Some (StartSpawn "alpha" 0%nat))
    by (vm_compute; reflexivity).
  assert (H2 : (0 < length (heap (after start_call stopped)))%nat)
    by (vm_compute; lia).
  assert (H3 : spawn env = Some 4242) by (vm_compute; reflexivity).
  assert (H4 : step env (Wake 1) (after start_call stopped)
               = Some (after start_spawn stopped))
    by (vm_compute; reflexivity).
  repeat (split; [assumption|]).
  destruct (start_server_spawns env 1%nat "alpha" 0%nat 4242 _ _ H1 H2 H3 H4)
    as (_ & _ & _ & _ & _ & Hst & Hpid & _ & _ & _ & _ & Hsynced).
  split; [exact Hst|]. split; [exact Hpid|]. exact Hsynced.
Defined.

(** The end of the confirmation window of [alpha], whose child lives. *)
Lemma start_server_confirms_witness :
  tasks (after start_spawn stopped) !! 1%nat
    = Some (StartConfirm "alpha" 0%nat 0%nat)
  ∧ (0 < length (heap (after start_spawn stopped)))%nat
  ∧ step env (Wake 1) (after start_spawn stopped)
    = Some (after (start_spawn ++ on env [Wake 1]) stopped)
  ∧ tasks (after (start_spawn ++ on env [Wake 1]) stopped) !! 1%nat
    = Some (Done (Some (Returns (true, "Server 'alpha' started"))))
  ∧ synced (after (start_spawn ++ on env [Wake 1]) stopped).
Proof.
  assert (H1 : tasks (after start_spawn stopped) !! 1%nat
               = Some (StartConfirm "alpha" 0%nat 0%nat))
    by (vm_compute; reflexivity).
  assert (H2 : (0 < length (heap (after start_spawn stopped)))%nat)
    by (vm_compute; lia).
  assert (H3 : step env (Wake 1) (after start_spawn stopped)
               = Some (after (start_spawn ++ on env [Wake 1]) stopped))
    by (vm_compute; reflexivity).
  repeat (split; [assumption|]).
  pose proof (start_server_confirms env 1%nat "alpha" 0%nat 0%nat _ _ H1 H2 H3)
    as Hc.
  assert (Hr : returncode (procs (after start_spawn stopped) !!! 0%nat) = None)
    by (vm_compute; reflexivity).
  rewrite Hr in Hc. destruct Hc as (Htask & _ & Hsynced).
  split; assumption.
Defined.

(** The end of the sleep of [stop_server("alpha")]. *)
Lemma stop_server_completes_witness :
  tasks (after stop_call running) !! 3%nat
    = Some (StopSleep "alpha" 0%nat 0%nat ByOperator)
  ∧ (0 < length (heap (after stop_call running)))%nat
  ∧ (0 < length (procs (after stop_call running)))%nat
  ∧ step env (Wake 3) (after stop_call running)
    = Some (after (stop_call ++ on env [Wake 3]) running)
  ∧ status (heap (after (stop_call ++ on env [Wake 3]) running) !!! 0%nat)
    = value STOPPED
  ∧ signals (procs (after (stop_call ++ on env [Wake 3]) running) !!! 0%nat)
    = [SIGTERM; SIGKILL].
Proof.
  assert (H1 : tasks (after stop_call running) !! 3%nat
               = Some (StopSleep "alpha" 0%nat 0%nat ByOperator))
    by (vm_compute; reflexivity).
  assert (H2 : (0 < length (heap (after stop_call running)))%nat)
    by (vm_compute; lia).
  assert (H3 : (0 < length (procs (after stop_call running)))%nat)
    by (vm_compute; lia).
  assert (H4 : step env (Wake 3) (after stop_call running)
               = Some (after (stop_call ++ on env [Wake 3]) running))
    by (vm_compute; reflexivity).
  repeat (split; [assumption|]).
  destruct (stop_server_completes env 3%nat "alpha" 0%nat 0%nat _ _ H1 H2 H3 H4)
    as (_ & Hst & _ & _ & _ & Hsig & _).
  split; [exact Hst|]. rewrite Hsig. vm_compute. reflexivity.
Defined.

(** [delete_server("alpha")] of the stopped server. *)
Lemma delete_server_deletes_witness :
  PyDict.get "alpha" (servers stopped) = Some 0%nat
  ∧ status (heap stopped !!! 0%nat) ≠ value RUNNING
  ∧ step env (Invoke (DeleteServer "alpha")) stopped
    = Some (after (on env [Invoke (DeleteServer "alpha")]) stopped)
  ∧ servers (after (on env [Invoke (DeleteServer "alpha")]) stopped)
    = PyDict.del "alpha" (servers stopped)
  ∧ allocated_ports (after (on env [Invoke (DeleteServer "alpha")]) stopped)
    = delete (port (heap stopped !!! 0%nat)) (allocated_ports stopped)
  ∧ synced (after (on env [Invoke (DeleteServer "alpha")]) stopped).
Proof.
  assert (H1 : PyDict.get "alpha" (servers stopped) = Some 0%nat)
    by (vm_compute; reflexivity).
  assert (H2 : status (heap stopped !!! 0%nat) ≠ value RUNNING)
    by (vm_compute; discriminate).
  assert (H3 : step env (Invoke (DeleteServer "alpha")) stopped
               = Some (after (on env [Invoke (DeleteServer "alpha")]) stopped))
    by (vm_compute; reflexivity).
  repeat (split; [assumption|]).
  destruct (delete_server_deletes env "alpha" 0%nat stopped _ H1 H2 H3)
    as (_ & Hservers & _ & Hports & _ & _ & _ & _ & _ & Hsynced).
  split; [exact Hservers|]. split; [exact Hports|]. exact Hsynced.
Defined.

(** [auto_start_on_boot] over [Sample.two], where [beta] is RUNNING. *)
Lemma auto_start_on_boot_idle_witness :
  PyDict.wf (servers two) ∧ auto_start_on_boot true two = (None, two).
Proof.
  assert (H1 : PyDict.wf (servers two))
    by (unfold PyDict.wf; apply (bool_decide_unpack _); vm_compute; exact I).
  split; [exact H1|].
  exact (auto_start_on_boot_idle true two H1).
Defined.

(** The constructor over [Episode.truncated]. *)
Lemma init_raises_on_malformed_state_witness :
  state_file truncated
    = Some (concat_chunks (PyJson.iterencode 0
        (JObj [("alpha", asdict alpha);
               ("beta", JObj [("name", JStr "beta");
                              ("version", JStr "1.20.4")])])))
  ∧ json_load (concat_chunks (PyJson.iterencode 0
        (JObj [("alpha", asdict alpha);
               ("beta", JObj [("name", JStr "beta");
                              ("version", JStr "1.20.4")])])))
    = Some (JObj [("alpha", asdict alpha);
                  ("beta", JObj [("name", JStr "beta");
                                 ("version", JStr "1.20.4")])])
  ∧ malformed (JObj [("name", JStr "beta"); ("version", JStr "1.20.4")])
  ∧ (MinecraftServerManager_init cfg truncated).1 = Raises "TypeError".
Proof.
  assert (H1 : state_file truncated
               = Some (concat_chunks (PyJson.iterencode 0
                   (JObj [("alpha", asdict alpha);
                          ("beta", JObj [("name", JStr "beta");
                                         ("version", JStr "1.20.4")])]))))
    by reflexivity.
  assert (H2 : json_load (concat_chunks (PyJson.iterencode 0
                   (JObj [("alpha", asdict alpha);
                          ("beta", JObj [("name", JStr "beta");
                                         ("version", JStr "1.20.4")])])))
               = Some (JObj [("alpha", asdict alpha);
                             ("beta", JObj [("name", JStr "beta");
                                            ("version", JStr "1.20.4")])]))
    by (vm_compute; reflexivity).
  assert (H3 : malformed (JObj [("name", JStr "beta"); ("version", JStr "1.20.4")]))
    by (vm_compute; reflexivity).
  split; [exact H1|]. split; [exact H2|]. split; [exact H3|].
  refine (proj1 (init_raises_on_malformed_state cfg truncated _ H1)
            _ "beta" _ H2 _ H3).
  right; left.
Defined.

(** The port table of the manager that is constructed over the state
    file of [Sample.two]: the port of [alpha], which is STOPPED, is not
    in it. *)
Lemma init_claims_running_ports_witness :
  state_file saved = Some (concat_chunks (json_dump (states_of two)))
  ∧ json_load (concat_chunks (json_dump (states_of two)))
    = Some (JObj ((λ ns, (ns.1, asdict ns.2)) <$> fleet two))
  ∧ NoDup (fleet two).*1
  ∧ fleet (MinecraftServerManager_init cfg saved).2 = fleet two
  ∧ is_Some (allocated_ports (MinecraftServerManager_init cfg saved).2 !! 25566)
  ∧ allocated_ports (MinecraftServerManager_init cfg saved).2 !! 25565 = None.
Proof.
  assert (H1 : state_file saved
               = Some (concat_chunks (json_dump (states_of two))))
    by (vm_compute; reflexivity).
  assert (H2 : json_load (concat_chunks (json_dump (states_of two)))
               = Some (JObj ((λ ns, (ns.1, asdict ns.2)) <$> fleet two)))
    by (vm_compute; reflexivity).
  assert (H3 : NoDup (fleet two).*1)
    by (apply (bool_decide_unpack _); vm_compute; exact I).
  repeat (split; [assumption|]).
  destruct (init_claims_running_ports cfg saved _ (fleet two) H1 H2 H3)
    as (_ & Hfleet & Hfrom & Hrun).
  split; [exact Hfleet|]. split.
  - apply (Hrun "beta" beta); [vm_compute; by right; left | vm_compute; reflexivity].
  - destruct (allocated_ports _ !! 25565) as [n|] eqn:Hp; [|done].
    destruct (Hfrom _ _ Hp) as (s & Hin & Hst & Hport).
    vm_compute in Hin.
    repeat (apply elem_of_cons in Hin as [[= -> ->]|Hin]);
      [vm_compute in Hst; discriminate | vm_compute in Hport; discriminate
      | by apply elem_of_nil in Hin].
Defined.

(** [motd] set twice in the file of [Sample.configured]. *)
Lemma update_server_properties_idempotent_witness :
  property_name_ok "motd" = true ∧ property_value_ok "Hello" = true
  ∧ update_server_properties "alpha" "motd" "Hello"
      (update_server_properties "alpha" "motd" "Hello" configured).2
    = update_server_properties "alpha" "motd" "Hello" configured.
Proof.
  assert (H1 : property_name_ok "motd" = true) by (vm_compute; reflexivity).
  assert (H2 : property_value_ok "Hello" = true) by (vm_compute; reflexivity).
  split; [exact H1|]. split; [exact H2|].
  exact (update_server_properties_idempotent "alpha" "motd" "Hello" configured
           H1 H2).
Defined.

(** [/create beta https://...] by a permitted caller. *)
Lemma bot_create_server_calls_witness :
  bot_create_server true "beta"
    "https://www.curseforge.com/minecraft/modpacks/x" (Some 4096)
  = CallManager (CreateServer "beta" "modpack" (Some 4096)
                   (Some "https://www.curseforge.com/minecraft/modpacks/x"))
  ∧ isalnum "beta" = true ∧ contains "/" "beta" = false.
Proof.
  assert (H1 : bot_create_server true "beta"
                 "https://www.curseforge.com/minecraft/modpacks/x" (Some 4096)
               = CallManager (CreateServer "beta" "modpack" (Some 4096)
                   (Some "https://www.curseforge.com/minecraft/modpacks/x")))
    by (vm_compute; reflexivity).
  split; [exact H1|].
  destruct (bot_create_server_calls _ _ _ _ _ H1) as (_ & Hname & _ & Hslash & _).
  split; assumption.
Defined.

(** [delete_server("alpha")] of the running server after its child has
    been reaped. *)
Lemma terminate_error_propagates_witness :
  DeleteServer "alpha" ∈ [StopServer "alpha"; RestartServer "alpha";
                          DeleteServer "alpha"]
  ∧ PyDict.get "alpha" (servers running) = Some 0%nat
  ∧ status (heap running !!! 0%nat) = value RUNNING
  ∧ processes running !! "alpha" = Some 0%nat
  ∧ terminate_raises env_reaped = true
  ∧ step env_reaped (Invoke (DeleteServer "alpha")) running
    = Some (returned (Raises "ProcessLookupError") running).
Proof.
  assert (H1 : DeleteServer "alpha" ∈ [StopServer "alpha"; RestartServer "alpha";
                                       DeleteServer "alpha"])
    by (do 2 right; left).
  assert (H2 : PyDict.get "alpha" (servers running) = Some 0%nat)
    by (vm_compute; reflexivity).
  assert (H3 : status (heap running !!! 0%nat) = value RUNNING)
    by (vm_compute; reflexivity).
  assert (H4 : processes running !! "alpha" = Some 0%nat)
    by (vm_compute; reflexivity).
  assert (H5 : terminate_raises env_reaped = true) by (vm_compute; reflexivity).
  repeat (split; [assumption|]).
  exact (terminate_error_propagates env_reaped _ "alpha" 0%nat 0%nat running
           H1 H2 H3 H4 H5).
Defined.

(** [delete_server("alpha")] of the running server. *)
Lemma delete_server_stops_first_witness :
  PyDict.get "alpha" (servers running) = Some 0%nat
  ∧ status (heap running !!! 0%nat) = value RUNNING
  ∧ processes running !! "alpha" = Some 0%nat
  ∧ terminate_raises env = false
  ∧ (0 < length (heap running))%nat ∧ (0 < length (procs running))%nat
  ∧ run [(env, Invoke (DeleteServer "alpha")); (env, Wake (length (tasks running)))]
      running
    = Some (after delete_running running)
  ∧ servers (after delete_running running) = PyDict.del "alpha" (servers running)
  ∧ signals (procs (after delete_running running) !!! 0%nat) = [SIGTERM; SIGKILL]
  ∧ synced (after delete_running running).
Proof.
  assert (H1 : PyDict.get "alpha" (servers running) = Some 0%nat)
    by (vm_compute; reflexivity).
  assert (H2 : status (heap running !!! 0%nat) = value RUNNING)
    by (vm_compute; reflexivity).
  assert (H3 : processes running !! "alpha" = Some 0%nat)
    by (vm_compute; reflexivity).
  assert (H4 : terminate_raises env = false) by (vm_compute; reflexivity).
  assert (H5 : (0 < length (heap running))%nat) by (vm_compute; lia).
  assert (H6 : (0 < length (procs running))%nat) by (vm_compute; lia).
  assert (H7 : run [(env, Invoke (DeleteServer "alpha"));
                    (env, Wake (length (tasks running)))] running
               = Some (after delete_running running))
    by (vm_compute; reflexivity).
  repeat (split; [assumption|]).
  destruct (delete_server_stops_first env env "alpha" 0%nat 0%nat running _
              H1 H2 H3 H4 H5 H6 H7)
    as (_ & Hservers & _ & _ & Hsig & _ & Hsynced).
  split; [exact Hservers|]. split; [|exact Hsynced].
  rewrite Hsig. vm_compute. reflexivity.
Defined.

(** [restart_server("alpha")] of the running server. *)
Lemma restart_server_stops_then_starts_witness :
  PyDict.get "alpha" (servers running) = Some 0%nat
  ∧ status (heap running !!! 0%nat) = value RUNNING
  ∧ processes running !! "alpha" = Some 0%nat
  ∧ terminate_raises env = false
  ∧ (0 < length (heap running))%nat ∧ (0 < length (procs running))%nat
  ∧ "alpha" ∈ server_dirs (fs running)
  ∧ run [(env, Invoke (RestartServer "alpha"));
         (env, Wake (length (tasks running)));
         (env, Wake (length (tasks running)))] running
    = Some (after restart_running running)
  ∧ tasks (after restart_running running) !! length (tasks running)
    = Some (StartSpawn "alpha" 0%nat).
Proof.
  assert (H1 : PyDict.get "alpha" (servers running) = Some 0%nat)
    by (vm_compute; reflexivity).
  assert (H2 : status (heap running !!! 0%nat) = value RUNNING)
    by (vm_compute; reflexivity).
  assert (H3 : processes running !! "alpha" = Some 0%nat)
    by (vm_compute; reflexivity).
  assert (H4 : terminate_raises env = false) by (vm_compute; reflexivity).
  assert (H5 : (0 < length (heap running))%nat) by (vm_compute; lia).
  assert (H6 : (0 < length (procs running))%nat) by (vm_compute; lia).
  assert (H7 : "alpha" ∈ server_dirs (fs running))
    by (apply (bool_decide_unpack _); vm_compute; exact I).
  assert (H8 : run [(env, Invoke (RestartServer "alpha"));
                    (env, Wake (length (tasks running)));
                    (env, Wake (length (tasks running)))] running
               = Some (after restart_running running))
    by (vm_compute; reflexivity).
  repeat (split; [assumption|]).
  exact (proj1 (restart_server_stops_then_starts env env env "alpha" 0%nat 0%nat
                  running _ H1 H2 H3 H4 H5 H6 H7 H8)).
Defined.

(** [start_server("alpha")] in [Episode.crowded], where the ceiling of
    one RUNNING server is reached. *)
Lemma start_server_ignores_ceiling_witness :
  PyDict.get "alpha" (servers crowded) = Some 0%nat
  ∧ status (heap crowded !!! 0%nat) ≠ value RUNNING
  ∧ "alpha" ∈ server_dirs (fs crowded)
  ∧ spawn env = Some 4242
  ∧ closed crowded ∧ NoDup (servers crowded).*2
  ∧ run [(env, Invoke (StartServer "alpha"));
         (env, Wake (length (tasks crowded)));
         (env, Wake (length (tasks crowded)))] crowded
    = Some (after start_alpha crowded)
  ∧ max_concurrent (config crowded) ≤ (get_running_count crowded).1
  ∧ (get_running_count (after start_alpha crowded)).1
    = (get_running_count crowded).1 + 1.
Proof.
  assert (H1 : PyDict.get "alpha" (servers crowded) = Some 0%nat)
    by (vm_compute; reflexivity).
  assert (H2 : status (heap crowded !!! 0%nat) ≠ value RUNNING)
    by (vm_compute; discriminate).
  assert (H3 : "alpha" ∈ server_dirs (fs crowded))
    by (apply (bool_decide_unpack _); vm_compute; exact I).
  assert (H4 : spawn env = Some 4242) by (vm_compute; reflexivity).
  assert (H5 : closed crowded)
    by (unfold closed; apply (bool_decide_unpack _); vm_compute; exact I).
  assert (H6 : NoDup (servers crowded).*2)
    by (apply (bool_decide_unpack _); vm_compute; exact I).
  assert (H7 : run [(env, Invoke (StartServer "alpha"));
                    (env, Wake (length (tasks crowded)));
                    (env, Wake (length (tasks crowded)))] crowded
               = Some (after start_alpha crowded))
    by (vm_compute; reflexivity).
  repeat (split; [assumption|]).
  split; [vm_compute; discriminate|].
  exact (proj2 (proj2 (start_server_ignores_ceiling env env env "alpha" 0%nat
                         4242 crowded _ H1 H2 H3 H4 H5 H6 H7))).
Defined.

End episodes.

(** ** A turn of [monitor_server] *)

Section monitor_facts.
Context `{JsonLib}.

(** When the monitor wakes and the child has exited, the descriptor
    becomes CRASHED with one crash more, which goes into the state file,
    and the monitor ends; the process id of the descriptor, the process
    handle and the monitor registered under the name, the fleet and the
    port table stay as they are. When the child has not exited, the
    monitor sleeps again and nothing has changed. *)
Theorem monitor_server_turn (e : Env) (t : tid) (name : string) (server : loc)
    (process : proc) (w w' : World) :
  tasks w !! t = Some (MonitorSleep name server process) →
  (server < length (heap w))%nat →
  step e (Wake t) w = Some w' →
  match returncode (procs w !!! process) with
  | Some _ =>
      tasks w' !! t = Some (Done None)
      ∧ status (heap w' !!! server) = value CRASHED
      ∧ crash_count (heap w' !!! server) = crash_count (heap w !!! server) + 1
      ∧ pid (heap w' !!! server) = pid (heap w !!! server)
      ∧ (∀ l, l ≠ server → heap w' !!! l = heap w !!! l)
      ∧ servers w' = servers w
      ∧ processes w' = processes w
      ∧ monitoring_tasks w' = monitoring_tasks w
      ∧ allocated_ports w' = allocated_ports w
      ∧ synced w'
  | None => w' = w
  end.
Proof.
  intros Htask Hl Hstep. pose proof (lookup_lt_Some _ _ _ Htask) as Ht.
  simpl in Hstep. rewrite Htask in Hstep. simpl in Hstep.
  injection Hstep as <-. rewrite run_piece_eq.
  unfold monitor_poll, assign, bind, gets, modify, ret.
  destruct (returncode (procs w !!! process)).
  - rewrite save_server_states_world. simpl.
    rewrite !list_lookup_total_insert_eq by (rewrite ?length_insert; done).
    split; [by apply list_lookup_insert_eq|].
    do 3 (split; [done|]).
    split; [intros l Hne; by rewrite !list_lookup_total_insert_ne|].
    do 4 (split; [done|]). apply synced_save.
  - simpl. destruct w. unfold set_tasks. simpl in *. f_equal.
    by apply list_insert_id.
Qed.

End monitor_facts.

Section monitor_episode.
Import Sample Episode.
Local Existing Instance PyJson.python_json.

(** The turn of the monitor of [alpha] after the exit of its child. *)
Lemma monitor_server_turn_witness :
  tasks (after exit_at_boot stopped) !! 2%nat
    = Some (MonitorSleep "alpha" 0%nat 0%nat)
  ∧ (0 < length (heap (after exit_at_boot stopped)))%nat
  ∧ step env (Wake 2) (after exit_at_boot stopped)
    = Some (after (exit_at_boot ++ on env [Wake 2]) stopped)
  ∧ status (heap (after (exit_at_boot ++ on env [Wake 2]) stopped) !!! 0%nat)
    = value CRASHED
  ∧ processes (after (exit_at_boot ++ on env [Wake 2]) stopped)
    = processes (after exit_at_boot stopped)
  ∧ synced (after (exit_at_boot ++ on env [Wake 2]) stopped).
Proof.
  assert (H1 : tasks (after exit_at_boot stopped) !! 2%nat
               = Some (MonitorSleep "alpha" 0%nat 0%nat))
    by (vm_compute; reflexivity).
  assert (H2 : (0 < length (heap (after exit_at_boot stopped)))%nat)
    by (vm_compute; lia).
  assert (H3 : step env (Wake 2) (after exit_at_boot stopped)
               = Some (after (exit_at_boot ++ on env [Wake 2]) stopped))
    by (vm_compute; reflexivity).
  repeat (split; [assumption|]).
  pose proof (monitor_server_turn env 2%nat "alpha" 0%nat 0%nat _ _ H1 H2 H3)
    as Hc.
  assert (Hr : returncode (procs (after exit_at_boot stopped) !!! 0%nat) = Some 1)
    by (vm_compute; reflexivity).
  rewrite Hr in Hc.
  destruct Hc as (_ & Hst & _ & _ & _ & _ & Hps & _ & _ & Hsynced).
  split; [exact Hst|]. split; [exact Hps|]. exact Hsynced.
Defined.

End monitor_episode.
